(** * flowreg-session-gui: the configuration form, the YAML serializer and
    the local runner, embedded from the Python sources

    Sources embedded here:
    - [serialization.py]: [_convert_paths_to_strings], [_maybe_relative],
      [serialize_config_to_yaml];
    - [model_utils.py]: [model_to_dict], [build_model];
    - [config_form.py]: [_unwrap_optional], [_annotation_has_type],
      [FlowOptionsEditor], [SessionConfigForm];
    - [local_runner.py]: [RUNNER_SCRIPT], [LocalRunner].

    Modelling conventions.
    - A Python [str] is a Rocq [string]; each character stands for one code
      point below 256.
    - [pathlib.Path] is modelled with the POSIX flavour ([PurePosixPath]).
    - Exceptions are modelled by their class; messages are not kept.
    - A Python [dict] is an association list in insertion order; lookup
      returns the first binding and assignment to an existing key keeps the
      key's position, as in CPython. *)

From Stdlib Require Import String Ascii List ZArith Bool Lia DecimalString.
From Stdlib Require Import Permutation.
Import ListNotations.
Open Scope string_scope.
Open Scope list_scope.

Set Warnings "-register-all".

(** ** Results of fallible Python code *)

Inductive pyexc : Type :=
| ValueError
| TypeError
| RuntimeError
| IndexError
| OverflowError
| OSError.

Inductive result (A : Type) : Type :=
| Ok (a : A)
| Raise (e : pyexc).

Arguments Ok {A} a.
Arguments Raise {A} e.

Definition rbind {A B} (r : result A) (k : A -> result B) : result B :=
  match r with
  | Ok a => k a
  | Raise e => Raise e
  end.

(** ** Python strings *)

Module PyStr.

Definition slash : ascii := "/"%char.

Definition eqb_ascii (a b : ascii) : bool := Ascii.eqb a b.

(** [s.startswith("/")] *)
Definition starts_with_slash (s : string) : bool :=
  match s with
  | String c _ => eqb_ascii c slash
  | EmptyString => false
  end.

(** [s.split("/")]: never returns the empty list. *)
Fixpoint split_slash (s : string) : list string :=
  match s with
  | EmptyString => [""]
  | String c r =>
      if eqb_ascii c slash then "" :: split_slash r
      else match split_slash r with
           | h :: t => String c h :: t
           | [] => [String c ""]
           end
  end.

(** ["/".join(parts)] *)
Fixpoint join_slash (parts : list string) : string :=
  match parts with
  | [] => ""
  | [p] => p
  | p :: rest => p ++ String slash (join_slash rest)
  end.

(** [str.isspace] on one code point below 256: the ASCII controls
    9..13 and 28..31, the space, U+0085 and U+00A0. *)
Definition is_space (c : ascii) : bool :=
  let n := nat_of_ascii c in
  (((9 <=? n) && (n <=? 13)) || ((28 <=? n) && (n <=? 32))
   || (n =? 133) || (n =? 160))%nat.

Fixpoint lstrip (s : string) : string :=
  match s with
  | String c r => if is_space c then lstrip r else s
  | EmptyString => ""
  end.

(** Strips trailing white space; the right fold keeps a character when
    it is not a space or when something non-empty survives after it. *)
Fixpoint rstrip (s : string) : string :=
  match s with
  | EmptyString => ""
  | String c r =>
      match rstrip r with
      | EmptyString => if is_space c then "" else String c ""
      | r' => String c r'
      end
  end.

(** [s.strip()] *)
Definition strip (s : string) : string := rstrip (lstrip s).

Fixpoint no_slash (s : string) : bool :=
  match s with
  | EmptyString => true
  | String c r => negb (eqb_ascii c slash) && no_slash r
  end.

(** [str(n)] for an [int]. *)
Definition of_Z (z : Z) : string := NilZero.string_of_int (Z.to_int z).

End PyStr.

(** ** [pathlib.PurePosixPath] *)

Module PosixPath.
Import PyStr.

(** A parsed path: [root] is [""], ["/"] or ["//"], [tail] the
    components after the root. *)
Record t : Type := mk { root : string; tail : list string }.

(** [posixpath.splitroot] *)
Definition splitroot (p : string) : string * string :=
  match p with
  | String c1 r1 =>
      if eqb_ascii c1 slash then
        match r1 with
        | String c2 r2 =>
            if eqb_ascii c2 slash then
              match r2 with
              | String c3 _ =>
                  if eqb_ascii c3 slash then ("/", r1) else ("//", r2)
              | EmptyString => ("//", r2)
              end
            else ("/", r1)
        | EmptyString => ("/", r1)
        end
      else ("", p)
  | EmptyString => ("", p)
  end.

Definition keep_part (x : string) : bool :=
  negb (String.eqb x "") && negb (String.eqb x ".").

(** [PurePath._parse_path] *)
Definition parse (path : string) : t :=
  match path with
  | EmptyString => mk "" []
  | _ =>
      let '(rt, rel) := splitroot path in
      mk rt (filter keep_part (split_slash rel))
  end.

(** [Path.is_absolute] *)
Definition is_absolute (p : t) : bool := negb (String.eqb (root p) "").

(** [str(path)] *)
Definition to_str (p : t) : string :=
  match root p, tail p with
  | EmptyString, [] => "."
  | rt, tl => rt ++ join_slash tl
  end.

(** Strips the prefix [pre] from [l] when it is one. *)
Fixpoint strip_prefix (pre l : list string) : option (list string) :=
  match pre, l with
  | [], _ => Some l
  | p :: pre', x :: l' =>
      if String.eqb p x then strip_prefix pre' l' else None
  | _ :: _, [] => None
  end.

(** [self.relative_to(other)] without [walk_up]; [None] stands for the
    [ValueError] raised when [other] is not [self] or one of its parents. *)
Definition relative_to (self other : t) : option t :=
  if String.eqb (root self) (root other) then
    match strip_prefix (tail other) (tail self) with
    | Some rest => Some (mk "" rest)
    | None => None
    end
  else None.

Fixpoint ends_with_slash (s : string) : bool :=
  match s with
  | EmptyString => false
  | String c EmptyString => eqb_ascii c slash
  | String _ r => ends_with_slash r
  end.

(** [posixpath.join(a, b)] *)
Definition posix_join (a b : string) : string :=
  if starts_with_slash b then b
  else if String.eqb a "" || ends_with_slash a then a ++ b
  else a ++ String slash b.

(** [Path(a) / b] for a string [b]: the raw segments are joined and
    parsed again. *)
Definition div (a : string) (b : string) : t := parse (posix_join a b).

(** An argument of type [str | Path]. *)
Inductive path_like : Type :=
| AsStr (s : string)
| AsPath (p : t).

(** [Path(x)] *)
Definition of_like (x : path_like) : t :=
  match x with
  | AsStr s => parse s
  | AsPath p => p
  end.

End PosixPath.

(** ** Python values *)

(** The values a dumped configuration holds.  [VFloat] carries the 64 bits
    of the double; [VObj] is any other object (an [Enum] member, a set, ...)
    known only by its class and a name. *)
Inductive pyval : Type :=
| VNone
| VBool (b : bool)
| VInt (z : Z)
| VFloat (bits : Z)
| VStr (s : string)
| VPath (p : PosixPath.t)
| VList (items : list pyval)
| VTuple (items : list pyval)
| VDict (entries : list (pyval * pyval))
| VObj (cls name : string).

Definition entries : Type := list (pyval * pyval).

Definition is_str (v : pyval) : bool :=
  match v with VStr _ => true | _ => false end.

Definition key_is (k : string) (key : pyval) : bool :=
  match key with
  | VStr s => String.eqb s k
  | _ => false
  end.

(** [d.get(k)] for a string key; [None] when the key is absent. *)
Fixpoint dict_get (k : string) (d : entries) : option pyval :=
  match d with
  | [] => None
  | (key, v) :: rest => if key_is k key then Some v else dict_get k rest
  end.

(** [k in d] *)
Definition dict_mem (k : string) (d : entries) : bool :=
  match dict_get k d with Some _ => true | None => false end.

(** [d[k] = v]: an existing key keeps its place, a new key goes last. *)
Fixpoint dict_set (k : string) (v : pyval) (d : entries) : entries :=
  match d with
  | [] => [(VStr k, v)]
  | (key, old) :: rest =>
      if key_is k key then (key, v) :: rest
      else (key, old) :: dict_set k v rest
  end.

Definition dict_keys (d : entries) : list pyval := map fst d.

(** ** serialization.py *)

(** A model object as [model_to_dict] sees it: each field is [Some d] when
    the object has the attribute, [d] being what the call returns. *)
Record model : Type := mk_model {
  model_dump : option entries;   (* [model.model_dump(mode="python")] *)
  dict_method : option entries;  (* [model.dict()] *)
  dunder_dict : option entries   (* [vars(model)] *)
}.

(** model_utils.py, [model_to_dict] *)
Definition model_to_dict (m : model) : result entries :=
  match model_dump m with
  | Some d => Ok d
  | None =>
      match dict_method m with
      | Some d => Ok d
      | None =>
          match dunder_dict m with
          | Some d => Ok d
          | None => Raise TypeError
          end
      end
  end.

(** The set literal of the source; Python iterates a set in an order of
    its own, see [rewrite_fields_order] below. *)
Definition RELATIVE_PATH_FIELDS : list string :=
  ["output_root"; "final_results"; "center"].

Fixpoint _convert_paths_to_strings (value : pyval) : pyval :=
  match value with
  | VPath p => VStr (PosixPath.to_str p)
  | VDict d =>
      VDict (map (fun kv => match kv with
                            | (k, v) => (k, _convert_paths_to_strings v)
                            end) d)
  | VList items => VList (map _convert_paths_to_strings items)
  | VTuple items => VList (map _convert_paths_to_strings items)
  | _ => value
  end.

Definition _maybe_relative (path_value : pyval) (root_path : option PosixPath.t)
    (prefer_relative : bool) : pyval :=
  match prefer_relative, root_path, path_value with
  | true, Some rootp, VStr s =>
      let candidate := PosixPath.parse s in
      if negb (PosixPath.is_absolute candidate)
         || negb (PosixPath.is_absolute rootp)
      then path_value
      else match PosixPath.relative_to candidate rootp with
           | Some rel => VStr (PosixPath.to_str rel)
           | None => path_value
           end
  | _, _, _ => path_value
  end.

(** The [root_path] computed from [data.get("root")]. *)
Definition root_path_of (d : entries) : option PosixPath.t :=
  match dict_get "root" d with
  | Some (VStr root_raw) =>
      if String.eqb root_raw "" then None
      else Some (PosixPath.parse root_raw)
  | _ => None
  end.

(** The [for field_name in RELATIVE_PATH_FIELDS] loop, run in the order
    [order]. *)
Fixpoint rewrite_fields (order : list string) (root_path : option PosixPath.t)
    (prefer_relative : bool) (d : entries) : entries :=
  match order with
  | [] => d
  | field_name :: order' =>
      let d' :=
        match dict_get field_name d with
        | Some v =>
            dict_set field_name (_maybe_relative v root_path prefer_relative) d
        | None => d
        end in
      rewrite_fields order' root_path prefer_relative d'
  end.

(** The [flow_options] step after the loop. *)
Definition rewrite_flow_options (root_path : option PosixPath.t)
    (prefer_relative : bool) (d : entries) : entries :=
  match dict_get "flow_options" d with
  | Some (VStr s) =>
      dict_set "flow_options"
        (_maybe_relative (VStr s) root_path prefer_relative) d
  | _ => d
  end.

(** What one call is about to write: the file and the data it hands to
    [yaml.safe_dump].  Everything up to there is computed here; [mkdir],
    [open] and [yaml.safe_dump] themselves, which can raise, are
    [Runner.write_yaml]. *)
Record yaml_file : Type := mk_yaml {
  yaml_path : PosixPath.t;
  yaml_data : pyval
}.

Definition serialize_in_order (order : list string) (config : model)
    (path : PosixPath.path_like) (prefer_relative : bool) : result yaml_file :=
  rbind (model_to_dict config) (fun dumped =>
    let output_path := PosixPath.of_like path in
    let data := _convert_paths_to_strings (VDict dumped) in
    let data' :=
      match data with
      | VDict d =>
          let root_path := root_path_of d in
          let d1 := rewrite_fields order root_path prefer_relative d in
          VDict (rewrite_flow_options root_path prefer_relative d1)
      | _ => data
      end in
    Ok (mk_yaml output_path data')).

Definition serialize_config_to_yaml (config : model)
    (path : PosixPath.path_like) (prefer_relative : bool) : result yaml_file :=
  serialize_in_order RELATIVE_PATH_FIELDS config path prefer_relative.

(** ** Vocabulary of the serializer's properties *)

(** A component kept by the path parser: not empty, not ["."], no slash. *)
Definition wf_part (p : string) : Prop :=
  PosixPath.keep_part p = true /\ PyStr.no_slash p = true.

(** The dumped entries after [_convert_paths_to_strings]. *)
Definition convert_entries (d : entries) : entries :=
  map (fun kv => match kv with
                 | (k, v) => (k, _convert_paths_to_strings v)
                 end) d.

(** No [Path] and no tuple is left where the conversion looks: in list
    items and in dict values, at any depth. *)
Fixpoint clean (v : pyval) : bool :=
  match v with
  | VPath _ => false
  | VTuple _ => false
  | VList items => forallb clean items
  | VDict d => forallb (fun kv => match kv with (_, x) => clean x end) d
  | _ => true
  end.







(** A configuration used to exercise the serializer: [output_root] lies
    under [root], [final_results] only shares a string prefix with it,
    [center] is [root] itself and [flow_options] is an inline dict. *)
Definition example_dump : entries :=
  [ (VStr "root", VPath (PosixPath.parse "/data/session"));
    (VStr "pattern", VStr "*.tif");
    (VStr "output_root", VPath (PosixPath.parse "/data/session/out"));
    (VStr "final_results", VStr "/data/session2/final");
    (VStr "center", VStr "/data/session/");
    (VStr "resume", VBool true);
    (VStr "flow_options", VDict [(VStr "levels", VInt 3)]) ].

Definition example_config : model := mk_model (Some example_dump) None None.

Definition example_path : PosixPath.path_like :=
  PosixPath.AsStr "/tmp/run/session_config.yaml".

(** ** local_runner.py: the runner script *)

(** The text handed to [python -c]; what it does is [Script.main]. *)
Definition RUNNER_SCRIPT : string := "<RUNNER_SCRIPT>".

Module Script.

Inductive stage : Type := Stage1 | Stage2 | Stage3.

(** The lines the script prints. *)
Inductive line : Type :=
| LoadedConfig (cfg_path : string)
| RunningStage1
| RunningStage2
| RunningStage3 (middle_idx : Z)
| CompletedAll
| CompletedStage1
| CompletedStage2 (middle_idx : Z)
| CompletedStage3.

Section Main.
(** The loaded [SessionConfig] and the displacement fields of
    stage 2 belong to the pipeline library. *)
Variables Config Displacements : Type.

(** The pipeline library: each call returns or raises. *)
Record pipeline : Type := mk_pipeline {
  from_file : string -> result Config;
  run_stage1 : Config -> result unit;
  run_stage2 : Config -> result (Z * Displacements);
  run_stage3 : Config -> Z -> Displacements -> result unit
}.

Inductive event : Type :=
| Print (l : line)
| Call1 (config : Config)
| Call2 (config : Config)
| Call3 (config : Config) (middle_idx : Z) (displacements : Displacements).

(** A run: what happened so far, and how it ended. *)
Definition run (A : Type) : Type := list event * result A.

Definition ret {A} (a : A) : run A := ([], Ok a).

Definition bind {A B} (m : run A) (k : A -> run B) : run B :=
  match m with
  | (tr, Ok a) => let '(tr', r) := k a in (tr ++ tr', r)
  | (tr, Raise e) => (tr, Raise e)
  end.

Definition emit (e : event) : run unit := ([e], Ok tt).

Definition call {A} (e : event) (r : result A) : run A := ([e], r).

Definition raise {A} (e : pyexc) : run A := ([], Raise e).

Definition lift {A} (r : result A) : run A := ([], r).

Local Notation "x <- m ;; k" := (bind m (fun x => k))
  (at level 61, m at next level, right associativity).
Local Notation "m ;;; k" := (bind m (fun _ => k))
  (at level 61, right associativity).

(** [sys.argv[i]] *)
Definition argv_at (argv : list string) (i : nat) : result string :=
  match nth_error argv i with
  | Some a => Ok a
  | None => Raise IndexError
  end.

Variable lib : pipeline.

Definition main (argv : list string) : run unit :=
  cfg_path <- lift (argv_at argv 1) ;;
  mode <- lift (argv_at argv 2) ;;
  config <- lift (from_file lib cfg_path) ;;
  emit (Print (LoadedConfig cfg_path)) ;;;
  if String.eqb mode "all" then
    emit (Print RunningStage1) ;;;
    call (Call1 config) (run_stage1 lib config) ;;;
    emit (Print RunningStage2) ;;;
    r2 <- call (Call2 config) (run_stage2 lib config) ;;
    emit (Print (RunningStage3 (fst r2))) ;;;
    call (Call3 config (fst r2) (snd r2))
         (run_stage3 lib config (fst r2) (snd r2)) ;;;
    emit (Print CompletedAll)
  else if String.eqb mode "stage1" then
    call (Call1 config) (run_stage1 lib config) ;;;
    emit (Print CompletedStage1)
  else if String.eqb mode "stage2" then
    r2 <- call (Call2 config) (run_stage2 lib config) ;;
    emit (Print (CompletedStage2 (fst r2)))
  else if String.eqb mode "stage3" then
    r2 <- call (Call2 config) (run_stage2 lib config) ;;
    call (Call3 config (fst r2) (snd r2))
         (run_stage3 lib config (fst r2) (snd r2)) ;;;
    emit (Print CompletedStage3)
  else raise ValueError.

(** The stages a run called, in order. *)
Fixpoint stages_called (tr : list event) : list stage :=
  match tr with
  | [] => []
  | Call1 _ :: tr' => Stage1 :: stages_called tr'
  | Call2 _ :: tr' => Stage2 :: stages_called tr'
  | Call3 _ _ _ :: tr' => Stage3 :: stages_called tr'
  | Print _ :: tr' => stages_called tr'
  end.

End Main.

Arguments mk_pipeline {Config Displacements}.
Arguments from_file {Config Displacements}.
Arguments run_stage1 {Config Displacements}.
Arguments run_stage2 {Config Displacements}.
Arguments run_stage3 {Config Displacements}.
Arguments Print {Config Displacements}.
Arguments Call1 {Config Displacements}.
Arguments Call2 {Config Displacements}.
Arguments Call3 {Config Displacements}.
Arguments main {Config Displacements}.
Arguments stages_called {Config Displacements}.

(** How CPython fills [sys.argv] from the arguments after the program:
    options are consumed, [-c] takes the command, and [sys.argv] is
    ["-c"] followed by the remaining arguments. *)
Fixpoint sys_argv (arguments : list string) : option (list string) :=
  match arguments with
  | [] => None
  | a :: rest =>
      if String.eqb a "-u" then sys_argv rest
      else if String.eqb a "-c" then
        match rest with
        | _command :: rest' => Some ("-c" :: rest')
        | [] => None
        end
      else None
  end.

(** A pipeline whose calls all return, for the examples. *)
Definition quiet_pipeline : pipeline unit unit :=
  mk_pipeline (fun _ => Ok tt) (fun _ => Ok tt)
    (fun _ => Ok (7%Z, tt)) (fun _ _ _ => Ok tt).

End Script.

(** ** local_runner.py: [LocalRunner] *)

Module Runner.

Inductive ProcessState : Type := NotRunning | Starting | Running.

Inductive ExitStatus : Type := NormalExit | CrashExit.

Record QProcess : Type := mk_process {
  program : string;
  arguments : list string;
  state : ProcessState
}.

(** [tempfile.TemporaryDirectory]: known by its [name]. *)
Record TemporaryDirectory : Type := mk_tmpdir { name : string }.

Record LocalRunner : Type := mk_runner {
  _process : option QProcess;
  _tmpdir : option TemporaryDirectory
}.

Inductive signal : Type :=
| log_emitted (text : string)
| run_started
| run_finished (exit_code : Z)
| run_failed (message : string).

(** What a method does to the world outside the runner object. *)
Inductive effect : Type :=
| TmpdirCreated (d : TemporaryDirectory)
| TmpdirCleaned (d : TemporaryDirectory)
| FileWritten (f : yaml_file)
| ProcessStarted (p : QProcess)
| ProcessKilled (p : QProcess)
| Emitted (s : signal).

(** What the operating system answers during one call of [start]. *)
Record environment : Type := mk_env {
  sys_executable : string;
  fresh_tmpdir : string;       (* the directory [tempfile] creates, *)
  create_tmpdir : result unit; (* unless creating it raises *)
  (* what [mkdir], [open] and [yaml.safe_dump] do with the file
     [serialize_config_to_yaml] computed: return, or raise (a value the
     dumper does not represent, a directory that cannot be written) *)
  write_yaml : yaml_file -> result unit;
  wait_for_started : bool      (* [process.waitForStarted(5000)] *)
}.

(** A method: from the runner object to the outcome, the runner object
    afterwards and the effects in order. *)
Definition method (A : Type) : Type :=
  LocalRunner -> result A * LocalRunner * list effect.

Definition ret {A} (a : A) : method A := fun self => (Ok a, self, []).

Definition bind {A B} (m : method A) (k : A -> method B) : method B :=
  fun self =>
    match m self with
    | (Ok a, self', effs) =>
        let '(r, self'', effs') := k a self' in (r, self'', effs ++ effs')
    | (Raise e, self', effs) => (Raise e, self', effs)
    end.

Definition get : method LocalRunner := fun self => (Ok self, self, []).

Definition put (self' : LocalRunner) : method unit :=
  fun _ => (Ok tt, self', []).

Definition perform (e : effect) : method unit :=
  fun self => (Ok tt, self, [e]).

Definition raise {A} (e : pyexc) : method A :=
  fun self => (Raise e, self, []).

Definition lift {A} (r : result A) : method A :=
  fun self => (r, self, []).

Local Notation "x <- m ;; k" := (bind m (fun x => k))
  (at level 61, m at next level, right associativity).
Local Notation "m ;;; k" := (bind m (fun _ => k))
  (at level 61, right associativity).

Definition is_running (self : LocalRunner) : bool :=
  match _process self with
  | Some p => match state p with NotRunning => false | _ => true end
  | None => false
  end.

Definition terminate : method unit :=
  self <- get ;;
  match _process self with
  | Some p => perform (ProcessKilled p)
  | None => ret tt
  end.

Definition _cleanup : method unit :=
  self <- get ;;
  match _tmpdir self with
  | Some d => perform (TmpdirCleaned d)
  | None => ret tt
  end ;;;
  put (mk_runner None None).

Definition set_state (s : ProcessState) (p : QProcess) : QProcess :=
  mk_process (program p) (arguments p) s.

Definition start (env : environment) (config : model) (mode : string)
    : method unit :=
  self <- get ;;
  if is_running self then raise RuntimeError
  else
    lift (create_tmpdir env) ;;;
    let tmpdir := mk_tmpdir (fresh_tmpdir env) in
    perform (TmpdirCreated tmpdir) ;;;
    put (mk_runner (_process self) (Some tmpdir)) ;;;
    let config_path := PosixPath.div (name tmpdir) "session_config.yaml" in
    file <- lift (serialize_config_to_yaml config
                    (PosixPath.AsPath config_path) true) ;;
    lift (write_yaml env file) ;;;
    perform (FileWritten file) ;;;
    let process :=
      mk_process (sys_executable env)
        ["-u"; "-c"; RUNNER_SCRIPT; PosixPath.to_str config_path; mode]
        NotRunning in
    put (mk_runner (Some (set_state Starting process)) (Some tmpdir)) ;;;
    perform (ProcessStarted process) ;;;
    if wait_for_started env then
      put (mk_runner (Some (set_state Running process)) (Some tmpdir)) ;;;
      perform (Emitted run_started)
    else
      _cleanup ;;;
      raise RuntimeError.

(** The text of [f"Local run failed with exit code {exit_code}."] *)
Definition failure_message (exit_code : Z) : string :=
  "Local run failed with exit code " ++ PyStr.of_Z exit_code ++ ".".

Definition _on_finished (exit_code : Z) (_exit_status : ExitStatus)
    : method unit :=
  (if negb (Z.eqb exit_code 0)
   then perform (Emitted (run_failed (failure_message exit_code)))
   else ret tt) ;;;
  perform (Emitted (run_finished exit_code)) ;;;
  _cleanup.

Definition outcome {A} (x : result A * LocalRunner * list effect)
    : result A := fst (fst x).

Definition after {A} (x : result A * LocalRunner * list effect)
    : LocalRunner := snd (fst x).

Definition effects {A} (x : result A * LocalRunner * list effect)
    : list effect := snd x.

(** The signals among the effects, in order. *)
Fixpoint signals (effs : list effect) : list signal :=
  match effs with
  | [] => []
  | Emitted s :: rest => s :: signals rest
  | _ :: rest => signals rest
  end.

(** The processes started among the effects, in order. *)
Fixpoint started (effs : list effect) : list QProcess :=
  match effs with
  | [] => []
  | ProcessStarted p :: rest => p :: started rest
  | _ :: rest => started rest
  end.

Definition is_run_failed (s : signal) : bool :=
  match s with run_failed _ => true | _ => false end.

(** Where [start] writes the configuration. *)
Definition config_path_of (env : environment) : PosixPath.t :=
  PosixPath.div (fresh_tmpdir env) "session_config.yaml".

(** A runner that supervises nothing. *)
Definition idle : LocalRunner := mk_runner None None.

(** A runner whose worker is running. *)
Definition busy : LocalRunner :=
  mk_runner
    (Some (mk_process "/usr/bin/python3"
             ["-u"; "-c"; RUNNER_SCRIPT; "/tmp/w0/session_config.yaml"; "all"]
             Running))
    (Some (mk_tmpdir "/tmp/w0")).

Definition example_env : environment :=
  mk_env "/usr/bin/python3" "/tmp/pyflowreg_session_gui_k3" (Ok tt)
    (fun _ => Ok tt) true.

(** An environment in which the file cannot be written. *)
Definition unwritable_env : environment :=
  mk_env "/usr/bin/python3" "/tmp/pyflowreg_session_gui_k3" (Ok tt)
    (fun _ => Raise OSError) true.

(** The steps of [start] before the process: the file written, when the
    directory could be created and the data computed and written, or
    what the first of these steps that raises raised. *)
Definition written_config (env : environment) (config : model)
    : result yaml_file :=
  rbind (create_tmpdir env) (fun _ =>
  rbind (serialize_config_to_yaml config
           (PosixPath.AsPath (config_path_of env)) true) (fun file =>
  rbind (write_yaml env file) (fun _ => Ok file))).

(** An object [model_to_dict] does not support: no [model_dump], no
    [dict], no [__dict__]. *)
Definition unsupported_config : model := mk_model None None None.

End Runner.

(** ** config_form.py *)

Module Form.

(** *** What Python and Qt supply *)

(** The library calls the form relies on.  [json_loads] gives [None]
    for a [JSONDecodeError]; floats are handled by their 64 bits. *)
Record runtime : Type := mk_runtime {
  json_loads : string -> option pyval;        (* [json.loads(text)] *)
  json_dumps : pyval -> result string;        (* [json.dumps(v, indent=2)] *)
  repr : pyval -> string;                     (* [str(v)] of other objects *)
  int_of_str : string -> result Z;            (* [int(text)] *)
  int_of_float : Z -> result Z;               (* [int(x)] for a float *)
  float_of : pyval -> result Z;               (* [float(v)] *)
  spin_round : Z -> Z   (* [QDoubleSpinBox]: 6 decimals, within the range *)
}.

(** [str(value)] *)
Definition py_str (rt : runtime) (v : pyval) : string :=
  match v with
  | VNone => "None"
  | VBool true => "True"
  | VBool false => "False"
  | VInt z => PyStr.of_Z z
  | VStr s => s
  | VPath p => PosixPath.to_str p
  | _ => repr rt v
  end.

Definition nonempty {A} (l : list A) : bool :=
  match l with [] => false | _ => true end.

(** [bool(value)]; an object of another class is taken to be true. *)
Definition py_bool (v : pyval) : bool :=
  match v with
  | VNone => false
  | VBool b => b
  | VInt z => negb (Z.eqb z 0)
  | VFloat bits => negb (Z.eqb bits 0 || Z.eqb bits (2 ^ 63))
  | VStr s => negb (String.eqb s "")
  | VPath _ => true
  | VList l => nonempty l
  | VTuple l => nonempty l
  | VDict d => nonempty d
  | VObj _ _ => true
  end.

(** [int(value)]; an object of another class is taken to have no
    [__int__]. *)
Definition py_int (rt : runtime) (v : pyval) : result Z :=
  match v with
  | VInt z => Ok z
  | VBool b => Ok (if b then 1 else 0)%Z
  | VStr s => int_of_str rt s
  | VFloat bits => int_of_float rt bits
  | _ => Raise TypeError
  end.

(** [item == value] for the data of a combo box item: an option of a
    [Literal] or a member of an [Enum].  A [bool] equals the [int] of the
    same value; members of an [Enum] are equal when they are the same
    member; floats are compared by their bits. *)
Definition item_eq (item value : pyval) : bool :=
  match item, value with
  | VNone, VNone => true
  | VBool a, VBool b => Bool.eqb a b
  | VBool a, VInt z => Z.eqb (if a then 1 else 0) z
  | VInt z, VBool a => Z.eqb z (if a then 1 else 0)
  | VInt a, VInt b => Z.eqb a b
  | VFloat a, VFloat b => Z.eqb a b
  | VStr a, VStr b => String.eqb a b
  | VObj c n, VObj c' n' => String.eqb c c' && String.eqb n n'
  | _, _ => false
  end.

Definition is_dict (v : pyval) : bool :=
  match v with VDict _ => true | _ => false end.

(** [QString.left(n)]: the first [n] characters, all of them when the
    string is shorter. *)
Fixpoint left (n : Z) (s : string) : string :=
  match s with
  | EmptyString => ""
  | String c r => if (0 <? n)%Z then String c (left (n - 1) r) else ""
  end.

(** [QLineEdit.maxLength()], which the form leaves at its default. *)
Definition LINE_MAX : Z := 32767.

(** The text of a [QLineEdit]: [setText] keeps the first [maxLength()]
    characters, so that [text()] never holds more. *)
Definition line_text (s : string) : string := left LINE_MAX s.

(** *** Annotations *)

Inductive annotation : Type :=
| TBool
| TInt
| TFloat
| TStr
| TPath
| TDict
| TNoneType
| TLiteral (options : list pyval)
| TEnum (cls : string) (members : list string)
| TUnion (args : list annotation)
| TOther (name : string).   (* [list[int]], [Any], a model class, ... *)

(** [a is b] for the classes the form tests. *)
Definition annotation_is (a b : annotation) : bool :=
  match a, b with
  | TBool, TBool | TInt, TInt | TFloat, TFloat | TStr, TStr
  | TPath, TPath | TDict, TDict | TNoneType, TNoneType => true
  | _, _ => false
  end.

Definition not_none_type (a : annotation) : bool :=
  negb (annotation_is a TNoneType).

Definition _unwrap_optional (a : annotation) : annotation * bool :=
  match a with
  | TUnion args =>
      match filter not_none_type args with
      | [arg] => (arg, true)
      | _ => (a, false)
      end
  | _ => (a, false)
  end.

(** The recursion of [_annotation_has_type], bounded by [fuel]. *)
Fixpoint has_type_upto (fuel : nat) (a target : annotation) : bool :=
  match fuel with
  | O => false
  | S fuel' =>
      let base := fst (_unwrap_optional a) in
      if annotation_is base target then true
      else match base with
           | TUnion args =>
               existsb (fun arg => has_type_upto fuel' arg target) args
           | _ => false
           end
  end.

(** The nesting depth of unions. *)
Fixpoint depth (a : annotation) : nat :=
  match a with
  | TUnion args => S (fold_right (fun x n => Nat.max (depth x) n) 0 args)
  | _ => 1
  end.

Definition _annotation_has_type (a target : annotation) : bool :=
  has_type_upto (depth a) a target.

(** *** Editors *)

Inductive flow_mode : Type := Inline | FilePath.

(** An editor with its binding: the constants its closures captured and
    the state of its widget. *)
Inductive editor : Type :=
| FlowOptionsEditor (mode : flow_mode) (inline_text file_text : string)
| PathPicker (pick_directory optional : bool) (text : string)
| CheckBox (checked : bool)
| SpinBox (value : Z)
| DoubleSpinBox (bits : Z)
| ComboBox (items : list pyval) (current_index : Z)
| JsonEdit (optional : bool) (text : string)
| TextLine (optional : bool) (text : string)
| FallbackLine (text : string).

Definition SPIN_MIN : Z := -1000000000.
Definition SPIN_MAX : Z := 1000000000.

(** [QSpinBox.setValue]: the argument must fit a C [int]; the value is
    bound to the range. *)
Definition spin_set_value (v : Z) : result Z :=
  if ((- 2 ^ 31 <=? v) && (v <=? 2 ^ 31 - 1))%Z
  then Ok (Z.max SPIN_MIN (Z.min SPIN_MAX v))
  else Raise OverflowError.

(** The first index whose item data equals [value]. *)
Fixpoint find_index (items : list pyval) (value : pyval) (index : Z)
    : option Z :=
  match items with
  | [] => None
  | item :: rest =>
      if item_eq item value then Some index
      else find_index rest value (index + 1)
  end.

(** [QComboBox.currentData()]: [None] without a current item. *)
Definition current_data (items : list pyval) (index : Z) : pyval :=
  if (index <? 0)%Z then VNone
  else nth (Z.to_nat index) items VNone.

(** The getter, the setter and the resetter of a binding. *)

Definition parse_object (rt : runtime) (text : string) : result pyval :=
  match json_loads rt text with
  | None => Raise ValueError
  | Some parsed => if is_dict parsed then Ok parsed else Raise ValueError
  end.

Definition optional_text (optional : bool) (text : string) : pyval :=
  if optional && String.eqb text "" then VNone else VStr text.

Definition getter (rt : runtime) (e : editor) : result pyval :=
  match e with
  | FlowOptionsEditor Inline inline_text _ =>
      let text := PyStr.strip inline_text in
      if String.eqb text "" then Ok (VDict [])
      else parse_object rt text
  | FlowOptionsEditor FilePath _ file_text =>
      Ok (VStr (PyStr.strip (line_text file_text)))
  | PathPicker _ optional text =>
      Ok (optional_text optional (PyStr.strip (line_text text)))
  | CheckBox checked => Ok (VBool checked)
  | SpinBox value => Ok (VInt value)
  | DoubleSpinBox bits => Ok (VFloat bits)
  | ComboBox items index => Ok (current_data items index)
  | JsonEdit optional editor_text =>
      let text := PyStr.strip editor_text in
      if String.eqb text "" then Ok (if negb optional then VDict [] else VNone)
      else parse_object rt text
  | TextLine optional text =>
      Ok (optional_text optional (PyStr.strip (line_text text)))
  | FallbackLine text => Ok (VStr (PyStr.strip (line_text text)))
  end.

Definition text_of (rt : runtime) (value : pyval) : string :=
  match value with
  | VNone => ""
  | _ => py_str rt value
  end.

(** The editor after the call, and how the call ended. *)
Definition setter (rt : runtime) (e : editor) (value : pyval)
    : editor * result unit :=
  match e with
  | FlowOptionsEditor mode inline_text file_text =>
      match value with
      | VDict _ =>
          match json_dumps rt value with
          | Ok text => (FlowOptionsEditor Inline text file_text, Ok tt)
          | Raise ex => (FlowOptionsEditor Inline inline_text file_text, Raise ex)
          end
      | VNone => (FlowOptionsEditor Inline "{}" file_text, Ok tt)
      | _ =>
          (FlowOptionsEditor FilePath inline_text
             (line_text (py_str rt value)), Ok tt)
      end
  | PathPicker pick optional _ =>
      (PathPicker pick optional (line_text (text_of rt value)), Ok tt)
  | CheckBox _ => (CheckBox (py_bool value), Ok tt)
  | SpinBox old =>
      match rbind (py_int rt value) spin_set_value with
      | Ok v => (SpinBox v, Ok tt)
      | Raise ex => (SpinBox old, Raise ex)
      end
  | DoubleSpinBox old =>
      match float_of rt value with
      | Ok bits => (DoubleSpinBox (spin_round rt bits), Ok tt)
      | Raise ex => (DoubleSpinBox old, Raise ex)
      end
  | ComboBox items index =>
      match find_index items value 0 with
      | Some found => (ComboBox items found, Ok tt)
      | None => (ComboBox items index, Ok tt)
      end
  | JsonEdit optional old =>
      match value with
      | VNone => (JsonEdit optional "", Ok tt)
      | _ =>
          match json_dumps rt value with
          | Ok text => (JsonEdit optional text, Ok tt)
          | Raise ex => (JsonEdit optional old, Raise ex)
          end
      end
  | TextLine optional _ =>
      (TextLine optional (line_text (text_of rt value)), Ok tt)
  | FallbackLine _ => (FallbackLine (line_text (text_of rt value)), Ok tt)
  end.

Definition resetter (e : editor) : editor :=
  match e with
  | FlowOptionsEditor _ _ _ => FlowOptionsEditor Inline "{}" ""
  | PathPicker pick optional _ => PathPicker pick optional ""
  | CheckBox _ => CheckBox false
  | SpinBox _ => SpinBox 0
  | DoubleSpinBox _ => DoubleSpinBox 0
  | ComboBox items index =>
      ComboBox items (if nonempty items then 0%Z else index)
  | JsonEdit optional _ => JsonEdit optional (if negb optional then "{}" else "")
  | TextLine optional _ => TextLine optional ""
  | FallbackLine _ => FallbackLine ""
  end.

(** A default; [None] is [MISSING]. *)
Definition default_value : Type := option pyval.

(** [if default is not MISSING: binding.setter(default)] *)
Definition set_default (rt : runtime) (e : editor) (default : default_value)
    : result editor :=
  match default with
  | Some d =>
      match setter rt e d with
      | (e', Ok _) => Ok e'
      | (_, Raise ex) => Raise ex
      end
  | None => Ok e
  end.

(** The same, with [else: binding.resetter()]. *)
Definition set_default_or_reset (rt : runtime) (e : editor)
    (default : default_value) : result editor :=
  match default with
  | Some _ => set_default rt e default
  | None => Ok (resetter e)
  end.

Definition PATH_FIELD_NAMES : list string :=
  ["root"; "output_root"; "final_results"; "center"].

Definition mem (x : string) (l : list string) : bool :=
  existsb (String.eqb x) l.

(** A combo box filled by [addItem]: the first item becomes current. *)
Definition filled_combo (items : list pyval) : editor :=
  ComboBox items (if nonempty items then 0%Z else (-1)%Z).

Definition _create_editor (rt : runtime) (field_name : string)
    (a : annotation) (default : default_value) : result editor :=
  let '(base_annotation, optional) := _unwrap_optional a in
  if String.eqb field_name "flow_options" then
    set_default_or_reset rt (FlowOptionsEditor Inline "" "") default
  else if mem field_name PATH_FIELD_NAMES then
    set_default rt
      (PathPicker (negb (String.eqb field_name "center")) optional "")
      default
  else if annotation_is base_annotation TBool then
    set_default rt (CheckBox false) default
  else if annotation_is base_annotation TInt then
    set_default rt (SpinBox 0) default
  else if annotation_is base_annotation TFloat then
    set_default rt (DoubleSpinBox 0) default
  else
    match base_annotation with
    | TLiteral options =>
        set_default_or_reset rt (filled_combo options) default
    | TEnum cls members =>
        set_default_or_reset rt (filled_combo (map (VObj cls) members))
          default
    | _ =>
        if annotation_is base_annotation TDict
           || _annotation_has_type base_annotation TDict
        then set_default_or_reset rt (JsonEdit optional "") default
        else if annotation_is base_annotation TStr
                || annotation_is base_annotation TPath
                || _annotation_has_type base_annotation TPath
        then set_default rt (TextLine optional "") default
        else set_default rt (FallbackLine "") default
    end.

(** *** model_utils.py: the fields of a model class *)

Record ModelFieldSpec : Type := mk_field {
  name : string;
  field_annotation : annotation;
  default : default_value;
  required : bool
}.

(** A field as the model class holds it: what [_field_annotation],
    [_field_default] and [_field_required] read from it. *)
Record raw_field : Type := mk_raw {
  raw_annotation : annotation;
  raw_default : default_value;
  raw_required : bool
}.

(** A model class: its fields when it has [model_fields] or
    [__fields__], and what building an instance from a dict of values
    gives ([model_validate(values)], or the class called with the values
    as keyword arguments). *)
Record model_class : Type := mk_class {
  model_fields : option (list (string * raw_field));
  dunder_fields : option (list (string * raw_field));
  construct : entries -> result model
}.

Definition field_spec_of (f : string * raw_field) : ModelFieldSpec :=
  let '(field_name, field) := f in
  mk_field field_name (raw_annotation field)
    (if raw_required field then None else raw_default field)
    (raw_required field).

Definition iter_model_fields (cls : model_class)
    : result (list ModelFieldSpec) :=
  match model_fields cls with
  | Some raw => Ok (map field_spec_of raw)
  | None =>
      match dunder_fields cls with
      | Some raw => Ok (map field_spec_of raw)
      | None => Raise TypeError
      end
  end.

Definition build_model (cls : model_class) (values : entries)
    : result model := construct cls values.

(** *** [SessionConfigForm] *)

(** [self._bindings]: the editors by field name, in insertion order. *)
Definition bindings : Type := list (string * editor).

Fixpoint binding_get (field_name : string) (b : bindings) : option editor :=
  match b with
  | [] => None
  | (n, e) :: rest =>
      if String.eqb n field_name then Some e else binding_get field_name rest
  end.

Fixpoint binding_set (field_name : string) (e : editor) (b : bindings)
    : bindings :=
  match b with
  | [] => [(field_name, e)]
  | (n, old) :: rest =>
      if String.eqb n field_name then (n, e) :: rest
      else (n, old) :: binding_set field_name e rest
  end.

Record SessionConfigForm : Type := mk_form {
  _session_config_cls : model_class;
  _bindings : bindings
}.

(** The loop of [__init__]. *)
Fixpoint create_bindings (rt : runtime) (specs : list ModelFieldSpec)
    (b : bindings) : result bindings :=
  match specs with
  | [] => Ok b
  | spec :: rest =>
      rbind (_create_editor rt (name spec) (field_annotation spec)
               (default spec))
        (fun e => create_bindings rt rest (binding_set (name spec) e b))
  end.

Definition init (rt : runtime) (session_config_cls : model_class)
    : result SessionConfigForm :=
  rbind (iter_model_fields session_config_cls) (fun specs =>
  rbind (create_bindings rt specs []) (fun b =>
  Ok (mk_form session_config_cls b))).

(** The loop of [get_form_data]. *)
Fixpoint get_data (rt : runtime) (b : bindings) (data : entries)
    : result entries :=
  match b with
  | [] => Ok data
  | (field_name, e) :: rest =>
      rbind (getter rt e) (fun v =>
        get_data rt rest (dict_set field_name v data))
  end.

Definition get_form_data (rt : runtime) (form : SessionConfigForm)
    : result entries := get_data rt (_bindings form) [].

(** [self._bindings.get(name)] for a key of the dict of values. *)
Definition binding_of_key (key : pyval) (b : bindings)
    : option (string * editor) :=
  match key with
  | VStr field_name =>
      match binding_get field_name b with
      | Some e => Some (field_name, e)
      | None => None
      end
  | _ => None
  end.

(** The loop of [set_form_data]: the bindings afterwards and how the call
    ended. *)
Fixpoint set_data (rt : runtime) (values : entries) (b : bindings)
    : bindings * result unit :=
  match values with
  | [] => (b, Ok tt)
  | (key, value) :: rest =>
      match binding_of_key key b with
      | None => set_data rt rest b
      | Some (field_name, e) =>
          match setter rt e value with
          | (e', Ok _) => set_data rt rest (binding_set field_name e' b)
          | (e', Raise ex) => (binding_set field_name e' b, Raise ex)
          end
      end
  end.

Definition set_form_data (rt : runtime) (values : entries)
    (form : SessionConfigForm) : SessionConfigForm * result unit :=
  let '(b, r) := set_data rt values (_bindings form) in
  (mk_form (_session_config_cls form) b, r).

Definition set_from_config (rt : runtime) (config : model)
    (form : SessionConfigForm) : SessionConfigForm * result unit :=
  match model_to_dict config with
  | Ok values => set_form_data rt values form
  | Raise ex => (form, Raise ex)
  end.

Definition to_session_config (rt : runtime) (form : SessionConfigForm)
    : result model :=
  rbind (get_form_data rt form) (build_model (_session_config_cls form)).

(** *** Vocabulary of the form's properties *)

(** [a] is [target] or a union that contains it at some depth. *)
Fixpoint mentions (target a : annotation) : bool :=
  annotation_is a target
  || match a with
     | TUnion args => existsb (mentions target) args
     | _ => false
     end.

(** The names [_create_editor] treats by name. *)
Definition NAMED_FIELDS : list string := "flow_options" :: PATH_FIELD_NAMES.

(** The categories of the specification; the last one is the plain line
    edit every other annotation gets (a nested object included). *)
Inductive category : Type :=
| CBool | CInt | CFloat | CChoice | CJson | CText | CPlain
| CFlowOptions | CPathPicker.


Definition category_of_editor (e : editor) : category :=
  match e with
  | FlowOptionsEditor _ _ _ => CFlowOptions
  | PathPicker _ _ _ => CPathPicker
  | CheckBox _ => CBool
  | SpinBox _ => CInt
  | DoubleSpinBox _ => CFloat
  | ComboBox _ _ => CChoice
  | JsonEdit _ _ => CJson
  | TextLine _ _ => CText
  | FallbackLine _ => CPlain
  end.

(** The constants of an editor, its state set aside. *)
Definition static (e : editor) : editor :=
  match e with
  | FlowOptionsEditor _ _ _ => FlowOptionsEditor Inline "" ""
  | PathPicker pick optional _ => PathPicker pick optional ""
  | CheckBox _ => CheckBox false
  | SpinBox _ => SpinBox 0
  | DoubleSpinBox _ => DoubleSpinBox 0
  | ComboBox items _ => ComboBox items 0
  | JsonEdit optional _ => JsonEdit optional ""
  | TextLine optional _ => TextLine optional ""
  | FallbackLine _ => FallbackLine ""
  end.

(** A dict that [json.dumps] and [json.loads] carry through the text of
    an editor. *)
Definition json_faithful (rt : runtime) (v : pyval) : Prop :=
  exists obj text,
    v = VDict obj /\ json_dumps rt v = Ok text /\
    PyStr.strip text <> "" /\ json_loads rt (PyStr.strip text) = Some v.

(** A text the line edits give back: no white space around it, no
    longer than a line edit holds, and not empty where the empty text
    stands for [None]. *)
Definition plain_string (optional : bool) (s : string) : Prop :=
  PyStr.strip s = s /\ (Z.of_nat (String.length s) <= LINE_MAX)%Z /\
  (optional = true -> s <> "").

Definition plain_text (optional : bool) (v : pyval) : Prop :=
  exists s, v = VStr s /\ plain_string optional s.

(** A [Path] whose string is such a text. *)
Definition plain_path (optional : bool) (v : pyval) : Prop :=
  exists p, v = VPath p /\ plain_string optional (PosixPath.to_str p).

(** What the form gives back for a value it keeps: a [Path] comes back
    as its string, every other value as it is. *)
Definition form_value (v : pyval) : pyval :=
  match v with
  | VPath p => VStr (PosixPath.to_str p)
  | _ => v
  end.

(** Items that [item_eq] compares as Python does: [None], bools, ints
    and strings among themselves, or the members of one [Enum] class
    among themselves. *)
Definition plain_item (v : pyval) : bool :=
  match v with
  | VNone | VBool _ | VInt _ | VStr _ => true
  | _ => false
  end.

Definition member_of (cls : string) (v : pyval) : bool :=
  match v with
  | VObj c _ => String.eqb c cls
  | _ => false
  end.

Definition comparable (items : list pyval) : Prop :=
  forallb plain_item items = true \/
  exists cls, forallb (member_of cls) items = true.

(** The values an editor keeps: a [bool] for a check box; an [int]
    within the range for a spin box; a float the double spin box does
    not round; for a combo box of comparable items a value whose first
    equal item is the value itself; for line edits and path pickers a
    plain text or a [Path] whose string is one, or [None] when the field
    is optional; for the JSON editor a faithful dict, or [None] when the
    field is optional; for the flow-options editor a faithful dict, a
    plain text or such a [Path]. *)
Definition canonical (rt : runtime) (e : editor) (v : pyval) : Prop :=
  match e with
  | CheckBox _ => exists b, v = VBool b
  | SpinBox _ => exists z, v = VInt z /\ (SPIN_MIN <= z <= SPIN_MAX)%Z
  | DoubleSpinBox _ =>
      exists bits,
        v = VFloat bits /\ float_of rt v = Ok bits /\
        spin_round rt bits = bits
  | ComboBox items _ =>
      comparable items /\
      find (fun item => item_eq item v) items = Some v
  | PathPicker _ optional _ =>
      plain_text optional v \/ plain_path optional v \/
      (v = VNone /\ optional = true)
  | TextLine optional _ =>
      plain_text optional v \/ plain_path optional v \/
      (v = VNone /\ optional = true)
  | FallbackLine _ => plain_text false v \/ plain_path false v
  | JsonEdit optional _ =>
      json_faithful rt v \/ (v = VNone /\ optional = true)
  | FlowOptionsEditor _ _ _ =>
      json_faithful rt v \/ plain_text false v \/ plain_path false v
  end.

(** The entries [get_form_data] builds when the getter of each field
    [n] returns [f n]. *)
Definition read_entries (f : string -> pyval) (b : bindings) : entries :=
  map (fun ne => (VStr (fst ne), f (fst ne))) b.

(** A model class with a required string, a flag and an optional
    count, built from the values as they are. *)
Definition example_class : model_class :=
  mk_class
    (Some [ ("pattern", mk_raw TStr None true);
            ("resume", mk_raw TBool (Some (VBool false)) false);
            ("n_jobs", mk_raw (TUnion [TInt; TNoneType]) (Some (VInt 1))
                         false) ])
    None
    (fun values => Ok (mk_model (Some values) None None)).

(** An instance whose [pattern] starts with a space. *)
Definition padded_config : model :=
  mk_model
    (Some [ (VStr "pattern", VStr " *.tif");
            (VStr "resume", VBool true);
            (VStr "n_jobs", VInt 4) ])
    None None.

(** An instance the form gives back as it is. *)
Definition plain_config : model :=
  mk_model
    (Some [ (VStr "pattern", VStr "*.tif");
            (VStr "resume", VBool true);
            (VStr "n_jobs", VInt 4) ])
    None None.

(** The form of [example_class] as [__init__] leaves it. *)
Definition example_bindings : bindings :=
  [ ("pattern", TextLine false "");
    ("resume", CheckBox false);
    ("n_jobs", SpinBox 1) ].

(** A model class with a required [Path], a required string and a
    flag. *)
Definition rooted_class : model_class :=
  mk_class
    (Some [ ("root", mk_raw TPath None true);
            ("pattern", mk_raw TStr None true);
            ("resume", mk_raw TBool (Some (VBool false)) false) ])
    None
    (fun values => Ok (mk_model (Some values) None None)).

(** An instance whose [root] is a [Path] and whose [pattern] starts with
    a space. *)
Definition rooted_config : model :=
  mk_model
    (Some [ (VStr "root", VPath (PosixPath.parse "/data/session"));
            (VStr "pattern", VStr " *.tif");
            (VStr "resume", VBool true) ])
    None None.

(** The form of [rooted_class] as [__init__] leaves it. *)
Definition rooted_bindings : bindings :=
  [ ("root", PathPicker true false "");
    ("pattern", TextLine false "");
    ("resume", CheckBox false) ].

(** A runtime for the examples: its JSON knows the texts of the empty
    object and of the empty array only, and its floats are left as they
    are. *)
Definition tiny_runtime : runtime :=
  mk_runtime
    (fun text => if String.eqb text "{}" then Some (VDict [])
                 else if String.eqb text "[]" then Some (VList [])
                 else None)
    (fun v => match v with
              | VDict [] => Ok "{}"
              | VList [] => Ok "[]"
              | _ => Raise TypeError
              end)
    (fun _ => "<object>")
    (fun _ => Raise ValueError)
    (fun _ => Raise ValueError)
    (fun v => match v with VFloat bits => Ok bits | _ => Raise TypeError end)
    (fun bits => bits).

End Form.

(** ** Further vocabulary: the serializer *)

(** The root path [_maybe_relative] can use: present and absolute. *)
Definition usable_root (root_path : option PosixPath.t) : bool :=
  match root_path with
  | Some r => PosixPath.is_absolute r
  | None => false
  end.

(** A plain object whose [__dict__] is [d]: what re-reading written data
    into an object gives. *)
Definition model_of_data (d : entries) : model := mk_model None None (Some d).

(** Every value of the dict is free of [Path] and tuple. *)
Definition all_clean (d : entries) : Prop :=
  Forall (fun kv => clean (snd kv) = true) d.

(** ** local_runner.py: the output of the worker *)

Module RunnerLog.
Import Runner.

Definition newline : ascii := ascii_of_nat 10.

(** [data.rstrip("\n")] *)
Fixpoint rstrip_newlines (s : string) : string :=
  match s with
  | EmptyString => ""
  | String c r =>
      match rstrip_newlines r with
      | EmptyString => if Ascii.eqb c newline then "" else String c ""
      | r' => String c r'
      end
  end.

(** A run of [n] newlines. *)
Fixpoint newlines (n : nat) : string :=
  match n with
  | O => ""
  | S n' => String newline (newlines n')
  end.

Fixpoint ends_with_newline (s : string) : bool :=
  match s with
  | EmptyString => false
  | String c EmptyString => Ascii.eqb c newline
  | String _ r => ends_with_newline r
  end.

(** [_on_stdout]; [data] is what [readAllStandardOutput] returns, decoded. *)
Definition _on_stdout (data : string) : method unit :=
  bind get (fun self =>
    match _process self with
    | None => ret tt
    | Some _ =>
        if String.eqb data "" then ret tt
        else perform (Emitted (log_emitted (rstrip_newlines data)))
    end).

(** [_on_stderr]; [data] is what [readAllStandardError] returns, decoded. *)
Definition _on_stderr (data : string) : method unit :=
  bind get (fun self =>
    match _process self with
    | None => ret tt
    | Some _ =>
        if String.eqb data "" then ret tt
        else perform (Emitted (log_emitted ("[stderr] " ++ PyStr.rstrip data)))
    end).

End RunnerLog.

(** ** local_runner.py: the plan of the runner script *)

(** The stages a mode asks for; none for a mode the script does not know. *)
Definition planned_stages (mode : string) : list Script.stage :=
  if String.eqb mode "all" then [Script.Stage1; Script.Stage2; Script.Stage3]
  else if String.eqb mode "stage1" then [Script.Stage1]
  else if String.eqb mode "stage2" then [Script.Stage2]
  else if String.eqb mode "stage3" then [Script.Stage2; Script.Stage3]
  else [].

(** A pipeline whose stage 2 raises. *)
Definition failing_stage2 : Script.pipeline unit unit :=
  Script.mk_pipeline (fun _ => Ok tt) (fun _ => Ok tt)
    (fun _ => Raise RuntimeError) (fun _ _ _ => Ok tt).

(** A pipeline that cannot load the configuration. *)
Definition failing_load : Script.pipeline unit unit :=
  Script.mk_pipeline (fun _ => Raise ValueError) (fun _ => Ok tt)
    (fun _ => Ok (7%Z, tt)) (fun _ _ _ => Ok tt).

(** An environment in which the worker does not come up. *)
Definition stalled_env : Runner.environment :=
  Runner.mk_env "/usr/bin/python3" "/tmp/pyflowreg_session_gui_q9" (Ok tt)
    (fun _ => Ok tt) false.

(** ** Further vocabulary: the form *)

Module FormMore.
Import Form.

(** The editors whose state stays within what the widget allows: the
    value of a spin box within its range, the index of a combo box on one
    of its items, or [-1] when it has none. *)
Definition in_bounds (e : editor) : Prop :=
  match e with
  | SpinBox value => (SPIN_MIN <= value <= SPIN_MAX)%Z
  | ComboBox items index =>
      (items = [] /\ index = (-1)%Z)
      \/ (0 <= index < Z.of_nat (length items))%Z
  | _ => True
  end.

(** What the getter of an editor in bounds can return. *)
Definition in_range (e : editor) (v : pyval) : Prop :=
  match e with
  | SpinBox _ => exists z, v = VInt z /\ (SPIN_MIN <= z <= SPIN_MAX)%Z
  | ComboBox items _ => In v items \/ (items = [] /\ v = VNone)
  | CheckBox _ => exists b, v = VBool b
  | _ => True
  end.

(** The editors that hold a text, the flow-options editor in file mode
    among them, and the check box: what their getter returns they take back
    unchanged. *)
Definition gives_back (e : editor) : bool :=
  match e with
  | PathPicker _ _ _ | TextLine _ _ | FallbackLine _ | CheckBox _ => true
  | FlowOptionsEditor FilePath _ _ => true
  | _ => false
  end.

(** Two lists of bindings with the same names in the same order and
    editors with the same constants. *)
Definition same_fields (b b' : bindings) : Prop :=
  Forall2 (fun x y => fst y = fst x /\ static (snd y) = static (snd x)) b b'.

(** No key of the dict names a field of the form. *)
Definition unbound (values : entries) (b : bindings) : Prop :=
  forall key value, In (key, value) values -> binding_of_key key b = None.

(** The fields of a class, as [iter_model_fields] reads them. *)
Definition raw_fields (cls : model_class) : option (list (string * raw_field)) :=
  match model_fields cls with
  | Some raw => Some raw
  | None => dunder_fields cls
  end.

(** [binding.default] of a field: the default of its [ModelFieldSpec],
    which [__init__] stores in the binding and nothing changes afterwards. *)
Fixpoint default_of (specs : list ModelFieldSpec) (field_name : string)
    : default_value :=
  match specs with
  | [] => None
  | spec :: rest =>
      if String.eqb (name spec) field_name then default spec
      else default_of rest field_name
  end.

(** The body of the loop of [reset_to_defaults]. *)
Definition apply_default (rt : runtime) (d : default_value) (e : editor)
    : editor * result unit :=
  match d with
  | None => (resetter e, Ok tt)
  | Some v => setter rt e v
  end.

(** The loop of [reset_to_defaults] over [self._bindings.values()]. *)
Fixpoint reset_bindings (rt : runtime) (defaults : string -> default_value)
    (b : bindings) : bindings * result unit :=
  match b with
  | [] => ([], Ok tt)
  | (field_name, e) :: rest =>
      match apply_default rt (defaults field_name) e with
      | (e', Ok _) =>
          let '(rest', r) := reset_bindings rt defaults rest in
          ((field_name, e') :: rest', r)
      | (e', Raise ex) => ((field_name, e') :: rest, Raise ex)
      end
  end.

Definition reset_to_defaults (rt : runtime) (specs : list ModelFieldSpec)
    (form : SessionConfigForm) : SessionConfigForm * result unit :=
  let '(b, r) := reset_bindings rt (default_of specs) (_bindings form) in
  (mk_form (_session_config_cls form) b, r).

(** A combo box can select its default: the default equals one of its
    items. *)
Definition default_selectable (e : editor) (d : default_value) : Prop :=
  match e, d with
  | ComboBox items _, Some v => find_index items v 0 <> None
  | _, _ => True
  end.

End FormMore.

(** Two lists of bindings with the same names in the same order whose
    getters return the same. *)
Definition same_values (rt : Form.runtime) (b b' : Form.bindings) : Prop :=
  Forall2 (fun x y => fst y = fst x /\
                      Form.getter rt (snd y) = Form.getter rt (snd x)) b b'.

(** A model class with a choice whose default is its second option. *)
Definition choice_class : Form.model_class :=
  Form.mk_class
    (Some [ ("quality",
             Form.mk_raw (Form.TLiteral [VStr "fast"; VStr "balanced"])
               (Some (VStr "balanced")) false);
            ("pattern", Form.mk_raw Form.TStr None true) ])
    None
    (fun values => Ok (mk_model (Some values) None None)).

(** * Properties *)

(** ** Strings and paths *)

Section PathFacts.
Import PyStr PosixPath.

Lemma eqb_ascii_true a b : eqb_ascii a b = true <-> a = b.
Proof. unfold eqb_ascii. apply Ascii.eqb_eq. Qed.

Lemma split_slash_not_nil s : split_slash s <> [].
Proof.
  destruct s as [|c r]; simpl; [discriminate|].
  destruct (eqb_ascii c slash); [discriminate|].
  destruct (split_slash r); discriminate.
Qed.

Lemma split_slash_no_slash s :
  Forall (fun p => no_slash p = true) (split_slash s).
Proof.
  induction s as [|c r IH]; simpl.
  - repeat constructor.
  - destruct (eqb_ascii c slash) eqn:E.
    + constructor; [reflexivity|exact IH].
    + destruct (split_slash r) as [|h t].
      * constructor; [simpl; now rewrite E|constructor].
      * inversion IH; subst. constructor; [simpl; rewrite E; simpl; assumption|assumption].
Qed.

Lemma no_slash_split p : no_slash p = true -> split_slash p = [p].
Proof.
  induction p as [|c r IH]; simpl; [reflexivity|].
  destruct (eqb_ascii c slash); simpl; [discriminate|].
  intros H. now rewrite (IH H).
Qed.

Lemma no_slash_split_app p s :
  no_slash p = true ->
  split_slash (p ++ String slash s)%string = p :: split_slash s.
Proof.
  induction p as [|c r IH]; simpl; intros H.
  - reflexivity.
  - destruct (eqb_ascii c slash); simpl in H; [discriminate|].
    now rewrite (IH H).
Qed.

Lemma split_join parts :
  parts <> [] -> Forall (fun p => no_slash p = true) parts ->
  split_slash (join_slash parts) = parts.
Proof.
  induction parts as [|p rest IH]; intros Hne HF; [congruence|].
  inversion HF as [|? ? Hp Hrest]; subst.
  destruct rest as [|q rest'].
  - simpl. now apply no_slash_split.
  - change (join_slash (p :: q :: rest'))
      with (p ++ String slash (join_slash (q :: rest')))%string.
    rewrite no_slash_split_app by assumption.
    f_equal. apply IH; [discriminate|assumption].
Qed.

Lemma splitroot_root s :
  negb (String.eqb (fst (splitroot s)) "") = starts_with_slash s.
Proof.
  destruct s as [|c1 r1]; simpl; [reflexivity|].
  destruct (eqb_ascii c1 slash); [|reflexivity].
  destruct r1 as [|c2 r2]; [reflexivity|].
  destruct (eqb_ascii c2 slash); [|reflexivity].
  destruct r2 as [|c3 r3]; [reflexivity|].
  destruct (eqb_ascii c3 slash); reflexivity.
Qed.

(** [Path(s).is_absolute()] holds exactly when [s] starts with a slash. *)
Lemma parse_is_absolute s : is_absolute (parse s) = starts_with_slash s.
Proof.
  unfold is_absolute, parse.
  destruct s as [|c r]; [reflexivity|].
  rewrite <- splitroot_root.
  destruct (splitroot (String c r)); reflexivity.
Qed.

Lemma parse_tail_wf s : Forall wf_part (tail (parse s)).
Proof.
  unfold parse. destruct s as [|c r]; [constructor|].
  destruct (splitroot (String c r)) as [rt rel]; simpl.
  apply Forall_forall. intros x Hx.
  apply filter_In in Hx. destruct Hx as [Hin Hk].
  split; [assumption|].
  pose proof (split_slash_no_slash rel) as HF.
  rewrite Forall_forall in HF. now apply HF.
Qed.

Lemma strip_prefix_spec pre l rest :
  strip_prefix pre l = Some rest <-> l = pre ++ rest.
Proof.
  revert l; induction pre as [|p pre IH]; intros l; simpl.
  - split; [now intros [= ->]|now intros ->].
  - destruct l as [|x l]; [split; discriminate|].
    destruct (String.eqb p x) eqn:E.
    + apply String.eqb_eq in E; subst. rewrite IH.
      split; [now intros ->|now intros [= ->]].
    + apply String.eqb_neq in E. split; [discriminate|].
      intros [= -> _]. congruence.
Qed.

Lemma wf_part_first p : wf_part p -> starts_with_slash p = false.
Proof.
  intros [Hk Hn]. destruct p as [|c r]; [reflexivity|].
  simpl in *. now destruct (eqb_ascii c slash).
Qed.

Lemma starts_with_slash_app p s :
  p <> "" -> starts_with_slash (p ++ s)%string = starts_with_slash p.
Proof. destruct p; [congruence|reflexivity]. Qed.

Lemma wf_part_nonempty p : wf_part p -> p <> "".
Proof. intros [Hk _] ->. discriminate. Qed.

Lemma join_slash_first p rest :
  wf_part p -> starts_with_slash (join_slash (p :: rest)) = false.
Proof.
  intros Hp. destruct rest as [|q rest].
  - simpl. now apply wf_part_first.
  - change (join_slash (p :: q :: rest))
      with (p ++ String slash (join_slash (q :: rest)))%string.
    rewrite starts_with_slash_app by now apply wf_part_nonempty.
    now apply wf_part_first.
Qed.

(** The string of a relative path never starts with a slash. *)
Lemma to_str_relative rest :
  Forall wf_part rest -> starts_with_slash (to_str (mk "" rest)) = false.
Proof.
  intros HF. unfold to_str; simpl.
  destruct rest as [|p rest]; [reflexivity|].
  inversion HF; subst. now apply join_slash_first.
Qed.

Lemma filter_keep_wf rest :
  Forall wf_part rest -> filter keep_part rest = rest.
Proof.
  induction 1 as [|p rest [Hk _] _ IH]; simpl; [reflexivity|].
  now rewrite Hk, IH.
Qed.

(** Parsing the string of a relative path gives that path back. *)
Lemma parse_to_str_relative rest :
  Forall wf_part rest -> parse (to_str (mk "" rest)) = mk "" rest.
Proof.
  intros HF. destruct rest as [|p rest]; [reflexivity|].
  unfold to_str; simpl root; simpl tail. cbv iota.
  change ("" ++ join_slash (p :: rest))%string with (join_slash (p :: rest)).
  assert (Hs : starts_with_slash (join_slash (p :: rest)) = false)
    by (inversion HF; subst; now apply join_slash_first).
  assert (Hsplit : split_slash (join_slash (p :: rest)) = p :: rest).
  { apply split_join; [discriminate|].
    eapply Forall_impl; [|exact HF]. now intros a [_ Ha]. }
  unfold parse.
  destruct (join_slash (p :: rest)) as [|c r] eqn:Ej.
  - simpl in Hsplit. injection Hsplit as <- <-.
    inversion HF as [|? ? [Hk _] _]. discriminate.
  - unfold splitroot. simpl in Hs. rewrite Hs.
    rewrite Hsplit. now rewrite filter_keep_wf.
Qed.

Lemma relative_to_spec self other rel :
  relative_to self other = Some rel <->
  root self = root other /\ root rel = "" /\
  tail self = tail other ++ tail rel.
Proof.
  unfold relative_to. destruct (String.eqb (root self) (root other)) eqn:E.
  - apply String.eqb_eq in E.
    destruct (strip_prefix (tail other) (tail self)) as [rest|] eqn:Es.
    + apply strip_prefix_spec in Es. split.
      * intros [= <-]. simpl. auto.
      * intros (_ & Hr & Ht). destruct rel as [rr rt]; simpl in *; subst.
        rewrite Es in Ht. apply app_inv_head in Ht. now subst.
    + split; [discriminate|]. intros (_ & _ & Ht).
      apply strip_prefix_spec in Ht. congruence.
  - apply String.eqb_neq in E. split; [discriminate|]. now intros [? _].
Qed.

End PathFacts.

(** ** Dictionaries *)

Section DictFacts.

Lemma key_is_other k k' key :
  k <> k' -> key_is k key = true -> key_is k' key = false.
Proof.
  destruct key; simpl; try discriminate.
  intros Hne He. apply String.eqb_eq in He. subst.
  now apply String.eqb_neq.
Qed.

Lemma dict_get_set_same k v d : dict_get k (dict_set k v d) = Some v.
Proof.
  induction d as [|[key old] rest IH]; simpl.
  - now rewrite String.eqb_refl.
  - destruct (key_is k key) eqn:E; simpl; now rewrite E.
Qed.

Lemma dict_get_set_other k k' v d :
  k <> k' -> dict_get k' (dict_set k v d) = dict_get k' d.
Proof.
  intros Hne. induction d as [|[key old] rest IH]; simpl.
  - apply String.eqb_neq in Hne. now rewrite Hne.
  - destruct (key_is k key) eqn:E; simpl.
    + now rewrite (key_is_other k k' key Hne E).
    + now rewrite IH.
Qed.

Lemma dict_set_get_id k v d : dict_get k d = Some v -> dict_set k v d = d.
Proof.
  induction d as [|[key old] rest IH]; simpl; [discriminate|].
  destruct (key_is k key); [now intros [= ->]|].
  intros H. now rewrite IH.
Qed.

Lemma dict_set_keys k v d :
  dict_mem k d = true -> dict_keys (dict_set k v d) = dict_keys d.
Proof.
  unfold dict_mem, dict_keys.
  induction d as [|[key old] rest IH]; simpl; [discriminate|].
  destruct (key_is k key); simpl; [reflexivity|].
  intros H. now rewrite IH.
Qed.

(** Assignments to two different keys that are both present commute. *)
Lemma dict_set_comm k1 k2 v1 v2 d :
  k1 <> k2 -> dict_mem k1 d = true -> dict_mem k2 d = true ->
  dict_set k1 v1 (dict_set k2 v2 d) = dict_set k2 v2 (dict_set k1 v1 d).
Proof.
  unfold dict_mem. intros Hne.
  induction d as [|[key old] rest IH]; simpl; [discriminate|].
  destruct (key_is k1 key) eqn:E1, (key_is k2 key) eqn:E2; simpl;
    rewrite ?E1, ?E2; intros H1 H2.
  - rewrite (key_is_other k1 k2 key Hne E1) in E2. discriminate.
  - reflexivity.
  - reflexivity.
  - now rewrite IH.
Qed.

End DictFacts.

(** ** serialization.py *)

Section SerializationFacts.
Import PosixPath.


(** What [_maybe_relative] returns: the value itself, or the string of a
    relative path cut from an absolute one. *)
Lemma maybe_relative_cases v rootp prefer :
  _maybe_relative v rootp prefer = v \/
  exists s r rel,
    prefer = true /\ rootp = Some r /\ v = VStr s /\
    is_absolute (parse s) = true /\ is_absolute r = true /\
    relative_to (parse s) r = Some rel /\
    _maybe_relative v rootp prefer = VStr (to_str rel).
Proof.
  destruct prefer; [|now left].
  destruct rootp as [r|]; [|now left].
  destruct v; try now left.
  simpl.
  destruct (is_absolute (parse s)) eqn:Ea; simpl; [|now left].
  destruct (is_absolute r) eqn:Er; simpl; [|now left].
  destruct (relative_to (parse s) r) as [rel|] eqn:Erel; [|now left].
  right. exists s, r, rel. repeat split; assumption.
Qed.

Lemma relative_to_wf s r rel :
  relative_to (parse s) r = Some rel ->
  root rel = "" /\ Forall wf_part (tail rel).
Proof.
  intros H. apply relative_to_spec in H. destruct H as (_ & Hr & Ht).
  split; [assumption|].
  pose proof (parse_tail_wf s) as HF. rewrite Ht in HF.
  apply Forall_app in HF. tauto.
Qed.

Lemma relative_str_not_absolute s r rel :
  relative_to (parse s) r = Some rel ->
  is_absolute (parse (to_str rel)) = false.
Proof.
  intros H. destruct (relative_to_wf s r rel H) as [Hr HF].
  destruct rel as [rr rt]; simpl in *; subst.
  rewrite parse_is_absolute. now apply to_str_relative.
Qed.

Lemma maybe_relative_non_str v rootp prefer :
  is_str v = false -> _maybe_relative v rootp prefer = v.
Proof.
  intros H. destruct prefer, rootp, v; try reflexivity; discriminate.
Qed.



Lemma rewrite_fields_get_other order rootp prefer f :
  ~ In f order ->
  forall d, dict_get f (rewrite_fields order rootp prefer d) = dict_get f d.
Proof.
  induction order as [|g order IH]; intros Hnin d; simpl; [reflexivity|].
  rewrite IH by (intros H; apply Hnin; now right).
  destruct (dict_get g d); [|reflexivity].
  apply dict_get_set_other. intros ->. apply Hnin. now left.
Qed.


Lemma rewrite_flow_options_get_other rootp prefer f d :
  f <> "flow_options" ->
  dict_get f (rewrite_flow_options rootp prefer d) = dict_get f d.
Proof.
  intros Hne. unfold rewrite_flow_options.
  destruct (dict_get "flow_options" d) as [v|]; [|reflexivity].
  destruct v; try reflexivity.
  apply dict_get_set_other. congruence.
Qed.

Lemma rewrite_flow_options_get rootp prefer d v :
  dict_get "flow_options" d = Some v ->
  dict_get "flow_options" (rewrite_flow_options rootp prefer d)
  = Some (_maybe_relative v rootp prefer).
Proof.
  intros H. unfold rewrite_flow_options. rewrite H.
  destruct v; try (rewrite maybe_relative_non_str by reflexivity; assumption).
  apply dict_get_set_same.
Qed.

Lemma relative_fields_nodup : NoDup RELATIVE_PATH_FIELDS.
Proof.
  unfold RELATIVE_PATH_FIELDS.
  repeat constructor; simpl; intuition discriminate.
Qed.

Lemma flow_options_not_relative : ~ In "flow_options" RELATIVE_PATH_FIELDS.
Proof. simpl. intuition discriminate. Qed.

Lemma serialize_unfold config path prefer dumped :
  model_to_dict config = Ok dumped ->
  serialize_config_to_yaml config path prefer
  = Ok (mk_yaml (of_like path)
          (VDict (rewrite_flow_options
                    (root_path_of (convert_entries dumped)) prefer
                    (rewrite_fields RELATIVE_PATH_FIELDS
                       (root_path_of (convert_entries dumped)) prefer
                       (convert_entries dumped))))).
Proof.
  intros H. unfold serialize_config_to_yaml, serialize_in_order.
  rewrite H. reflexivity.
Qed.


End SerializationFacts.

(** C9: [_maybe_relative] is idempotent: for every value, root path and
    [prefer_relative] flag, applying it a second time returns what the
    first application returned. *)
Theorem maybe_relative_idempotent :
  forall (v : pyval) (root_path : option PosixPath.t) (prefer_relative : bool),
    _maybe_relative (_maybe_relative v root_path prefer_relative)
      root_path prefer_relative
    = _maybe_relative v root_path prefer_relative.
Proof.
  intros v rootp prefer.
  destruct (maybe_relative_cases v rootp prefer)
    as [Hsame | (s & r & rel & Hp & Hr & Hv & Has & Har & Hrel & Hres)].
  - now rewrite Hsame.
  - rewrite Hres. subst. simpl.
    now rewrite (relative_str_not_absolute s r rel Hrel).
Qed.


Example serialize_example :
  serialize_config_to_yaml example_config example_path true
  = Ok (mk_yaml (PosixPath.mk "/" ["tmp"; "run"; "session_config.yaml"])
          (VDict [ (VStr "root", VStr "/data/session");
                   (VStr "pattern", VStr "*.tif");
                   (VStr "output_root", VStr "out");
                   (VStr "final_results", VStr "/data/session2/final");
                   (VStr "center", VStr ".");
                   (VStr "resume", VBool true);
                   (VStr "flow_options", VDict [(VStr "levels", VInt 3)]) ])).
Proof. reflexivity. Qed.

Example serialize_example_absolute :
  serialize_config_to_yaml example_config example_path false
  = Ok (mk_yaml (PosixPath.mk "/" ["tmp"; "run"; "session_config.yaml"])
          (VDict (convert_entries example_dump))).
Proof. reflexivity. Qed.


(** ** The frame of the serializer *)

Section FrameFacts.

Lemma pyval_nested_ind (P : pyval -> Prop) :
  P VNone -> (forall b, P (VBool b)) -> (forall z, P (VInt z)) ->
  (forall bits, P (VFloat bits)) -> (forall s, P (VStr s)) ->
  (forall p, P (VPath p)) ->
  (forall items, Forall P items -> P (VList items)) ->
  (forall items, Forall P items -> P (VTuple items)) ->
  (forall d, Forall (fun kv => P (snd kv)) d -> P (VDict d)) ->
  (forall cls name, P (VObj cls name)) ->
  forall v, P v.
Proof.
  intros HN HB HI HF HS HP HL HT HD HO.
  fix IH 1. intros v. destruct v.
  - exact HN.
  - apply HB.
  - apply HI.
  - apply HF.
  - apply HS.
  - apply HP.
  - apply HL. induction items as [|x l IHl]; constructor; [apply IH|exact IHl].
  - apply HT. induction items as [|x l IHl]; constructor; [apply IH|exact IHl].
  - apply HD. induction entries0 as [|[k x] l IHl]; constructor;
      [apply IH|exact IHl].
  - apply HO.
Qed.

(** After the conversion no [Path] and no tuple is left. *)
Lemma convert_clean v : clean (_convert_paths_to_strings v) = true.
Proof.
  induction v using pyval_nested_ind; simpl; try reflexivity.
  - rewrite forallb_forall. intros x Hx. apply in_map_iff in Hx.
    destruct Hx as (y & <- & Hy). rewrite Forall_forall in H. now apply H.
  - rewrite forallb_forall. intros x Hx. apply in_map_iff in Hx.
    destruct Hx as (y & <- & Hy). rewrite Forall_forall in H. now apply H.
  - rewrite forallb_forall. intros [k x] Hx. apply in_map_iff in Hx.
    destruct Hx as ([k' y] & [= <- <-] & Hy).
    rewrite Forall_forall in H. now apply (H (k', y)).
Qed.

(** A value without [Path] and tuple is returned as it is. *)
Lemma convert_id_on_clean v :
  clean v = true -> _convert_paths_to_strings v = v.
Proof.
  induction v using pyval_nested_ind; simpl; intros Hc;
    try reflexivity; try discriminate.
  - f_equal. rewrite forallb_forall in Hc.
    induction items as [|x l IHl]; [reflexivity|]. simpl.
    inversion H; subst. f_equal.
    + apply H2. apply Hc. now left.
    + apply IHl; [assumption|]. intros y Hy. apply Hc. now right.
  - f_equal. rewrite forallb_forall in Hc.
    induction d as [|[k x] l IHl]; [reflexivity|]. simpl.
    inversion H; subst. f_equal.
    + f_equal. apply H2. apply (Hc (k, x)). now left.
    + apply IHl; [assumption|]. intros y Hy. apply Hc. now right.
Qed.





Lemma key_is_true k key : key_is k key = true -> key = VStr k.
Proof.
  destruct key; simpl; try discriminate.
  intros H. apply String.eqb_eq in H. now subst.
Qed.








End FrameFacts.



(** ** The iteration order of the set [RELATIVE_PATH_FIELDS] *)

Section IterationOrder.

Lemma dict_mem_get k d v : dict_get k d = Some v -> dict_mem k d = true.
Proof. unfold dict_mem. now intros ->. Qed.

Lemma rewrite_fields_swap x y order rootp prefer d :
  rewrite_fields (x :: y :: order) rootp prefer d
  = rewrite_fields (y :: x :: order) rootp prefer d.
Proof.
  destruct (string_dec x y) as [->|Hne]; [reflexivity|].
  simpl. f_equal.
  destruct (dict_get x d) as [vx|] eqn:Hx, (dict_get y d) as [vy|] eqn:Hy.
  - rewrite (dict_get_set_other x y) by assumption.
    rewrite (dict_get_set_other y x) by congruence.
    rewrite ?Hx, ?Hy.
    apply dict_set_comm;
      [congruence|eapply dict_mem_get; eassumption
      |eapply dict_mem_get; eassumption].
  - rewrite (dict_get_set_other x y) by assumption. now rewrite ?Hx, ?Hy.
  - rewrite (dict_get_set_other y x) by congruence. now rewrite ?Hx, ?Hy.
  - now rewrite ?Hx, ?Hy.
Qed.

(** The loop gives the same dict in whatever order the set is iterated. *)
Lemma rewrite_fields_order order order' rootp prefer :
  Permutation order order' ->
  forall d, rewrite_fields order rootp prefer d
            = rewrite_fields order' rootp prefer d.
Proof.
  induction 1 as [|x l l' _ IH|x y l|l l' l'' _ IH1 _ IH2]; intros d.
  - reflexivity.
  - simpl. apply IH.
  - apply rewrite_fields_swap.
  - now rewrite IH1, IH2.
Qed.

Lemma serialize_any_order order config path prefer :
  Permutation RELATIVE_PATH_FIELDS order ->
  serialize_in_order order config path prefer
  = serialize_config_to_yaml config path prefer.
Proof.
  intros HP. unfold serialize_config_to_yaml, serialize_in_order.
  destruct (model_to_dict config) as [dumped|e]; [|reflexivity].
  unfold rbind. cbv beta iota.
  change (_convert_paths_to_strings (VDict dumped))
    with (VDict (convert_entries dumped)). cbv beta iota zeta.
  now rewrite (rewrite_fields_order _ _
                 (root_path_of (convert_entries dumped)) prefer HP).
Qed.

End IterationOrder.

(** ** local_runner.py: the runner script *)

Section ScriptFacts.
Import Script.
Variables Config Displacements : Type.
Variable lib : pipeline Config Displacements.

Lemma main_with_loaded_config argv0 cfg_path mode config mid disp :
  from_file lib cfg_path = Ok config ->
  run_stage1 lib config = Ok tt ->
  run_stage2 lib config = Ok (mid, disp) ->
  run_stage3 lib config mid disp = Ok tt ->
  main lib [argv0; cfg_path; mode]
  = if String.eqb mode "all" then
      ([Print (LoadedConfig cfg_path); Print RunningStage1; Call1 config;
        Print RunningStage2; Call2 config; Print (RunningStage3 mid);
        Call3 config mid disp; Print CompletedAll], Ok tt)
    else if String.eqb mode "stage1" then
      ([Print (LoadedConfig cfg_path); Call1 config; Print CompletedStage1],
       Ok tt)
    else if String.eqb mode "stage2" then
      ([Print (LoadedConfig cfg_path); Call2 config;
        Print (CompletedStage2 mid)], Ok tt)
    else if String.eqb mode "stage3" then
      ([Print (LoadedConfig cfg_path); Call2 config; Call3 config mid disp;
        Print CompletedStage3], Ok tt)
    else ([Print (LoadedConfig cfg_path)], Raise ValueError).
Proof.
  intros Hf H1 H2 H3. unfold main. simpl. rewrite Hf. simpl.
  destruct (String.eqb mode "all"); [simpl; rewrite H1, H2; simpl; now rewrite H3|].
  destruct (String.eqb mode "stage1"); [simpl; now rewrite H1|].
  destruct (String.eqb mode "stage2"); [simpl; now rewrite H2|].
  destruct (String.eqb mode "stage3"); [simpl; rewrite H2; simpl; now rewrite H3|].
  reflexivity.
Qed.

End ScriptFacts.

(** C6: the runner script runs the stages in order: for mode ["all"]
    stage 1, stage 2, stage 3, each once; for ["stage1"] stage 1 only; for
    ["stage2"] stage 2 only; for ["stage3"] stage 2 and then stage 3; for
    every other mode it raises [ValueError] and runs no stage.  The
    configuration is taken to load and the stages to return. *)
Theorem runner_script_stage_order :
  forall (Config Displacements : Type)
         (lib : Script.pipeline Config Displacements)
         (argv0 cfg_path mode : string) (config : Config) (mid : Z)
         (disp : Displacements),
    Script.from_file lib cfg_path = Ok config ->
    Script.run_stage1 lib config = Ok tt ->
    Script.run_stage2 lib config = Ok (mid, disp) ->
    Script.run_stage3 lib config mid disp = Ok tt ->
    let x := Script.main lib [argv0; cfg_path; mode] in
    (mode = "all" ->
     Script.stages_called (fst x)
     = [Script.Stage1; Script.Stage2; Script.Stage3] /\ snd x = Ok tt) /\
    (mode = "stage1" ->
     Script.stages_called (fst x) = [Script.Stage1] /\ snd x = Ok tt) /\
    (mode = "stage2" ->
     Script.stages_called (fst x) = [Script.Stage2] /\ snd x = Ok tt) /\
    (mode = "stage3" ->
     Script.stages_called (fst x) = [Script.Stage2; Script.Stage3]
     /\ snd x = Ok tt) /\
    (~ In mode ["all"; "stage1"; "stage2"; "stage3"] ->
     Script.stages_called (fst x) = [] /\ snd x = Raise ValueError).
Proof.
  intros Config Displacements lib argv0 cfg_path mode config mid disp
         Hf H1 H2 H3 x. subst x.
  rewrite (main_with_loaded_config Config Displacements lib argv0 cfg_path
             mode config mid disp Hf H1 H2 H3).
  split; [intros ->; now split|].
  split; [intros ->; now split|].
  split; [intros ->; now split|].
  split; [intros ->; now split|].
  intros Hn.
  destruct (String.eqb mode "all") eqn:E0;
    [apply String.eqb_eq in E0; exfalso; apply Hn; simpl; auto|].
  destruct (String.eqb mode "stage1") eqn:E1;
    [apply String.eqb_eq in E1; exfalso; apply Hn; simpl; auto|].
  destruct (String.eqb mode "stage2") eqn:E2;
    [apply String.eqb_eq in E2; exfalso; apply Hn; simpl; auto|].
  destruct (String.eqb mode "stage3") eqn:E3;
    [apply String.eqb_eq in E3; exfalso; apply Hn; simpl; auto|].
  now split.
Qed.

Lemma runner_script_stage_order_witness :
  let x := Script.main Script.quiet_pipeline ["-c"; "/tmp/w/cfg.yaml"; "stage3"] in
  ("stage3" = "all" ->
   Script.stages_called (fst x)
   = [Script.Stage1; Script.Stage2; Script.Stage3] /\ snd x = Ok tt) /\
  ("stage3" = "stage1" ->
   Script.stages_called (fst x) = [Script.Stage1] /\ snd x = Ok tt) /\
  ("stage3" = "stage2" ->
   Script.stages_called (fst x) = [Script.Stage2] /\ snd x = Ok tt) /\
  ("stage3" = "stage3" ->
   Script.stages_called (fst x) = [Script.Stage2; Script.Stage3]
   /\ snd x = Ok tt) /\
  (~ In "stage3" ["all"; "stage1"; "stage2"; "stage3"] ->
   Script.stages_called (fst x) = [] /\ snd x = Raise ValueError).
Proof.
  apply (runner_script_stage_order unit unit Script.quiet_pipeline
           "-c" "/tmp/w/cfg.yaml" "stage3" tt 7%Z tt);
    reflexivity.
Defined.

Example runner_script_unknown_mode :
  Script.main Script.quiet_pipeline ["-c"; "/tmp/w/cfg.yaml"; "stage4"]
  = ([Script.Print (Script.LoadedConfig "/tmp/w/cfg.yaml")], Raise ValueError).
Proof. reflexivity. Qed.

(** ** local_runner.py: [LocalRunner] *)

Section RunnerFacts.
Import Runner.

Lemma cleanup_run self :
  _cleanup self
  = (Ok tt, idle,
     match _tmpdir self with Some d => [TmpdirCleaned d] | None => [] end).
Proof.
  unfold _cleanup, bind, get, put, perform, ret. simpl.
  destruct (_tmpdir self); reflexivity.
Qed.

Lemma on_finished_run exit_code status self :
  _on_finished exit_code status self
  = (Ok tt, idle,
     (if Z.eqb exit_code 0 then []
      else [Emitted (run_failed (failure_message exit_code))])
     ++ [Emitted (run_finished exit_code)]
     ++ match _tmpdir self with Some d => [TmpdirCleaned d] | None => [] end).
Proof.
  unfold _on_finished, bind.
  destruct (Z.eqb exit_code 0); simpl; rewrite cleanup_run; reflexivity.
Qed.

Lemma start_while_running env config mode self :
  is_running self = true ->
  start env config mode self = (Raise RuntimeError, self, []).
Proof.
  intros H. unfold start, bind, get, raise. simpl. now rewrite H.
Qed.

Lemma written_config_ok env config file :
  written_config env config = Ok file ->
  create_tmpdir env = Ok tt /\
  serialize_config_to_yaml config
    (PosixPath.AsPath (config_path_of env)) true = Ok file /\
  write_yaml env file = Ok tt.
Proof.
  unfold written_config.
  destruct (create_tmpdir env) as [[]|e0]; simpl; [|discriminate].
  destruct (serialize_config_to_yaml config
              (PosixPath.AsPath (config_path_of env)) true) as [file0|e];
    simpl; [|discriminate].
  destruct (write_yaml env file0) as [[]|e] eqn:Hw; simpl; [|discriminate].
  intros [= <-]. now repeat split.
Qed.

(** [start] when the directory cannot be created or the configuration
    cannot be computed or written. *)
Lemma start_not_written env config mode self e :
  is_running self = false ->
  written_config env config = Raise e ->
  start env config mode self
  = match create_tmpdir env with
    | Ok _ =>
        (Raise e,
         mk_runner (_process self) (Some (mk_tmpdir (fresh_tmpdir env))),
         [TmpdirCreated (mk_tmpdir (fresh_tmpdir env))])
    | Raise _ => (Raise e, self, [])
    end.
Proof.
  intros H Hw. unfold start, bind, get, raise, perform, put, lift.
  simpl. rewrite H.
  unfold written_config, config_path_of in Hw. simpl in Hw.
  destruct (create_tmpdir env) as [[]|e0]; simpl in Hw |- *;
    [|now injection Hw as ->].
  destruct (serialize_config_to_yaml config _ true) as [file|e0];
    simpl in Hw; [|now injection Hw as ->].
  destruct (write_yaml env file) as [[]|e1]; simpl in Hw;
    [discriminate|now injection Hw as ->].
Qed.

(** [start] when the configuration is written. *)
Lemma start_run env config mode self file :
  is_running self = false ->
  written_config env config = Ok file ->
  let tmpdir := mk_tmpdir (fresh_tmpdir env) in
  let process :=
    mk_process (sys_executable env)
      ["-u"; "-c"; RUNNER_SCRIPT;
       PosixPath.to_str (config_path_of env); mode] NotRunning in
  start env config mode self
  = if wait_for_started env then
      (Ok tt, mk_runner (Some (set_state Running process)) (Some tmpdir),
       [TmpdirCreated tmpdir; FileWritten file; ProcessStarted process;
        Emitted run_started])
    else
      (Raise RuntimeError, idle,
       [TmpdirCreated tmpdir; FileWritten file; ProcessStarted process;
        TmpdirCleaned tmpdir]).
Proof.
  intros H Hw. unfold start, bind, get, raise, perform, put, lift.
  simpl. rewrite H.
  unfold written_config, config_path_of in Hw. simpl in Hw.
  destruct (create_tmpdir env) as [[]|e0]; simpl in Hw |- *;
    [|discriminate].
  destruct (serialize_config_to_yaml config _ true) as [file0|e0];
    simpl in Hw; [|discriminate].
  destruct (write_yaml env file0) as [[]|e1]; simpl in Hw; [|discriminate].
  injection Hw as ->.
  destruct (wait_for_started env); reflexivity.
Qed.

End RunnerFacts.

(** C4: when the worker finishes, [_on_finished] always emits
    [run_finished] with the exit code, and emits [run_failed] (a message) if
    and only if the exit code is not zero; it starts no process again and
    leaves the runner idle. *)
Theorem on_finished_reports_exit_code :
  forall (self : Runner.LocalRunner) (exit_code : Z)
         (exit_status : Runner.ExitStatus),
    let x := Runner._on_finished exit_code exit_status self in
    Runner.outcome x = Ok tt /\
    Runner.signals (Runner.effects x)
    = (if Z.eqb exit_code 0 then []
       else [Runner.run_failed (Runner.failure_message exit_code)])
      ++ [Runner.run_finished exit_code] /\
    In (Runner.run_finished exit_code) (Runner.signals (Runner.effects x)) /\
    (existsb Runner.is_run_failed (Runner.signals (Runner.effects x)) = true
     <-> exit_code <> 0%Z) /\
    Runner.started (Runner.effects x) = [] /\
    Runner.after x = Runner.idle.
Proof.
  intros self exit_code exit_status x. subst x.
  rewrite on_finished_run.
  unfold Runner.outcome, Runner.after, Runner.effects. simpl.
  destruct (Z.eqb_spec exit_code 0) as [->|Hne];
    destruct (Runner._tmpdir self); simpl;
    repeat split; auto; try congruence; try discriminate.
Qed.

Example on_finished_failure :
  Runner._on_finished 1 Runner.NormalExit Runner.busy
  = (Ok tt, Runner.idle,
     [Runner.Emitted (Runner.run_failed "Local run failed with exit code 1.");
      Runner.Emitted (Runner.run_finished 1);
      Runner.TmpdirCleaned (Runner.mk_tmpdir "/tmp/w0")]).
Proof. reflexivity. Qed.

(** C5 as stated fails: with a runner that is not running, [start] on an
    object [model_to_dict] does not support raises [TypeError] before any
    process is created, so no subprocess is launched. *)
Lemma start_unsupported_config_launches_nothing :
  Runner.is_running Runner.idle = false /\
  Runner.outcome
    (Runner.start Runner.example_env Runner.unsupported_config "all"
       Runner.idle) = Raise TypeError /\
  Runner.started
    (Runner.effects
       (Runner.start Runner.example_env Runner.unsupported_config "all"
          Runner.idle)) = [] /\
  ~ (forall env config mode self,
        Runner.is_running self = false ->
        length (Runner.started
                  (Runner.effects (Runner.start env config mode self))) = 1).
Proof.
  repeat split.
  intros H.
  specialize (H Runner.example_env Runner.unsupported_config "all"
                Runner.idle eq_refl).
  discriminate H.
Qed.

(** C5, amended: while [is_running()] holds, [start] raises [RuntimeError]
    and leaves the runner as it was, creating no process and no temporary
    directory; when it does not hold, [start] creates and starts at most
    one process: none when computing or writing the configuration raises
    (the exception is passed on); otherwise exactly one, which the runner
    supervises when it comes up within the wait ([is_running()] holds and
    [run_started] is emitted), while [start] raises [RuntimeError] and
    leaves the runner idle when it does not come up. *)
Theorem start_supervises_at_most_one :
  forall (env : Runner.environment) (config : model) (mode : string)
         (self : Runner.LocalRunner),
    let x := Runner.start env config mode self in
    (Runner.is_running self = true ->
     Runner.outcome x = Raise RuntimeError /\ Runner.after x = self /\
     Runner.effects x = []) /\
    (Runner.is_running self = false ->
     match Runner.written_config env config with
     | Raise e =>
         Runner.outcome x = Raise e /\
         Runner.started (Runner.effects x) = [] /\
         Runner._process (Runner.after x) = Runner._process self
     | Ok file =>
         exists p,
           Runner.started (Runner.effects x) = [p] /\
           In (Runner.FileWritten file) (Runner.effects x) /\
           if Runner.wait_for_started env then
             Runner.outcome x = Ok tt /\
             Runner._process (Runner.after x)
             = Some (Runner.set_state Runner.Running p) /\
             Runner.is_running (Runner.after x) = true /\
             Runner.signals (Runner.effects x) = [Runner.run_started]
           else
             Runner.outcome x = Raise RuntimeError /\
             Runner.after x = Runner.idle /\
             Runner.is_running (Runner.after x) = false /\
             Runner.signals (Runner.effects x) = []
     end).
Proof.
  intros env config mode self x. subst x. split.
  - intros H. rewrite (start_while_running env config mode self H).
    now repeat split.
  - intros H.
    destruct (Runner.written_config env config) as [file|e] eqn:Hw.
    + rewrite (start_run env config mode self file H Hw).
      eexists.
      destruct (Runner.wait_for_started env); simpl;
        (split; [reflexivity|]); (split; [auto|]); repeat split.
    + rewrite (start_not_written env config mode self e H Hw).
      destruct (Runner.create_tmpdir env); now repeat split.
Qed.

Lemma start_supervises_at_most_one_witness :
  (Runner.outcome (Runner.start Runner.example_env example_config "all"
                     Runner.busy) = Raise RuntimeError /\
   Runner.after (Runner.start Runner.example_env example_config "all"
                   Runner.busy) = Runner.busy /\
   Runner.effects (Runner.start Runner.example_env example_config "all"
                     Runner.busy) = []) /\
  (Runner.outcome (Runner.start Runner.unwritable_env example_config "all"
                     Runner.idle) = Raise OSError /\
   Runner.started
     (Runner.effects (Runner.start Runner.unwritable_env example_config "all"
                        Runner.idle)) = [] /\
   Runner._process
     (Runner.after (Runner.start Runner.unwritable_env example_config "all"
                      Runner.idle)) = None) /\
  exists p,
    Runner.started
      (Runner.effects (Runner.start Runner.example_env example_config "all"
                         Runner.idle)) = [p] /\
    Runner.outcome (Runner.start Runner.example_env example_config "all"
                      Runner.idle) = Ok tt /\
    Runner.is_running
      (Runner.after (Runner.start Runner.example_env example_config "all"
                       Runner.idle)) = true.
Proof.
  split; [|split].
  - apply (start_supervises_at_most_one Runner.example_env example_config
             "all" Runner.busy). reflexivity.
  - apply (proj2 (start_supervises_at_most_one Runner.unwritable_env
                    example_config "all" Runner.idle) eq_refl).
  - destruct (proj2 (start_supervises_at_most_one Runner.example_env
                       example_config "all" Runner.idle) eq_refl)
      as (p & Hp & _ & Hok & _ & Hrun & _).
    exists p. split; [exact Hp|]. split; [exact Hok|exact Hrun].
Defined.

Example start_unwritable :
  Runner.start Runner.unwritable_env example_config "all" Runner.idle
  = (Raise OSError,
     Runner.mk_runner None
       (Some (Runner.mk_tmpdir "/tmp/pyflowreg_session_gui_k3")),
     [Runner.TmpdirCreated (Runner.mk_tmpdir "/tmp/pyflowreg_session_gui_k3")]).
Proof. reflexivity. Qed.

Example start_example :
  Runner.start Runner.example_env example_config "stage2" Runner.idle
  = let tmpdir := Runner.mk_tmpdir "/tmp/pyflowreg_session_gui_k3" in
    let cfg := "/tmp/pyflowreg_session_gui_k3/session_config.yaml" in
    let process :=
      Runner.mk_process "/usr/bin/python3"
        ["-u"; "-c"; RUNNER_SCRIPT; cfg; "stage2"] in
    (Ok tt,
     Runner.mk_runner (Some (process Runner.Running)) (Some tmpdir),
     [Runner.TmpdirCreated tmpdir;
      Runner.FileWritten
        (mk_yaml (PosixPath.parse cfg)
           (VDict [ (VStr "root", VStr "/data/session");
                    (VStr "pattern", VStr "*.tif");
                    (VStr "output_root", VStr "out");
                    (VStr "final_results", VStr "/data/session2/final");
                    (VStr "center", VStr ".");
                    (VStr "resume", VBool true);
                    (VStr "flow_options", VDict [(VStr "levels", VInt 3)]) ]));
      Runner.ProcessStarted (process Runner.NotRunning);
      Runner.Emitted Runner.run_started]).
Proof. reflexivity. Qed.

(** C7: every process [start] launches is invoked with the arguments
    [-u -c RUNNER_SCRIPT config_path mode]: the last two are the path of the
    file the configuration was written to and then the run mode.  The
    script then has [sys.argv = ["-c"; config_path; mode]], and it reads
    the path from [sys.argv[1]] and the mode from [sys.argv[2]]: it loads
    the configuration from [config_path] before anything else, passing on
    what loading raises, and, the stages returning, it prints
    [config_path] and runs the stages that [mode] selects, or raises
    [ValueError] for a [mode] it does not know. *)
Theorem start_invocation_arguments :
  forall (env : Runner.environment) (config : model) (mode : string)
         (self : Runner.LocalRunner) (p : Runner.QProcess),
    let x := Runner.start env config mode self in
    let cfg := PosixPath.to_str (Runner.config_path_of env) in
    In p (Runner.started (Runner.effects x)) ->
    Runner.started (Runner.effects x) = [p] /\
    Runner.program p = Runner.sys_executable env /\
    Runner.arguments p = ["-u"; "-c"; RUNNER_SCRIPT; cfg; mode] /\
    (exists file,
        In (Runner.FileWritten file) (Runner.effects x) /\
        yaml_path file = Runner.config_path_of env) /\
    Script.sys_argv (Runner.arguments p) = Some ["-c"; cfg; mode] /\
    Script.argv_at ["-c"; cfg; mode] 1 = Ok cfg /\
    Script.argv_at ["-c"; cfg; mode] 2 = Ok mode /\
    (forall (Config Displacements : Type)
            (lib : Script.pipeline Config Displacements)
            (argv0 : string) (more : list string),
        Script.main lib (argv0 :: cfg :: mode :: more)
        = Script.main lib ["-c"; cfg; mode]) /\
    (forall (Config Displacements : Type)
            (lib : Script.pipeline Config Displacements) (e : pyexc),
        Script.from_file lib cfg = Raise e ->
        Script.main lib ["-c"; cfg; mode] = ([], Raise e)) /\
    (forall (Config Displacements : Type)
            (lib : Script.pipeline Config Displacements)
            (loaded : Config) (mid : Z) (disp : Displacements),
        Script.from_file lib cfg = Ok loaded ->
        Script.run_stage1 lib loaded = Ok tt ->
        Script.run_stage2 lib loaded = Ok (mid, disp) ->
        Script.run_stage3 lib loaded mid disp = Ok tt ->
        Script.main lib ["-c"; cfg; mode]
        = if String.eqb mode "all" then
            ([Script.Print (Script.LoadedConfig cfg);
              Script.Print Script.RunningStage1; Script.Call1 loaded;
              Script.Print Script.RunningStage2; Script.Call2 loaded;
              Script.Print (Script.RunningStage3 mid);
              Script.Call3 loaded mid disp;
              Script.Print Script.CompletedAll], Ok tt)
          else if String.eqb mode "stage1" then
            ([Script.Print (Script.LoadedConfig cfg); Script.Call1 loaded;
              Script.Print Script.CompletedStage1], Ok tt)
          else if String.eqb mode "stage2" then
            ([Script.Print (Script.LoadedConfig cfg); Script.Call2 loaded;
              Script.Print (Script.CompletedStage2 mid)], Ok tt)
          else if String.eqb mode "stage3" then
            ([Script.Print (Script.LoadedConfig cfg); Script.Call2 loaded;
              Script.Call3 loaded mid disp;
              Script.Print Script.CompletedStage3], Ok tt)
          else ([Script.Print (Script.LoadedConfig cfg)], Raise ValueError)).
Proof.
  intros env config mode self p x cfg Hin. subst x.
  destruct (Runner.is_running self) eqn:Hr.
  - rewrite (start_while_running env config mode self Hr) in Hin.
    destruct Hin.
  - destruct (Runner.written_config env config) as [file|e] eqn:Hw.
    + assert (Hpath : yaml_path file = Runner.config_path_of env).
      { destruct (written_config_ok env config file Hw) as (_ & Hs & _).
        unfold serialize_config_to_yaml, serialize_in_order in Hs.
        destruct (model_to_dict config); [|discriminate].
        simpl in Hs. now injection Hs as <-. }
      rewrite (start_run env config mode self file Hr Hw) in *.
      assert (Hp : p = Runner.mk_process (Runner.sys_executable env)
                         ["-u"; "-c"; RUNNER_SCRIPT; cfg; mode]
                         Runner.NotRunning).
      { destruct (Runner.wait_for_started env); simpl in Hin;
          destruct Hin as [<-|[]]; reflexivity. }
      subst p. simpl.
      split; [destruct (Runner.wait_for_started env); reflexivity|].
      split; [reflexivity|]. split; [reflexivity|].
      split; [exists file; split;
                [destruct (Runner.wait_for_started env); simpl; auto
                |assumption]|].
      split; [reflexivity|]. split; [reflexivity|]. split; [reflexivity|].
      split; [reflexivity|]. split.
      * intros Config Displacements lib e Hf.
        unfold Script.main. simpl. now rewrite Hf.
      * intros Config Displacements lib loaded mid disp Hf H1 H2 H3.
        apply main_with_loaded_config; assumption.
    + rewrite (start_not_written env config mode self e Hr Hw) in Hin.
      destruct (Runner.create_tmpdir env); destruct Hin.
Qed.

Lemma start_invocation_arguments_witness :
  let x := Runner.start Runner.example_env example_config "stage3"
             Runner.idle in
  let cfg := "/tmp/pyflowreg_session_gui_k3/session_config.yaml" in
  let p := Runner.mk_process "/usr/bin/python3"
             ["-u"; "-c"; RUNNER_SCRIPT; cfg; "stage3"] Runner.NotRunning in
  Runner.started (Runner.effects x) = [p] /\
  Runner.arguments p = ["-u"; "-c"; RUNNER_SCRIPT; cfg; "stage3"] /\
  Script.sys_argv (Runner.arguments p) = Some ["-c"; cfg; "stage3"] /\
  Script.main (Script.mk_pipeline (fun _ => Raise OSError)
                 (fun _ : unit => Ok tt) (fun _ => Ok (0%Z, tt))
                 (fun _ _ _ => Ok tt))
    ["-c"; cfg; "stage3"] = ([], Raise OSError) /\
  Script.main (Script.mk_pipeline (fun path => Ok path)
                 (fun _ => Ok tt) (fun _ => Ok (4%Z, tt))
                 (fun _ _ _ => Ok tt))
    ["-c"; cfg; "stage3"]
  = ([Script.Print (Script.LoadedConfig cfg); Script.Call2 cfg;
      Script.Call3 cfg 4%Z tt; Script.Print Script.CompletedStage3], Ok tt).
Proof.
  intros x cfg p.
  destruct (start_invocation_arguments Runner.example_env example_config
              "stage3" Runner.idle p (or_introl eq_refl))
    as (Hs & _ & Ha & _ & Hv & _ & _ & _ & Hraise & Hrun).
  split; [exact Hs|]. split; [exact Ha|]. split; [exact Hv|]. split.
  - apply (Hraise unit unit). reflexivity.
  - apply (Hrun string unit); reflexivity.
Defined.

(** ** config_form.py: annotations *)

Section AnnotationFacts.
Import Form.

Lemma depth_positive a : 1 <= depth a.
Proof. destruct a; simpl; lia. Qed.

Lemma depth_arg x args : In x args -> depth x < depth (TUnion args).
Proof.
  simpl. induction args as [|y l IH]; intros Hin; [destruct Hin|].
  simpl. destruct Hin as [->|Hin]; [lia|].
  specialize (IH Hin). lia.
Qed.

Lemma existsb_filter_none (f : annotation -> bool) args :
  f TNoneType = false ->
  existsb f (filter not_none_type args) = existsb f args.
Proof.
  intros Hf. induction args as [|x l IH]; [reflexivity|]. simpl.
  destruct (not_none_type x) eqn:E; simpl; [now rewrite IH|].
  rewrite IH. destruct x; try discriminate. now rewrite Hf.
Qed.

Lemma existsb_agree {A} (f g : A -> bool) l :
  (forall x, In x l -> f x = g x) -> existsb f l = existsb g l.
Proof.
  induction l as [|x l IH]; intros H; [reflexivity|]. simpl.
  rewrite (H x) by now left. rewrite IH; [reflexivity|].
  intros y Hy. apply H. now right.
Qed.

Lemma unwrap_optional_cases a :
  (_unwrap_optional a = (a, false)) \/
  (exists args b,
      a = TUnion args /\ filter not_none_type args = [b] /\
      _unwrap_optional a = (b, true)).
Proof.
  destruct a; try now left. simpl.
  destruct (filter not_none_type args) as [|b [|c l]] eqn:E; try now left.
  right. now exists args, b.
Qed.

Lemma filter_singleton_in args b :
  filter not_none_type args = [b] -> In b args.
Proof.
  intros H. assert (Hin : In b (filter not_none_type args))
    by (rewrite H; now left).
  apply filter_In in Hin. tauto.
Qed.

(** What the base of an annotation mentions is what the annotation
    mentions, the [None] of an [Optional] apart. *)
Lemma mentions_base target a :
  annotation_is TNoneType target = false ->
  mentions target (fst (_unwrap_optional a)) = mentions target a.
Proof.
  intros Ht.
  destruct (unwrap_optional_cases a) as [-> | (args & b & -> & Hf & ->)];
    [reflexivity|].
  simpl fst. simpl mentions at 2.
  rewrite <- (existsb_filter_none (mentions target) args)
    by (destruct target; try reflexivity; discriminate).
  rewrite Hf. simpl. now rewrite orb_false_r.
Qed.

(** With fuel for the depth of the annotation, the bounded recursion
    computes [mentions]. *)
Lemma has_type_upto_mentions target :
  annotation_is TNoneType target = false ->
  forall n a, depth a <= n -> has_type_upto n a target = mentions target a.
Proof.
  intros Ht. induction n as [|n IH]; intros a Hd.
  - pose proof (depth_positive a). lia.
  - rewrite <- (mentions_base target a Ht). simpl has_type_upto.
    assert (Hbase : depth (fst (_unwrap_optional a)) <= S n).
    { destruct (unwrap_optional_cases a) as [-> | (args & b & -> & Hf & ->)];
        [assumption|]. simpl fst.
      pose proof (depth_arg b args (filter_singleton_in args b Hf)). lia. }
    destruct (fst (_unwrap_optional a)) as [| | | | | | | | |args'|] eqn:Eb;
      try (simpl; destruct target; reflexivity).
    simpl. destruct (annotation_is (TUnion args') target) eqn:Eu;
      [destruct target; discriminate|].
    apply existsb_agree. intros x Hx. apply IH.
    pose proof (depth_arg x args' Hx). lia.
Qed.

Lemma annotation_has_type_mentions a target :
  annotation_is TNoneType target = false ->
  _annotation_has_type a target = mentions target a.
Proof.
  intros Ht. unfold _annotation_has_type.
  now apply has_type_upto_mentions.
Qed.

Example optional_dict_or_str :
  _unwrap_optional (TUnion [TDict; TStr; TNoneType])
  = (TUnion [TDict; TStr; TNoneType], false) /\
  _annotation_has_type (TUnion [TDict; TStr; TNoneType]) TDict = true /\
  _unwrap_optional (TUnion [TUnion [TPath; TStr]; TNoneType])
  = (TUnion [TPath; TStr], true) /\
  _annotation_has_type (TUnion [TUnion [TPath; TStr]; TNoneType]) TPath
  = true /\
  _annotation_has_type (TOther "dict[str, Any]") TDict = false.
Proof. repeat split. Qed.

End AnnotationFacts.

(** ** config_form.py: the dispatch of [_create_editor] *)

Section DispatchFacts.
Import Form.

Lemma mem_false_iff x l : mem x l = false <-> ~ In x l.
Proof.
  unfold mem. induction l as [|y l IH]; simpl; [tauto|].
  rewrite orb_false_iff, IH, String.eqb_neq. intuition congruence.
Qed.

Lemma unnamed_tests n :
  ~ In n NAMED_FIELDS ->
  String.eqb n "flow_options" = false /\ mem n PATH_FIELD_NAMES = false.
Proof.
  intros H. split.
  - apply String.eqb_neq. intros ->. apply H. now left.
  - apply mem_false_iff. intros Hin. apply H. now right.
Qed.





Lemma mentions_absorbs target a :
  annotation_is a target || mentions target a = mentions target a.
Proof.
  assert (H : mentions target a
              = annotation_is a target
                || match a with
                   | TUnion args => existsb (mentions target) args
                   | _ => false
                   end) by (destruct a; reflexivity).
  rewrite H. now destruct (annotation_is a target).
Qed.




(** A field that is not treated by name and whose annotation mentions
    [dict] gets the JSON editor. *)
Lemma create_editor_json rt n a d :
  ~ In n NAMED_FIELDS -> mentions TDict a = true ->
  _create_editor rt n a d
  = set_default_or_reset rt (JsonEdit (snd (_unwrap_optional a)) "") d.
Proof.
  intros H Hm. destruct (unnamed_tests n H) as [H1 H2].
  rewrite <- (mentions_base TDict a eq_refl) in Hm.
  unfold _create_editor.
  destruct (_unwrap_optional a) as [base opt]. rewrite H1, H2.
  simpl fst in Hm. simpl snd.
  rewrite !annotation_has_type_mentions by reflexivity.
  destruct base; try discriminate; cbn [mentions annotation_is orb] in *;
    [reflexivity|now rewrite Hm].
Qed.

End DispatchFacts.




(** C10 as stated fails: a field named [root] whose annotation is [dict]
    gets a path picker, and with empty text its getter returns the empty
    string and not the empty dict. *)
Lemma dict_field_named_root_returns_text :
  Form.mentions Form.TDict Form.TDict = true /\
  Form._unwrap_optional Form.TDict = (Form.TDict, false) /\
  Form._create_editor Form.tiny_runtime "root" Form.TDict None
  = Ok (Form.PathPicker true false "") /\
  Form.getter Form.tiny_runtime (Form.PathPicker true false "")
  = Ok (VStr "") /\
  Form.getter Form.tiny_runtime (Form.PathPicker true false "")
  <> Ok (VDict []).
Proof. repeat split; discriminate. Qed.

(** C10, amended: for every field whose name is none of [flow_options],
    [root], [output_root], [final_results] and [center] and whose
    annotation is [dict] or contains it, the editor is the JSON editor and
    its getter returns [None] when the field is optional and the stripped
    text is empty, the empty dict when the field is not optional and the
    text is empty, the parsed dict when the text is a JSON object, and
    raises [ValueError] when the text is no JSON or parses to something
    else; [FlowOptionsEditor.get_value] in inline mode does the same,
    empty text always giving the empty dict. *)
Theorem json_getter_cases :
  forall (rt : Form.runtime) (field_name : string) (a : Form.annotation)
         (d : Form.default_value),
    ~ In field_name Form.NAMED_FIELDS ->
    Form.mentions Form.TDict a = true ->
    let optional := snd (Form._unwrap_optional a) in
    (forall e, Form._create_editor rt field_name a d = Ok e ->
               exists text, e = Form.JsonEdit optional text) /\
    (forall text,
        let t := PyStr.strip text in
        (t = "" ->
         Form.getter rt (Form.JsonEdit optional text)
         = Ok (if optional then VNone else VDict [])) /\
        (t <> "" -> forall obj, Form.json_loads rt t = Some (VDict obj) ->
         Form.getter rt (Form.JsonEdit optional text) = Ok (VDict obj)) /\
        (t <> "" -> Form.json_loads rt t = None ->
         Form.getter rt (Form.JsonEdit optional text) = Raise ValueError) /\
        (t <> "" -> forall v, Form.json_loads rt t = Some v ->
         Form.is_dict v = false ->
         Form.getter rt (Form.JsonEdit optional text) = Raise ValueError)) /\
    (forall inline_text file_text,
        let e := Form.FlowOptionsEditor Form.Inline inline_text file_text in
        let t := PyStr.strip inline_text in
        (t = "" -> Form.getter rt e = Ok (VDict [])) /\
        (t <> "" -> forall obj, Form.json_loads rt t = Some (VDict obj) ->
         Form.getter rt e = Ok (VDict obj)) /\
        (t <> "" -> Form.json_loads rt t = None ->
         Form.getter rt e = Raise ValueError) /\
        (t <> "" -> forall v, Form.json_loads rt t = Some v ->
         Form.is_dict v = false -> Form.getter rt e = Raise ValueError)).
Proof.
  intros rt field_name a d Hname Hm optional.
  split; [|split].
  - intros e He. rewrite (create_editor_json rt field_name a d Hname Hm) in He.
    fold optional in He. unfold Form.set_default_or_reset in He.
    destruct d as [v|].
    + unfold Form.set_default in He. simpl in He.
      destruct v; try (destruct (Form.json_dumps rt _); [|discriminate]);
        injection He as <-; eexists; reflexivity.
    + injection He as <-. eexists; reflexivity.
  - intros text t. subst t. simpl.
    destruct (String.eqb_spec (PyStr.strip text) "") as [E|E].
    + split; [intros _; now destruct optional|].
      repeat split; intros Hn; contradiction.
    + unfold Form.parse_object. split; [intros Hn; contradiction|].
      split; [intros _ obj ->; reflexivity|].
      split; [intros _ ->; reflexivity|].
      intros _ v -> Hv. now rewrite Hv.
  - intros inline_text file_text e t. subst e t. simpl.
    destruct (String.eqb_spec (PyStr.strip inline_text) "") as [E|E].
    + split; [reflexivity|].
      repeat split; intros Hn; contradiction.
    + unfold Form.parse_object. split; [intros Hn; contradiction|].
      split; [intros _ obj ->; reflexivity|].
      split; [intros _ ->; reflexivity|].
      intros _ v -> Hv. now rewrite Hv.
Qed.

Lemma json_getter_cases_witness :
  (exists text,
      Form.JsonEdit true "" = Form.JsonEdit true text) /\
  Form.getter Form.tiny_runtime (Form.JsonEdit true "  ") = Ok VNone /\
  Form.getter Form.tiny_runtime (Form.JsonEdit true " {} ") = Ok (VDict []) /\
  Form.getter Form.tiny_runtime (Form.JsonEdit true "{") = Raise ValueError /\
  Form.getter Form.tiny_runtime (Form.JsonEdit true "[]") = Raise ValueError /\
  Form.getter Form.tiny_runtime
    (Form.FlowOptionsEditor Form.Inline "  " "") = Ok (VDict []).
Proof.
  assert (Hname : ~ In "stage_options" Form.NAMED_FIELDS)
    by (simpl; intuition discriminate).
  pose proof (json_getter_cases Form.tiny_runtime "stage_options"
                (Form.TUnion [Form.TDict; Form.TNoneType]) None
                Hname eq_refl) as (Hed & Hget & Hflow).
  split; [apply Hed; reflexivity|].
  split; [destruct (Hget "  ") as (H & _); apply H; reflexivity|].
  split; [destruct (Hget " {} ") as (_ & H & _);
          apply H; [vm_compute; discriminate|reflexivity]|].
  split; [destruct (Hget "{") as (_ & _ & H & _);
          apply H; [vm_compute; discriminate|reflexivity]|].
  split; [destruct (Hget "[]") as (_ & _ & _ & H);
          apply (H (fun E => ltac:(vm_compute in E; discriminate E))
                   (VList [])); reflexivity|].
  destruct (Hflow "  " "") as (H & _). apply H. reflexivity.
Defined.

(** ** config_form.py: values through the form *)

Section RoundTripFacts.
Import Form.
Variable rt : runtime.

Lemma find_index_of_find items v w :
  find (fun item => item_eq item v) items = Some w ->
  forall k, exists n,
    find_index items v k = Some (k + Z.of_nat n)%Z /\
    nth n items VNone = w.
Proof.
  induction items as [|item rest IH]; simpl; [discriminate|].
  destruct (item_eq item v).
  - intros [= <-] k. exists 0. split; [f_equal; lia|reflexivity].
  - intros H k. destruct (IH H (k + 1)%Z) as (n & Hn & Hw).
    exists (S n). split; [rewrite Hn; f_equal; lia|exact Hw].
Qed.

Lemma setter_static e v : static (fst (setter rt e v)) = static e.
Proof.
  destruct e; simpl; try reflexivity.
  - destruct v; try reflexivity. now destruct (json_dumps rt _).
  - now destruct (rbind (py_int rt v) spin_set_value).
  - now destruct (float_of rt v).
  - now destruct (find_index items v 0).
  - destruct v; try reflexivity; now destruct (json_dumps rt _).
Qed.

(** *** Line edits *)

Lemma left_short s :
  forall n, (Z.of_nat (String.length s) <= n)%Z -> left n s = s.
Proof.
  induction s as [|c r IH]; intros n H; simpl in *; [reflexivity|].
  assert ((0 <? n)%Z = true) as -> by (apply Z.ltb_lt; lia).
  now rewrite IH by lia.
Qed.

Lemma left_length s :
  forall n, (0 <= n)%Z -> (Z.of_nat (String.length (left n s)) <= n)%Z.
Proof.
  induction s as [|c r IH]; intros n H; simpl; [lia|].
  destruct (0 <? n)%Z eqn:E; simpl; [|lia].
  apply Z.ltb_lt in E. specialize (IH (n - 1)%Z). lia.
Qed.

Lemma line_text_short s :
  (Z.of_nat (String.length s) <= LINE_MAX)%Z -> line_text s = s.
Proof. apply left_short. Qed.

Lemma line_text_length s :
  (Z.of_nat (String.length (line_text s)) <= LINE_MAX)%Z.
Proof. apply left_length. unfold LINE_MAX. lia. Qed.

Lemma lstrip_length s :
  String.length (PyStr.lstrip s) <= String.length s.
Proof.
  induction s as [|c r IH]; simpl; [lia|].
  destruct (PyStr.is_space c); simpl; lia.
Qed.

Lemma rstrip_length s :
  String.length (PyStr.rstrip s) <= String.length s.
Proof.
  induction s as [|c r IH]; simpl; [lia|].
  destruct (PyStr.rstrip r); simpl in *;
    [destruct (PyStr.is_space c); simpl; lia|lia].
Qed.

Lemma strip_length s :
  String.length (PyStr.strip s) <= String.length s.
Proof.
  unfold PyStr.strip.
  pose proof (rstrip_length (PyStr.lstrip s)).
  pose proof (lstrip_length s). lia.
Qed.

(** What a line edit returns fits a line edit. *)
Lemma line_text_strip s :
  line_text (PyStr.strip (line_text s)) = PyStr.strip (line_text s).
Proof.
  apply line_text_short.
  pose proof (strip_length (line_text s)).
  pose proof (line_text_length s). lia.
Qed.

Lemma line_round_trip optional s :
  plain_string optional s ->
  PyStr.strip (line_text (line_text s)) = s /\
  optional_text optional (PyStr.strip (line_text (line_text s))) = VStr s.
Proof.
  intros (Hs & Hlen & Hne).
  rewrite !(line_text_short s Hlen), Hs.
  split; [reflexivity|]. unfold optional_text.
  destruct optional; [|reflexivity]. simpl.
  destruct (String.eqb_spec s ""); [now destruct Hne|reflexivity].
Qed.

Lemma json_round_trip v text :
  json_dumps rt v = Ok text -> PyStr.strip text <> "" ->
  json_loads rt (PyStr.strip text) = Some v -> is_dict v = true ->
  (if String.eqb (PyStr.strip text) "" then Ok (VDict [])
   else parse_object rt (PyStr.strip text)) = Ok v /\
  forall optional,
    (if String.eqb (PyStr.strip text) ""
     then Ok (if negb optional then VDict [] else VNone)
     else parse_object rt (PyStr.strip text)) = Ok v.
Proof.
  intros _ Hne Hl Hd. apply String.eqb_neq in Hne. rewrite Hne.
  unfold parse_object. now rewrite Hl, Hd.
Qed.

(** Setting a canonical value succeeds, and the getter then returns
    what the form gives back for it. *)
Lemma setter_getter e v :
  canonical rt e v ->
  snd (setter rt e v) = Ok tt /\
  getter rt (fst (setter rt e v)) = Ok (form_value v).
Proof.
  destruct e; cbn [canonical].
  - (* flow options *)
    intros [(obj & txt & -> & Hd & Hne & Hl)
           |[(s & -> & Hp) | (p & -> & Hp)]].
    + cbn [setter]. rewrite Hd. split; [reflexivity|].
      cbn [fst getter form_value].
      now apply (json_round_trip (VDict obj) txt).
    + split; [reflexivity|]. cbn [setter fst getter py_str form_value].
      now rewrite (proj1 (line_round_trip false s Hp)).
    + split; [reflexivity|]. cbn [setter fst getter py_str form_value].
      now rewrite (proj1 (line_round_trip false _ Hp)).
  - (* path picker *)
    intros [(s & -> & Hp) | [(p & -> & Hp) | (-> & ->)]];
      (split; [reflexivity|]);
      cbn [setter fst getter text_of py_str form_value].
    + now rewrite (proj2 (line_round_trip optional s Hp)).
    + now rewrite (proj2 (line_round_trip optional _ Hp)).
    + reflexivity.
  - intros (b & ->). split; reflexivity.
  - intros (z & -> & Hz). cbn [setter py_int rbind]. unfold spin_set_value.
    unfold SPIN_MIN, SPIN_MAX in *.
    assert (((- 2 ^ 31 <=? z) && (z <=? 2 ^ 31 - 1))%Z = true) as ->.
    { apply andb_true_iff. split; apply Z.leb_le; lia. }
    split; [reflexivity|]. cbn [fst getter form_value]. do 2 f_equal. lia.
  - intros (b & -> & Hf & Hr). cbn [setter]. rewrite Hf.
    split; [reflexivity|]. cbn [fst getter form_value]. now rewrite Hr.
  - intros [_ Hfind].
    destruct (find_index_of_find items v v Hfind 0%Z) as (n & Hn & Hw).
    cbn [setter]. rewrite Hn. split; [reflexivity|].
    cbn [fst getter]. unfold current_data.
    assert ((0 + Z.of_nat n <? 0)%Z = false) as -> by (apply Z.ltb_ge; lia).
    rewrite Z.add_0_l, Nat2Z.id, Hw.
    assert (Hv : form_value v = v).
    { destruct v; try reflexivity. clear - Hfind.
      induction items as [|item rest IH]; simpl in Hfind; [discriminate|].
      destruct item; simpl in Hfind; auto; discriminate. }
    now rewrite Hv.
  - (* JSON editor *)
    intros [(obj & txt & -> & Hd & Hne & Hl) | (-> & ->)].
    + cbn [setter]. rewrite Hd. split; [reflexivity|].
      cbn [fst getter form_value].
      now apply (json_round_trip (VDict obj) txt).
    + split; reflexivity.
  - intros [(s & -> & Hp) | [(p & -> & Hp) | (-> & ->)]];
      (split; [reflexivity|]);
      cbn [setter fst getter text_of py_str form_value].
    + now rewrite (proj2 (line_round_trip optional s Hp)).
    + now rewrite (proj2 (line_round_trip optional _ Hp)).
    + reflexivity.
  - intros [(s & -> & Hp) | (p & -> & Hp)];
      (split; [reflexivity|]);
      cbn [setter fst getter text_of py_str form_value].
    + now rewrite (proj1 (line_round_trip false s Hp)).
    + now rewrite (proj1 (line_round_trip false _ Hp)).
Qed.

(** *** The bindings *)

Lemma binding_get_set_same n e b : binding_get n (binding_set n e b) = Some e.
Proof.
  induction b as [|[m old] rest IH]; simpl.
  - now rewrite String.eqb_refl.
  - destruct (String.eqb m n) eqn:E; simpl; now rewrite E.
Qed.

Lemma binding_get_set_other n m e b :
  n <> m -> binding_get m (binding_set n e b) = binding_get m b.
Proof.
  intros Hne. induction b as [|[k old] rest IH]; simpl.
  - apply String.eqb_neq in Hne. now rewrite Hne.
  - destruct (String.eqb k n) eqn:E; simpl.
    + apply String.eqb_eq in E. subst k.
      apply String.eqb_neq in Hne. now rewrite Hne.
    + now rewrite IH.
Qed.

Lemma binding_set_names n e e0 b :
  binding_get n b = Some e0 ->
  map fst (binding_set n e b) = map fst b.
Proof.
  induction b as [|[k old] rest IH]; simpl; [discriminate|].
  destruct (String.eqb k n); [reflexivity|].
  intros H. simpl. now rewrite IH.
Qed.

Lemma binding_set_fresh n e b :
  binding_get n b = None -> binding_set n e b = b ++ [(n, e)].
Proof.
  induction b as [|[k old] rest IH]; simpl; [reflexivity|].
  destruct (String.eqb k n); [discriminate|].
  intros H. now rewrite IH.
Qed.

Lemma binding_get_none n b : binding_get n b = None <-> ~ In n (map fst b).
Proof.
  induction b as [|[k old] rest IH]; simpl; [tauto|].
  destruct (String.eqb_spec k n).
  - split; [discriminate|]. intros H. exfalso. apply H. now left.
  - rewrite IH. tauto.
Qed.

Lemma binding_get_in n e b :
  NoDup (map fst b) -> In (n, e) b -> binding_get n b = Some e.
Proof.
  induction b as [|[k old] rest IH]; simpl; [tauto|].
  intros Hnd [[= -> ->]|Hin]; [now rewrite String.eqb_refl|].
  inversion Hnd as [|? ? Hk Hrest]; subst.
  destruct (String.eqb_spec k n) as [->|Hne].
  - exfalso. apply Hk. apply in_map_iff. now exists (n, e).
  - now apply IH.
Qed.

Lemma binding_set_nodup n e b :
  NoDup (map fst b) -> NoDup (map fst (binding_set n e b)).
Proof.
  intros Hnd. destruct (binding_get n b) as [e0|] eqn:Hg.
  - now rewrite (binding_set_names n e e0 b Hg).
  - rewrite (binding_set_fresh n e b Hg), map_app. simpl.
    apply NoDup_app; [assumption|repeat constructor; auto|].
    intros x Hx [<-|[]]. now apply binding_get_none in Hg.
Qed.

Lemma create_bindings_nodup specs :
  forall b b', NoDup (map fst b) -> create_bindings rt specs b = Ok b' ->
               NoDup (map fst b').
Proof.
  induction specs as [|spec rest IH]; simpl; intros b b' Hnd H.
  - now injection H as <-.
  - destruct (_create_editor rt (name spec) (field_annotation spec)
                (default spec)) as [e|ex]; [|discriminate].
    simpl in H. eapply IH; [|exact H]. now apply binding_set_nodup.
Qed.

Lemma init_form cls form :
  init rt cls = Ok form ->
  _session_config_cls form = cls /\ NoDup (map fst (_bindings form)).
Proof.
  unfold init. destruct (iter_model_fields cls) as [specs|]; [|discriminate].
  simpl. destruct (create_bindings rt specs []) as [b|] eqn:Hb; [|discriminate].
  simpl. intros [= <-]. split; [reflexivity|].
  simpl. eapply create_bindings_nodup; [|exact Hb]. constructor.
Qed.

End RoundTripFacts.

Section FormFacts.
Import Form.
Variable rt : runtime.

Lemma dict_get_in_keys n d v :
  dict_get n d = Some v -> In (VStr n) (dict_keys d).
Proof.
  induction d as [|[key x] rest IH]; simpl; [discriminate|].
  destruct (key_is n key) eqn:E.
  - intros _. left. now apply key_is_true.
  - intros H. right. now apply IH.
Qed.

Lemma binding_of_key_some key b n e :
  binding_of_key key b = Some (n, e) ->
  key = VStr n /\ binding_get n b = Some e.
Proof.
  destruct key; simpl; try discriminate.
  destruct (binding_get s b) eqn:E; [|discriminate].
  now intros [= <- <-].
Qed.

Lemma binding_of_key_none key b n :
  binding_of_key key b = None -> key_is n key = true ->
  binding_get n b = None.
Proof.
  intros H Hk. apply key_is_true in Hk. subst key. simpl in H.
  now destruct (binding_get n b).
Qed.

Lemma dict_get_fresh n value rest :
  NoDup (dict_keys ((VStr n, value) :: rest)) -> dict_get n rest = None.
Proof.
  unfold dict_keys. simpl. intros Hnd.
  inversion Hnd as [|? ? Hkey _]; subst.
  destruct (dict_get n rest) as [x|] eqn:Hx; [|reflexivity].
  exfalso. apply Hkey. now apply (dict_get_in_keys n rest x).
Qed.

(** A [set_form_data] that returns normally: the names stay, each editor
    the values name is as its setter left it, and every other editor is
    as it was. *)
Lemma set_data_ok values :
  forall b b',
    NoDup (dict_keys values) ->
    set_data rt values b = (b', Ok tt) ->
    map fst b' = map fst b /\
    forall n e, binding_get n b = Some e ->
      binding_get n b'
      = Some (match dict_get n values with
              | Some v => fst (setter rt e v)
              | None => e
              end).
Proof.
  induction values as [|[key value] rest IH]; intros b b' Hnd Hrun.
  - injection Hrun as <-. split; [reflexivity|]. now intros n e ->.
  - assert (Hrest : NoDup (dict_keys rest))
      by (unfold dict_keys in *; simpl in Hnd; now inversion Hnd).
    simpl in Hrun.
    destruct (binding_of_key key b) as [[name e]|] eqn:Hb.
    + apply binding_of_key_some in Hb. destruct Hb as [-> Hget].
      pose proof (dict_get_fresh name value rest Hnd) as Hfree.
      destruct (setter rt e value) as [e1 [[]|ex]] eqn:Hset;
        [|discriminate].
      destruct (IH _ _ Hrest Hrun) as (Hnames & Hall).
      split; [rewrite Hnames; now apply (binding_set_names name e1 e)|].
      intros n e0 Hg. simpl.
      destruct (string_dec name n) as [<-|Hne].
      * rewrite String.eqb_refl.
        rewrite (Hall name e1 (binding_get_set_same name e1 b)), Hfree.
        rewrite Hget in Hg. injection Hg as <-. now rewrite Hset.
      * assert (String.eqb name n = false) as ->
          by now apply String.eqb_neq.
        apply Hall. now rewrite binding_get_set_other.
    + destruct (IH _ _ Hrest Hrun) as (Hnames & Hall).
      split; [exact Hnames|]. intros n e0 Hg. simpl.
      destruct (key_is n key) eqn:E; [|now apply Hall].
      rewrite (binding_of_key_none key b n Hb E) in Hg. discriminate.
Qed.

(** [set_form_data] with canonical values returns normally. *)
Lemma set_data_canonical values :
  forall b,
    NoDup (dict_keys values) ->
    (forall n e v, binding_get n b = Some e -> dict_get n values = Some v ->
                   canonical rt e v) ->
    snd (set_data rt values b) = Ok tt.
Proof.
  induction values as [|[key value] rest IH]; intros b Hnd Hcan;
    [reflexivity|].
  assert (Hrest : NoDup (dict_keys rest))
    by (unfold dict_keys in *; simpl in Hnd; now inversion Hnd).
  simpl. destruct (binding_of_key key b) as [[name e]|] eqn:Hb.
  - apply binding_of_key_some in Hb. destruct Hb as [-> Hget].
    pose proof (dict_get_fresh name value rest Hnd) as Hfree.
    assert (Hc : canonical rt e value).
    { apply (Hcan name e value Hget). simpl. now rewrite String.eqb_refl. }
    destruct (setter_getter rt e value Hc) as [Hset _].
    destruct (setter rt e value) as [e1 r]. simpl in Hset. subst r.
    apply IH; [exact Hrest|].
    intros n e0 v Hg Hv. destruct (string_dec name n) as [<-|Hne].
    + congruence.
    + rewrite binding_get_set_other in Hg by assumption.
      apply (Hcan n e0 v Hg). simpl.
      assert (String.eqb name n = false) as -> by now apply String.eqb_neq.
      exact Hv.
  - apply IH; [exact Hrest|].
    intros n e0 v Hg Hv. apply (Hcan n e0 v Hg). simpl.
    destruct (key_is n key) eqn:E; [|exact Hv].
    rewrite (binding_of_key_none key b n Hb E) in Hg. discriminate.
Qed.

Lemma dict_set_fresh n v d :
  dict_get n d = None -> dict_set n v d = d ++ [(VStr n, v)].
Proof.
  induction d as [|[key x] rest IH]; simpl; [reflexivity|].
  destruct (key_is n key); [discriminate|].
  intros H. now rewrite IH.
Qed.

Lemma dict_get_app n d1 d2 :
  dict_get n (d1 ++ d2)
  = match dict_get n d1 with Some v => Some v | None => dict_get n d2 end.
Proof.
  induction d1 as [|[key x] rest IH]; simpl; [reflexivity|].
  now destruct (key_is n key).
Qed.

Lemma read_entries_get f b n :
  dict_get n (read_entries f b)
  = if Form.mem n (map fst b) then Some (f n) else None.
Proof.
  unfold Form.mem. induction b as [|[k e] rest IH]; simpl; [reflexivity|].
  rewrite String.eqb_sym. destruct (String.eqb_spec n k) as [->|Hne].
  - reflexivity.
  - exact IH.
Qed.

Lemma get_data_all f b :
  forall acc,
    NoDup (map fst b) ->
    (forall n, In n (map fst b) -> dict_get n acc = None) ->
    (forall n e, In (n, e) b -> getter rt e = Ok (f n)) ->
    get_data rt b acc = Ok (acc ++ read_entries f b).
Proof.
  induction b as [|[k e] rest IH]; intros acc Hnd Hacc Hget; simpl.
  - now rewrite app_nil_r.
  - inversion Hnd as [|? ? Hk Hrest]; subst.
    rewrite (Hget k e) by now left. simpl.
    rewrite dict_set_fresh by (apply Hacc; now left).
    rewrite IH.
    + now rewrite <- app_assoc.
    + assumption.
    + intros n Hn. rewrite dict_get_app, Hacc by now right.
      simpl. destruct (String.eqb_spec k n) as [->|]; [contradiction|reflexivity].
    + intros n e0 Hin. apply Hget. now right.
Qed.

(** What a [get_form_data] that returns holds. *)
Lemma get_data_ok b :
  forall acc data,
    NoDup (map fst b) ->
    (forall n, In n (map fst b) -> dict_get n acc = None) ->
    get_data rt b acc = Ok data ->
    dict_keys data = dict_keys acc ++ map VStr (map fst b) /\
    (forall n e, In (n, e) b ->
                 exists v, getter rt e = Ok v /\ dict_get n data = Some v) /\
    (forall n, ~ In n (map fst b) -> dict_get n data = dict_get n acc).
Proof.
  induction b as [|[k e] rest IH]; intros acc data Hnd Hfresh H;
    simpl in H.
  - injection H as <-. rewrite app_nil_r. repeat split; auto.
    intros n e [].
  - inversion Hnd as [|? ? Hk Hrest]; subst.
    destruct (getter rt e) as [v|ex] eqn:Hg; simpl in H; [|discriminate].
    rewrite (dict_set_fresh k v acc) in H by (apply Hfresh; now left).
    assert (Hfresh' : forall n, In n (map fst rest) ->
                        dict_get n (acc ++ [(VStr k, v)]) = None).
    { intros n Hn. rewrite dict_get_app, Hfresh by now right.
      simpl. destruct (String.eqb_spec k n) as [->|]; [contradiction|].
      reflexivity. }
    destruct (IH _ _ Hrest Hfresh' H) as (Hkeys & Hall & Hother).
    split; [|split].
    + rewrite Hkeys. unfold dict_keys. rewrite map_app, <- app_assoc.
      reflexivity.
    + intros n e0 [[= <- <-]|Hin]; [|now apply Hall].
      exists v. split; [assumption|].
      rewrite Hother by assumption.
      rewrite dict_get_app, Hfresh by now left.
      simpl. now rewrite String.eqb_refl.
    + intros n Hn. rewrite Hother by (intros Hx; apply Hn; now right).
      rewrite dict_get_app. destruct (dict_get n acc); [reflexivity|].
      simpl. destruct (String.eqb_spec k n) as [->|]; [|reflexivity].
      exfalso. apply Hn. now left.
Qed.

Lemma in_binding_get n e b : binding_get n b = Some e -> In (n, e) b.
Proof.
  induction b as [|[k old] rest IH]; simpl; [discriminate|].
  destruct (String.eqb_spec k n) as [->|].
  - intros [= ->]. now left.
  - intros H. right. now apply IH.
Qed.

Lemma mem_true_iff x l : Form.mem x l = true <-> In x l.
Proof.
  destruct (Form.mem x l) eqn:E.
  - split; [|reflexivity]. intros _.
    destruct (in_dec string_dec x l) as [H|H]; [assumption|].
    apply mem_false_iff in H. congruence.
  - apply mem_false_iff in E. split; [discriminate|contradiction].
Qed.

End FormFacts.

(** C2 as stated fails: a string with white space around it does not come
    back.  For the instance whose [pattern] is [" *.tif"], the form returns
    ["*.tif"], and [to_session_config] builds the model from that. *)
Lemma form_strips_padded_text :
  Form.init Form.tiny_runtime Form.example_class
  = Ok (Form.mk_form Form.example_class Form.example_bindings) /\
  model_to_dict Form.padded_config
  = Ok [ (VStr "pattern", VStr " *.tif"); (VStr "resume", VBool true);
         (VStr "n_jobs", VInt 4) ] /\
  (let after :=
     Form.set_from_config Form.tiny_runtime Form.padded_config
       (Form.mk_form Form.example_class Form.example_bindings) in
   snd after = Ok tt /\
   Form.get_form_data Form.tiny_runtime (fst after)
   = Ok [ (VStr "pattern", VStr "*.tif"); (VStr "resume", VBool true);
          (VStr "n_jobs", VInt 4) ] /\
   Form.to_session_config Form.tiny_runtime (fst after)
   = Ok (mk_model
           (Some [ (VStr "pattern", VStr "*.tif"); (VStr "resume", VBool true);
                   (VStr "n_jobs", VInt 4) ]) None None) /\
   Form.to_session_config Form.tiny_runtime (fst after)
   <> Ok Form.padded_config) /\
  ~ (forall rt cls form config dumped form' data n,
        Form.init rt cls = Ok form ->
        model_to_dict config = Ok dumped ->
        Form.set_from_config rt config form = (form', Ok tt) ->
        Form.get_form_data rt form' = Ok data ->
        In n (map fst (Form._bindings form)) ->
        dict_get n data = dict_get n dumped).
Proof.
  split; [reflexivity|]. split; [reflexivity|].
  split; [repeat split; discriminate|].
  intros H.
  specialize (H Form.tiny_runtime Form.example_class _ Form.padded_config
                _ _ _ "pattern" eq_refl eq_refl eq_refl eq_refl).
  simpl in H. specialize (H (or_introl eq_refl)). discriminate H.
Qed.

(** C2, amended: the form gives back the values it keeps, field by field.
    A value is kept by the editor of its field when it is a bool for a
    check box, an int within the range of the spin box, a float the double
    spin box does not round, one of the options for a combo box, a dict
    that JSON carries through for the JSON editors, and, for a line edit
    or a path picker, a text without white space around it and of at most
    32767 characters, a [Path] whose string is such a text, or [None] for
    an optional field.  When [set_from_config] returns normally, the
    getter of every field whose value is kept returns that value, a
    [Path] as its string; what [get_form_data] then returns has one entry
    per field of the form, holds that value for every such field, whatever
    the other fields hold, and is what [to_session_config] builds the
    model from.  When every field of the form has a value it keeps, both
    [set_from_config] and [get_form_data] return normally. *)
Theorem form_round_trip_canonical :
  forall (rt : Form.runtime) (cls : Form.model_class)
         (form : Form.SessionConfigForm) (config : model) (dumped : entries),
    Form.init rt cls = Ok form ->
    model_to_dict config = Ok dumped ->
    NoDup (dict_keys dumped) ->
    let after := Form.set_from_config rt config form in
    (snd after = Ok tt ->
     (forall n e v,
         In (n, e) (Form._bindings form) -> dict_get n dumped = Some v ->
         Form.canonical rt e v ->
         exists e',
           Form.binding_get n (Form._bindings (fst after)) = Some e' /\
           Form.getter rt e' = Ok (Form.form_value v)) /\
     (forall data,
         Form.get_form_data rt (fst after) = Ok data ->
         dict_keys data = map VStr (map fst (Form._bindings form)) /\
         (forall n e v,
             In (n, e) (Form._bindings form) -> dict_get n dumped = Some v ->
             Form.canonical rt e v ->
             dict_get n data = Some (Form.form_value v)) /\
         Form.to_session_config rt (fst after) = Form.construct cls data)) /\
    ((forall n e, In (n, e) (Form._bindings form) ->
                  exists v, dict_get n dumped = Some v /\
                            Form.canonical rt e v) ->
     snd after = Ok tt /\
     exists data, Form.get_form_data rt (fst after) = Ok data).
Proof.
  intros rt cls form config dumped Hinit Hdump Hnd after. subst after.
  destruct (init_form rt cls form Hinit) as [Hcls Hnames].
  unfold Form.set_from_config, Form.set_form_data. rewrite Hdump.
  pose proof (set_data_ok rt dumped (Form._bindings form)) as Hok.
  pose proof (set_data_canonical rt dumped (Form._bindings form) Hnd) as Hsucc.
  destruct (Form.set_data rt dumped (Form._bindings form)) as [b' r].
  cbn [fst snd Form._bindings Form._session_config_cls] in *.
  assert (Hfield : r = Ok tt ->
            map fst b' = map fst (Form._bindings form) /\
            forall n e v,
              In (n, e) (Form._bindings form) -> dict_get n dumped = Some v ->
              Form.canonical rt e v ->
              exists e', Form.binding_get n b' = Some e' /\
                         Form.getter rt e' = Ok (Form.form_value v)).
  { intros ->. destruct (Hok b' Hnd eq_refl) as (Hsame & Hall).
    split; [exact Hsame|]. intros n e v Hin Hv Hc.
    exists (fst (Form.setter rt e v)). split.
    - rewrite (Hall n e (binding_get_in n e _ Hnames Hin)). now rewrite Hv.
    - now apply setter_getter. }
  split.
  - intros Hr. destruct (Hfield Hr) as (Hsame & Hall).
    split; [exact Hall|].
    intros data Hget. unfold Form.get_form_data in Hget. simpl in Hget.
    destruct (get_data_ok rt b' [] data) as (Hkeys & Hdata & _);
      [now rewrite Hsame|reflexivity|exact Hget|].
    split; [now rewrite Hkeys, Hsame|]. split.
    + intros n e v Hin Hv Hc.
      destruct (Hall n e v Hin Hv Hc) as (e' & Hg' & Hgetter).
      destruct (Hdata n e' (in_binding_get n e' b' Hg')) as (v' & Hv' & Hd).
      congruence.
    + unfold Form.to_session_config, Form.get_form_data. simpl.
      rewrite Hget. simpl. unfold Form.build_model. now rewrite Hcls.
  - intros Hcan.
    assert (Hr : r = Ok tt).
    { apply Hsucc. intros n e v Hg Hv. apply in_binding_get in Hg.
      destruct (Hcan n e Hg) as (v' & Hv' & Hc). congruence. }
    split; [exact Hr|]. destruct (Hfield Hr) as (Hsame & Hall).
    set (f := fun n => match dict_get n dumped with
                       | Some v => Form.form_value v
                       | None => VNone
                       end).
    exists (Form.read_entries f b'). unfold Form.get_form_data. simpl.
    rewrite (get_data_all rt f b' []); [reflexivity| | |].
    + now rewrite Hsame.
    + reflexivity.
    + intros n e' Hin.
      assert (Hg' : Form.binding_get n b' = Some e')
        by (apply binding_get_in; [now rewrite Hsame|assumption]).
      assert (Hn : In n (map fst (Form._bindings form))).
      { rewrite <- Hsame. apply in_map_iff. now exists (n, e'). }
      destruct (Form.binding_get n (Form._bindings form)) as [e|] eqn:Hg;
        [|apply binding_get_none in Hg; contradiction].
      apply in_binding_get in Hg.
      destruct (Hcan n e Hg) as (v & Hv & Hc).
      destruct (Hall n e v Hg Hv Hc) as (e2 & Hg2 & Hgetter).
      unfold f. rewrite Hv. congruence.
Qed.

Lemma form_round_trip_canonical_witness :
  let after :=
    Form.set_from_config Form.tiny_runtime Form.rooted_config
      (Form.mk_form Form.rooted_class Form.rooted_bindings) in
  (exists e',
      Form.binding_get "root" (Form._bindings (fst after)) = Some e' /\
      Form.getter Form.tiny_runtime e' = Ok (VStr "/data/session")) /\
  (forall data,
      Form.get_form_data Form.tiny_runtime (fst after) = Ok data ->
      dict_get "root" data = Some (VStr "/data/session") /\
      dict_get "resume" data = Some (VBool true) /\
      Form.to_session_config Form.tiny_runtime (fst after)
      = Form.construct Form.rooted_class data).
Proof.
  intros after.
  destruct (form_round_trip_canonical Form.tiny_runtime Form.rooted_class
              (Form.mk_form Form.rooted_class Form.rooted_bindings)
              Form.rooted_config
              [ (VStr "root", VPath (PosixPath.parse "/data/session"));
                (VStr "pattern", VStr " *.tif");
                (VStr "resume", VBool true) ])
    as [Hkept _].
  - reflexivity.
  - reflexivity.
  - repeat constructor; simpl; intuition discriminate.
  - destruct (Hkept eq_refl) as [Hfield Hdata].
    assert (Hroot : Form.canonical Form.tiny_runtime
                      (Form.PathPicker true false "")
                      (VPath (PosixPath.parse "/data/session"))).
    { right. left. exists (PosixPath.parse "/data/session").
      split; [reflexivity|]. split; [reflexivity|].
      split; [vm_compute; discriminate|discriminate]. }
    split.
    + exact (Hfield "root" _ _ (or_introl eq_refl) eq_refl Hroot).
    + intros data Hget. destruct (Hdata data Hget) as (_ & Hall & Hbuild).
      split; [exact (Hall "root" _ _ (or_introl eq_refl) eq_refl Hroot)|].
      split; [|exact Hbuild].
      apply (Hall "resume" (Form.CheckBox false) (VBool true));
        [simpl; auto|reflexivity|now exists true].
Defined.

Example rooted_form_example :
  Form.init Form.tiny_runtime Form.rooted_class
  = Ok (Form.mk_form Form.rooted_class Form.rooted_bindings) /\
  Form.get_form_data Form.tiny_runtime
    (fst (Form.set_from_config Form.tiny_runtime Form.rooted_config
            (Form.mk_form Form.rooted_class Form.rooted_bindings)))
  = Ok [ (VStr "root", VStr "/data/session"); (VStr "pattern", VStr "*.tif");
         (VStr "resume", VBool true) ].
Proof. split; reflexivity. Qed.

Example form_round_trip_example :
  Form.to_session_config Form.tiny_runtime
    (fst (Form.set_from_config Form.tiny_runtime Form.plain_config
            (Form.mk_form Form.example_class Form.example_bindings)))
  = Ok Form.plain_config.
Proof. reflexivity. Qed.

(** * Further properties *)

(** ** serialization.py: when nothing is rewritten *)

Section NoRewriteFacts.

Lemma maybe_relative_unusable v rootp prefer :
  prefer = false \/ usable_root rootp = false ->
  _maybe_relative v rootp prefer = v.
Proof.
  intros H. destruct prefer; [|reflexivity].
  destruct H as [H|H]; [discriminate|].
  destruct rootp as [r|]; [|reflexivity].
  destruct v; try reflexivity. simpl in *. rewrite H.
  now rewrite orb_true_r.
Qed.

Lemma rewrite_fields_id order rootp prefer :
  (forall v, _maybe_relative v rootp prefer = v) ->
  forall d, rewrite_fields order rootp prefer d = d.
Proof.
  intros Hid. induction order as [|f order IH]; intros d; [reflexivity|].
  simpl. destruct (dict_get f d) as [v|] eqn:Hg; [|apply IH].
  rewrite Hid, (dict_set_get_id f v d Hg). apply IH.
Qed.

Lemma rewrite_flow_options_id rootp prefer d :
  (forall v, _maybe_relative v rootp prefer = v) ->
  rewrite_flow_options rootp prefer d = d.
Proof.
  intros Hid. unfold rewrite_flow_options.
  destruct (dict_get "flow_options" d) as [v|] eqn:Hg; [|reflexivity].
  destruct v; try reflexivity.
  rewrite Hid. now apply dict_set_get_id.
Qed.

End NoRewriteFacts.

(** X1: when [prefer_relative] is false, or the dump has no usable root
    (no [root] key, a [root] that is no string, the empty string or a
    relative path), [serialize_config_to_yaml] writes exactly the dump
    after the conversion of paths and tuples: no field is touched. *)
Theorem serialize_without_usable_root :
  forall (config : model) (path : PosixPath.path_like)
         (prefer_relative : bool) (dumped : entries),
    model_to_dict config = Ok dumped ->
    prefer_relative = false
    \/ usable_root (root_path_of (convert_entries dumped)) = false ->
    serialize_config_to_yaml config path prefer_relative
    = Ok (mk_yaml (PosixPath.of_like path) (VDict (convert_entries dumped))).
Proof.
  intros config path prefer dumped Hm H.
  rewrite (serialize_unfold config path prefer dumped Hm).
  assert (Hid : forall v,
             _maybe_relative v (root_path_of (convert_entries dumped)) prefer
             = v)
    by (intros v; now apply maybe_relative_unusable).
  rewrite rewrite_fields_id by assumption.
  now rewrite rewrite_flow_options_id.
Qed.

Lemma serialize_without_usable_root_witness :
  serialize_config_to_yaml
    (mk_model (Some [ (VStr "root", VStr "data/session");
                      (VStr "output_root", VStr "/data/session/out") ])
       None None)
    example_path true
  = Ok (mk_yaml (PosixPath.of_like example_path)
          (VDict (convert_entries
                    [ (VStr "root", VStr "data/session");
                      (VStr "output_root", VStr "/data/session/out") ]))).
Proof.
  apply (serialize_without_usable_root _ example_path true
           [ (VStr "root", VStr "data/session");
             (VStr "output_root", VStr "/data/session/out") ]).
  - reflexivity.
  - right. reflexivity.
Defined.

(** ** serialization.py: writing what was written *)

Section ReserializeFacts.

Lemma convert_entries_clean d : all_clean (convert_entries d).
Proof.
  unfold all_clean, convert_entries. apply Forall_forall.
  intros [k v] Hin. apply in_map_iff in Hin.
  destruct Hin as ([k' v'] & [= <- <-] & _). apply convert_clean.
Qed.

Lemma convert_entries_id d : all_clean d -> convert_entries d = d.
Proof.
  induction 1 as [|[k v] rest Hv _ IH]; [reflexivity|].
  simpl in *. now rewrite IH, (convert_id_on_clean v Hv).
Qed.

Lemma maybe_relative_clean v rootp prefer :
  clean v = true -> clean (_maybe_relative v rootp prefer) = true.
Proof.
  intros Hc.
  destruct (maybe_relative_cases v rootp prefer)
    as [-> | (s & r & rel & _ & _ & _ & _ & _ & _ & ->)];
    [assumption|reflexivity].
Qed.

Lemma dict_set_clean k v d :
  clean v = true -> all_clean d -> all_clean (dict_set k v d).
Proof.
  intros Hv. induction 1 as [|[key old] rest Hold Hrest IH]; simpl.
  - repeat constructor. exact Hv.
  - destruct (key_is k key); constructor; assumption.
Qed.

Lemma dict_get_clean k d v : all_clean d -> dict_get k d = Some v -> clean v = true.
Proof.
  induction 1 as [|[key old] rest Hold _ IH]; simpl; [discriminate|].
  destruct (key_is k key); [now intros [= <-]|exact IH].
Qed.

Lemma rewrite_fields_clean order rootp prefer :
  forall d, all_clean d -> all_clean (rewrite_fields order rootp prefer d).
Proof.
  induction order as [|f order IH]; intros d Hd; [exact Hd|].
  simpl. apply IH. destruct (dict_get f d) as [v|] eqn:Hg; [|exact Hd].
  apply dict_set_clean; [|exact Hd].
  apply maybe_relative_clean. now apply (dict_get_clean f d).
Qed.

Lemma rewrite_flow_options_clean rootp prefer d :
  all_clean d -> all_clean (rewrite_flow_options rootp prefer d).
Proof.
  intros Hd. unfold rewrite_flow_options.
  destruct (dict_get "flow_options" d) as [v|] eqn:Hg; [|exact Hd].
  destruct v; try exact Hd.
  apply dict_set_clean; [|exact Hd]. now apply maybe_relative_clean.
Qed.

(** A loop over fields whose values [_maybe_relative] leaves alone changes
    nothing. *)
Lemma rewrite_fields_fixed order rootp prefer d :
  (forall f w, In f order -> dict_get f d = Some w ->
               _maybe_relative w rootp prefer = w) ->
  rewrite_fields order rootp prefer d = d.
Proof.
  induction order as [|f order IH]; intros H; [reflexivity|].
  simpl. destruct (dict_get f d) as [w|] eqn:Hg.
  - rewrite (H f w) by (auto; now left).
    rewrite (dict_set_get_id f w d Hg).
    apply IH. intros g x Hin. apply H. now right.
  - apply IH. intros g x Hin. apply H. now right.
Qed.

Lemma maybe_relative_twice v rootp prefer :
  _maybe_relative (_maybe_relative v rootp prefer) rootp prefer
  = _maybe_relative v rootp prefer.
Proof.
  destruct (maybe_relative_cases v rootp prefer)
    as [Hsame | (s & r & rel & Hp & Hr & Hv & _ & _ & Hrel & Hres)].
  - now rewrite !Hsame.
  - rewrite Hres. subst. simpl.
    now rewrite (relative_str_not_absolute s r rel Hrel).
Qed.

Lemma rewrite_fields_get order rootp prefer f :
  NoDup order -> In f order ->
  forall d,
    dict_get f (rewrite_fields order rootp prefer d)
    = match dict_get f d with
      | Some v => Some (_maybe_relative v rootp prefer)
      | None => None
      end.
Proof.
  induction order as [|g order IH]; intros Hnd Hin d; [destruct Hin|].
  inversion Hnd as [|? ? Hng Hnd']; subst. simpl.
  destruct Hin as [->|Hin].
  - rewrite rewrite_fields_get_other by assumption.
    destruct (dict_get f d) eqn:E; [apply dict_get_set_same|exact E].
  - rewrite IH by assumption.
    destruct (dict_get g d) as [x|]; [|reflexivity].
    rewrite dict_get_set_other; [reflexivity|]. intros ->. contradiction.
Qed.

End ReserializeFacts.

(** X2: serializing is idempotent on the data: a model that dumps the data
    [serialize_config_to_yaml] wrote is written as the same data again,
    with the same flag. *)
Theorem serialize_written_data_again :
  forall (config again : model) (path : PosixPath.path_like)
         (prefer_relative : bool) (dumped out : entries),
    model_to_dict config = Ok dumped ->
    serialize_config_to_yaml config path prefer_relative
    = Ok (mk_yaml (PosixPath.of_like path) (VDict out)) ->
    model_to_dict again = Ok out ->
    serialize_config_to_yaml again path prefer_relative
    = Ok (mk_yaml (PosixPath.of_like path) (VDict out)).
Proof.
  intros config again path prefer dumped out Hm Hser Hagain.
  rewrite (serialize_unfold config path prefer dumped Hm) in Hser.
  remember (convert_entries dumped) as conv eqn:Hconv.
  remember (root_path_of conv) as rootp eqn:Hrootp.
  remember (rewrite_fields RELATIVE_PATH_FIELDS rootp prefer conv) as d1
    eqn:Hd1.
  injection Hser as Hout.
  assert (Hclean : all_clean out).
  { rewrite <- Hout, Hd1, Hconv. apply rewrite_flow_options_clean.
    apply rewrite_fields_clean. apply convert_entries_clean. }
  assert (Hroot : root_path_of out = rootp).
  { rewrite Hrootp. unfold root_path_of. rewrite <- Hout.
    rewrite rewrite_flow_options_get_other by discriminate.
    rewrite Hd1. rewrite rewrite_fields_get_other;
      [reflexivity|simpl; intuition discriminate]. }
  rewrite (serialize_unfold again path prefer out Hagain).
  rewrite (convert_entries_id out Hclean), Hroot.
  assert (Hfields : rewrite_fields RELATIVE_PATH_FIELDS rootp prefer out = out).
  { apply rewrite_fields_fixed. intros f w Hin Hg.
    rewrite <- Hout in Hg.
    rewrite rewrite_flow_options_get_other in Hg
      by (intros ->; now apply flow_options_not_relative).
    rewrite Hd1 in Hg.
    rewrite (rewrite_fields_get RELATIVE_PATH_FIELDS rootp prefer f
               relative_fields_nodup Hin) in Hg.
    destruct (dict_get f conv) as [v|]; [|discriminate].
    injection Hg as <-. apply maybe_relative_twice. }
  rewrite Hfields.
  assert (Hflow : rewrite_flow_options rootp prefer out = out).
  { unfold rewrite_flow_options.
    destruct (dict_get "flow_options" out) as [w|] eqn:Hg; [|reflexivity].
    destruct w; try reflexivity.
    assert (Hfix : _maybe_relative (VStr s) rootp prefer = VStr s).
    { rewrite <- Hout in Hg.
      destruct (dict_get "flow_options" d1) as [v|] eqn:Hv.
      - rewrite (rewrite_flow_options_get rootp prefer d1 v Hv) in Hg.
        injection Hg as Hg. rewrite <- Hg. apply maybe_relative_twice.
      - unfold rewrite_flow_options in Hg. rewrite Hv in Hg. congruence. }
    rewrite Hfix. now apply dict_set_get_id. }
  now rewrite Hflow.
Qed.

Lemma serialize_written_data_again_witness :
  serialize_config_to_yaml
    (model_of_data
       [ (VStr "root", VStr "/data/session");
         (VStr "pattern", VStr "*.tif");
         (VStr "output_root", VStr "out");
         (VStr "final_results", VStr "/data/session2/final");
         (VStr "center", VStr ".");
         (VStr "resume", VBool true);
         (VStr "flow_options", VDict [(VStr "levels", VInt 3)]) ])
    example_path true
  = Ok (mk_yaml (PosixPath.of_like example_path)
          (VDict [ (VStr "root", VStr "/data/session");
                   (VStr "pattern", VStr "*.tif");
                   (VStr "output_root", VStr "out");
                   (VStr "final_results", VStr "/data/session2/final");
                   (VStr "center", VStr ".");
                   (VStr "resume", VBool true);
                   (VStr "flow_options", VDict [(VStr "levels", VInt 3)]) ])).
Proof.
  apply (serialize_written_data_again example_config _ example_path true
           example_dump); reflexivity.
Defined.

(** ** serialization.py: the relative path leads back *)

Section JoinFacts.
Import PyStr PosixPath.

Lemma split_slash_app x y :
  split_slash (x ++ String slash y)%string = split_slash x ++ split_slash y.
Proof.
  induction x as [|c r IH]; simpl.
  - reflexivity.
  - destruct (eqb_ascii c slash).
    + now rewrite IH.
    + rewrite IH. pose proof (split_slash_not_nil r) as Hne.
      destruct (split_slash r); [congruence|reflexivity].
Qed.

Lemma parse_eq p :
  parse p
  = mk (fst (splitroot p)) (filter keep_part (split_slash (snd (splitroot p)))).
Proof.
  unfold parse. destruct p as [|c r]; [reflexivity|].
  now destruct (splitroot (String c r)).
Qed.

Lemma splitroot_relative t :
  starts_with_slash t = false -> splitroot t = ("", t).
Proof.
  destruct t as [|c r]; simpl; [reflexivity|]. now intros ->.
Qed.

Lemma splitroot_app r t :
  starts_with_slash r = true ->
  (ends_with_slash r = true -> starts_with_slash t = false) ->
  splitroot (r ++ t)%string
  = (fst (splitroot r), (snd (splitroot r) ++ t)%string).
Proof.
  destruct r as [|c1 r1]; [discriminate|].
  cbn [starts_with_slash]. intros Hc1.
  destruct r1 as [|c2 r2].
  - cbn [ends_with_slash]. intros Ht. specialize (Ht Hc1).
    cbn [append splitroot]. rewrite Hc1.
    destruct t as [|c t']; [reflexivity|].
    cbn [starts_with_slash] in Ht. now rewrite Ht.
  - destruct r2 as [|c3 r3].
    + cbn [ends_with_slash]. intros Ht.
      cbn [append splitroot]. rewrite Hc1.
      destruct (eqb_ascii c2 slash) eqn:Hc2; [|reflexivity].
      specialize (Ht eq_refl).
      destruct t as [|c t']; [reflexivity|].
      cbn [starts_with_slash] in Ht. now rewrite Ht.
    + intros _. cbn [append splitroot]. rewrite Hc1.
      destruct (eqb_ascii c2 slash); [|reflexivity].
      now destruct (eqb_ascii c3 slash).
Qed.

Lemma ends_with_slash_inv u :
  ends_with_slash u = true -> exists x, u = (x ++ String slash "")%string.
Proof.
  induction u as [|c r IH]; [discriminate|].
  destruct r as [|c' r'].
  - simpl. intros H. apply eqb_ascii_true in H. subst. now exists "".
  - intros H. change (ends_with_slash (String c' r') = true) in H.
    destruct (IH H) as (x & Hx). exists (String c x). simpl. now rewrite <- Hx.
Qed.

Lemma split_trailing_slash x :
  filter keep_part (split_slash (x ++ String slash "")%string)
  = filter keep_part (split_slash x).
Proof.
  rewrite split_slash_app, filter_app. simpl. apply app_nil_r.
Qed.

Lemma string_app_assoc (a b c : string) :
  ((a ++ b) ++ c = a ++ (b ++ c))%string.
Proof. induction a as [|x a IH]; simpl; [reflexivity|now rewrite IH]. Qed.

(** The part after the root of a path that ends with a slash is empty or
    ends with a slash. *)
Lemma splitroot_rest_ends r :
  starts_with_slash r = true -> ends_with_slash r = true ->
  snd (splitroot r) = "" \/ ends_with_slash (snd (splitroot r)) = true.
Proof.
  destruct r as [|c1 r1]; [discriminate|].
  cbn [starts_with_slash]. intros Hc1.
  destruct r1 as [|c2 r2].
  - intros _. cbn [splitroot]. rewrite Hc1. now left.
  - change (ends_with_slash (String c1 (String c2 r2)))
      with (ends_with_slash (String c2 r2)).
    destruct r2 as [|c3 r3].
    + cbn [ends_with_slash splitroot]. rewrite Hc1. intros Hc2.
      rewrite Hc2. now left.
    + change (ends_with_slash (String c2 (String c3 r3)))
        with (ends_with_slash (String c3 r3)).
      intros H. cbn [splitroot]. rewrite Hc1.
      destruct (eqb_ascii c2 slash); [|now right].
      destruct (eqb_ascii c3 slash); now right.
Qed.

Lemma filter_split_join u t :
  u = "" \/ ends_with_slash u = true ->
  filter keep_part (split_slash (u ++ t)%string)
  = filter keep_part (split_slash u) ++ filter keep_part (split_slash t).
Proof.
  intros [->|He]; [reflexivity|].
  destruct (ends_with_slash_inv u He) as (x & ->).
  rewrite string_app_assoc. simpl.
  rewrite split_slash_app, filter_app. now rewrite split_trailing_slash.
Qed.

Lemma relative_str_parts rest :
  Forall wf_part rest ->
  starts_with_slash (to_str (mk "" rest)) = false /\
  filter keep_part (split_slash (to_str (mk "" rest))) = rest.
Proof.
  intros HF. pose proof (to_str_relative rest HF) as Hs.
  split; [exact Hs|].
  pose proof (parse_to_str_relative rest HF) as Hp.
  rewrite parse_eq, (splitroot_relative _ Hs) in Hp. simpl in Hp.
  now injection Hp.
Qed.

(** [Path(r) / t] for an absolute [r] and the string [t] of a relative
    path with the components [rest]. *)
Lemma div_relative r rest :
  starts_with_slash r = true -> Forall wf_part rest ->
  div r (to_str (mk "" rest))
  = mk (root (parse r)) (tail (parse r) ++ rest).
Proof.
  intros Hr HF. destruct (relative_str_parts rest HF) as [Ht Hparts].
  unfold div, posix_join. rewrite Ht.
  assert (Hne : String.eqb r "" = false) 
    by (destruct r; [discriminate Hr|reflexivity]).
  rewrite Hne. simpl orb. rewrite (parse_eq r). simpl root. simpl tail.
  destruct (ends_with_slash r) eqn:He.
  - rewrite parse_eq, splitroot_app by (try assumption; intros _; exact Ht).
    simpl fst. simpl snd. f_equal.
    rewrite filter_split_join by now apply splitroot_rest_ends.
    now rewrite Hparts.
  - rewrite parse_eq, splitroot_app by (try assumption; intros; congruence).
    simpl fst. simpl snd. f_equal.
    rewrite split_slash_app, filter_app. now rewrite Hparts.
Qed.

End JoinFacts.

(** X3: a rewritten path leads back: when [_maybe_relative] replaces the
    string [s] by a relative path under the root [r], joining that path to
    the root, [Path(r) / rel], is the path of [s] again. *)
Theorem relative_path_leads_back :
  forall (s r rel : string),
    _maybe_relative (VStr s) (Some (PosixPath.parse r)) true = VStr rel ->
    rel <> s ->
    PosixPath.div r rel = PosixPath.parse s.
Proof.
  intros s r rel Hmr Hne.
  destruct (maybe_relative_cases (VStr s) (Some (PosixPath.parse r)) true)
    as [Hsame | (s' & r' & p & _ & [= <-] & [= <-] & Has & Har & Hrel & Hres)].
  - rewrite Hsame in Hmr. congruence.
  - rewrite Hres in Hmr. injection Hmr as <-.
    destruct (relative_to_wf s (PosixPath.parse r) p Hrel) as [Hroot HF].
    apply relative_to_spec in Hrel. destruct Hrel as (Hroots & _ & Htail).
    rewrite parse_is_absolute in Har.
    destruct p as [pr pt]. simpl in *. subst pr.
    rewrite (div_relative r pt Har HF).
    rewrite <- Hroots, <- Htail. now destruct (PosixPath.parse s).
Qed.

Lemma relative_path_leads_back_witness :
  PosixPath.div "/data//session/" "out/a.tif"
  = PosixPath.parse "/data/session/./out/a.tif".
Proof.
  apply (relative_path_leads_back "/data/session/./out/a.tif"
           "/data//session/" "out/a.tif").
  - reflexivity.
  - discriminate.
Defined.

(** X4: the loop over the set [RELATIVE_PATH_FIELDS] gives the same file
    in whatever order Python iterates the set. *)
Theorem serialize_order_independent :
  forall (order : list string) (config : model) (path : PosixPath.path_like)
         (prefer_relative : bool),
    Permutation RELATIVE_PATH_FIELDS order ->
    serialize_in_order order config path prefer_relative
    = serialize_config_to_yaml config path prefer_relative.
Proof. exact serialize_any_order. Qed.

Lemma serialize_order_independent_witness :
  serialize_in_order ["center"; "output_root"; "final_results"]
    example_config example_path true
  = serialize_config_to_yaml example_config example_path true.
Proof.
  apply (serialize_order_independent
           ["center"; "output_root"; "final_results"]).
  unfold RELATIVE_PATH_FIELDS.
  apply Permutation_sym.
  apply (perm_trans (l' := ["output_root"; "center"; "final_results"])).
  - apply perm_swap.
  - apply perm_skip. apply perm_swap.
Defined.

(** ** local_runner.py: the runner script when something raises *)

(** X5: whatever the pipeline does, the stages the script calls are a
    leading part of the stages its mode asks for, the whole of them when
    the script ends normally; and stage 3 is only ever called with the
    configuration that was loaded and the results stage 2 returned. *)
Theorem runner_script_calls_prefix_of_plan :
  forall (Config Displacements : Type)
         (lib : Script.pipeline Config Displacements)
         (argv0 cfg_path mode : string),
    let x := Script.main lib [argv0; cfg_path; mode] in
    (exists rest,
        planned_stages mode = Script.stages_called (fst x) ++ rest) /\
    (snd x = Ok tt -> Script.stages_called (fst x) = planned_stages mode) /\
    (forall c m d,
        In (Script.Call3 c m d) (fst x) ->
        Script.from_file lib cfg_path = Ok c /\
        Script.run_stage2 lib c = Ok (m, d)).
Proof.
  intros Config Displacements lib argv0 cfg_path mode x. subst x.
  unfold planned_stages, Script.main, Script.bind, Script.lift, Script.emit,
    Script.call, Script.raise, Script.argv_at.
  simpl nth_error. cbv iota beta.
  destruct (Script.from_file lib cfg_path) as [config|e] eqn:Hf; simpl.
  2:{ split; [eexists; reflexivity|].
      split; [discriminate|intros c m d []]. }
  destruct (String.eqb mode "all"); [|destruct (String.eqb mode "stage1");
    [|destruct (String.eqb mode "stage2");
      [|destruct (String.eqb mode "stage3")]]]; simpl.
  - destruct (Script.run_stage1 lib config) as [[]|e1]; simpl.
    2:{ split; [eexists; reflexivity|].
        split; [discriminate|].
        intros c m d [H|[H|[H|[]]]]; discriminate H. }
    destruct (Script.run_stage2 lib config) as [[mid disp]|e2] eqn:H2; simpl.
    2:{ split; [eexists; reflexivity|].
        split; [discriminate|].
        intros c m d [H|[H|[H|[H|[H|[]]]]]]; discriminate H. }
    destruct (Script.run_stage3 lib config mid disp) as [[]|e3]; simpl.
    + split; [exists []; reflexivity|]. split; [reflexivity|].
      intros c m d [H|[H|[H|[H|[H|[H|[H|[H|[]]]]]]]]]; try discriminate H.
      injection H as <- <- <-. now split.
    + split; [exists []; reflexivity|]. split; [discriminate|].
      intros c m d [H|[H|[H|[H|[H|[H|[H|[]]]]]]]]; try discriminate H.
      injection H as <- <- <-. now split.
  - destruct (Script.run_stage1 lib config) as [[]|e1]; simpl.
    + split; [exists []; reflexivity|]. split; [reflexivity|].
      intros c m d [H|[H|[H|[]]]]; discriminate H.
    + split; [exists []; reflexivity|]. split; [discriminate|].
      intros c m d [H|[H|[]]]; discriminate H.
  - destruct (Script.run_stage2 lib config) as [[mid disp]|e2]; simpl.
    + split; [exists []; reflexivity|]. split; [reflexivity|].
      intros c m d [H|[H|[H|[]]]]; discriminate H.
    + split; [eexists; reflexivity|]. split; [discriminate|].
      intros c m d [H|[H|[]]]; discriminate H.
  - destruct (Script.run_stage2 lib config) as [[mid disp]|e2] eqn:H2; simpl.
    2:{ split; [eexists; reflexivity|]. split; [discriminate|].
        intros c m d [H|[H|[]]]; discriminate H. }
    destruct (Script.run_stage3 lib config mid disp) as [[]|e3]; simpl.
    + split; [exists []; reflexivity|]. split; [reflexivity|].
      intros c m d [H|[H|[H|[H|[]]]]]; try discriminate H.
      injection H as <- <- <-. now split.
    + split; [exists []; reflexivity|]. split; [discriminate|].
      intros c m d [H|[H|[H|[]]]]; try discriminate H.
      injection H as <- <- <-. now split.
  - split; [exists []; reflexivity|]. split; [discriminate|].
    intros c m d [H|[]]; discriminate H.
Qed.

Lemma runner_script_calls_prefix_of_plan_witness :
  Script.stages_called
    (fst (Script.main failing_stage2 ["-c"; "/tmp/w/cfg.yaml"; "all"]))
  = [Script.Stage1; Script.Stage2] /\
  snd (Script.main failing_stage2 ["-c"; "/tmp/w/cfg.yaml"; "all"])
  = Raise RuntimeError /\
  exists rest,
    planned_stages "all"
    = Script.stages_called
        (fst (Script.main failing_stage2 ["-c"; "/tmp/w/cfg.yaml"; "all"]))
      ++ rest.
Proof.
  split; [reflexivity|]. split; [reflexivity|].
  exact (proj1 (runner_script_calls_prefix_of_plan unit unit failing_stage2
                  "-c" "/tmp/w/cfg.yaml" "all")).
Defined.

(** X6: the script does nothing before the configuration is loaded: with
    fewer than two arguments after the program name it raises
    [IndexError], and when [SessionConfig.from_file] raises, that exception
    ends the script; in both cases nothing is printed and no stage is
    called. *)
Theorem runner_script_nothing_before_config :
  forall (Config Displacements : Type)
         (lib : Script.pipeline Config Displacements),
    (forall argv, length argv < 3 ->
                  Script.main lib argv = ([], Raise IndexError)) /\
    (forall argv0 cfg_path mode more e,
        Script.from_file lib cfg_path = Raise e ->
        Script.main lib (argv0 :: cfg_path :: mode :: more) = ([], Raise e)).
Proof.
  intros Config Displacements lib. split.
  - intros argv Hlen.
    destruct argv as [|a0 [|a1 [|a2 rest]]]; try reflexivity.
    simpl in Hlen. lia.
  - intros argv0 cfg_path mode more e Hf.
    unfold Script.main. simpl. now rewrite Hf.
Qed.

Lemma runner_script_nothing_before_config_witness :
  Script.main failing_load ["-c"; "/tmp/w/cfg.yaml"]
  = ([], Raise IndexError) /\
  Script.main failing_load ["-c"; "/tmp/w/cfg.yaml"; "all"]
  = ([], Raise ValueError).
Proof.
  split.
  - apply (proj1 (runner_script_nothing_before_config unit unit failing_load)).
    simpl. lia.
  - apply (proj2 (runner_script_nothing_before_config unit unit failing_load)).
    reflexivity.
Defined.

(** ** local_runner.py: a run from start to finish *)

Section LifecycleFacts.
Import Runner.

(** A [start] that returns normally went through every step. *)
Lemma start_ok_inv env config mode self :
  outcome (start env config mode self) = Ok tt ->
  is_running self = false /\ wait_for_started env = true /\
  exists file,
    written_config env config = Ok file /\
    start env config mode self
    = (Ok tt,
       mk_runner
         (Some (mk_process (sys_executable env)
                  ["-u"; "-c"; RUNNER_SCRIPT;
                   PosixPath.to_str (config_path_of env); mode] Running))
         (Some (mk_tmpdir (fresh_tmpdir env))),
       [TmpdirCreated (mk_tmpdir (fresh_tmpdir env)); FileWritten file;
        ProcessStarted
          (mk_process (sys_executable env)
             ["-u"; "-c"; RUNNER_SCRIPT;
              PosixPath.to_str (config_path_of env); mode] NotRunning);
        Emitted run_started]).
Proof.
  intros Hok. destruct (is_running self) eqn:Hr.
  - rewrite (start_while_running env config mode self Hr) in Hok.
    discriminate Hok.
  - destruct (written_config env config) as [file|e] eqn:Hs.
    + pose proof (start_run env config mode self file Hr Hs) as Hrun.
      simpl in Hrun. rewrite Hrun in Hok |- *.
      destruct (wait_for_started env); [|discriminate Hok].
      split; [reflexivity|]. split; [reflexivity|].
      exists file. split; reflexivity.
    + rewrite (start_not_written env config mode self e Hr Hs) in Hok.
      destruct (create_tmpdir env); discriminate Hok.
Qed.

End LifecycleFacts.

(** X7: right after a [start] that returned normally the runner is
    running, and a second [start], with whatever arguments, raises
    [RuntimeError], changes nothing and launches nothing: the two calls
    together start one process. *)
Theorem second_start_is_refused :
  forall (env env' : Runner.environment) (config config' : model)
         (mode mode' : string) (self : Runner.LocalRunner),
    let first := Runner.start env config mode self in
    Runner.outcome first = Ok tt ->
    let second := Runner.start env' config' mode' (Runner.after first) in
    Runner.is_running (Runner.after first) = true /\
    second = (Raise RuntimeError, Runner.after first, []) /\
    length (Runner.started (Runner.effects first ++ Runner.effects second)) = 1.
Proof.
  intros env env' config config' mode mode' self first Hok second.
  subst first second.
  destruct (start_ok_inv env config mode self Hok)
    as (_ & _ & file & _ & Hrun).
  rewrite Hrun.
  unfold Runner.after, Runner.effects. simpl fst. simpl snd.
  rewrite start_while_running by reflexivity.
  repeat split.
Qed.

Lemma second_start_is_refused_witness :
  let first := Runner.start Runner.example_env example_config "all"
                 Runner.idle in
  let second := Runner.start stalled_env Runner.unsupported_config "stage1"
                  (Runner.after first) in
  Runner.is_running (Runner.after first) = true /\
  second = (Raise RuntimeError, Runner.after first, []) /\
  length (Runner.started (Runner.effects first ++ Runner.effects second)) = 1.
Proof.
  apply (second_start_is_refused Runner.example_env stalled_env
           example_config Runner.unsupported_config "all" "stage1"
           Runner.idle).
  reflexivity.
Defined.

(** X8: a run from start to finish: after a [start] that returned
    normally, [_on_finished] cleans up the temporary directory that [start]
    created, that one directory and once, and leaves the runner idle, so
    that [is_running()] is false and [start] is accepted again. *)
Theorem finish_cleans_what_start_created :
  forall (env : Runner.environment) (config : model) (mode : string)
         (self : Runner.LocalRunner) (exit_code : Z)
         (status : Runner.ExitStatus),
    let first := Runner.start env config mode self in
    Runner.outcome first = Ok tt ->
    let last := Runner._on_finished exit_code status (Runner.after first) in
    In (Runner.TmpdirCreated (Runner.mk_tmpdir (Runner.fresh_tmpdir env)))
       (Runner.effects first) /\
    filter (fun e => match e with Runner.TmpdirCleaned _ => true | _ => false end)
      (Runner.effects first ++ Runner.effects last)
    = [Runner.TmpdirCleaned (Runner.mk_tmpdir (Runner.fresh_tmpdir env))] /\
    Runner.after last = Runner.idle /\
    Runner.is_running (Runner.after last) = false.
Proof.
  intros env config mode self exit_code status first Hok last.
  subst first last.
  destruct (start_ok_inv env config mode self Hok)
    as (_ & _ & file & _ & Hrun).
  rewrite Hrun, on_finished_run.
  unfold Runner.after, Runner.effects. simpl fst. simpl snd.
  destruct (Z.eqb exit_code 0); simpl; auto.
Qed.

Lemma finish_cleans_what_start_created_witness :
  let first := Runner.start Runner.example_env example_config "all"
                 Runner.idle in
  let last := Runner._on_finished 0 Runner.NormalExit (Runner.after first) in
  In (Runner.TmpdirCreated
        (Runner.mk_tmpdir (Runner.fresh_tmpdir Runner.example_env)))
     (Runner.effects first) /\
  filter (fun e => match e with Runner.TmpdirCleaned _ => true | _ => false end)
    (Runner.effects first ++ Runner.effects last)
  = [Runner.TmpdirCleaned
       (Runner.mk_tmpdir (Runner.fresh_tmpdir Runner.example_env))] /\
  Runner.after last = Runner.idle /\
  Runner.is_running (Runner.after last) = false.
Proof.
  apply (finish_cleans_what_start_created Runner.example_env example_config
           "all" Runner.idle 0 Runner.NormalExit).
  reflexivity.
Defined.

(** X9: a worker that does not come up within the wait, the temporary
    directory having been created and the configuration written, leaves
    nothing behind: [start] raises [RuntimeError], the temporary directory
    it created is cleaned up, the runner is idle and [run_started] is not
    emitted. *)
Theorem start_failure_cleans_up :
  forall (env : Runner.environment) (config : model) (mode : string)
         (self : Runner.LocalRunner) (file : yaml_file),
    Runner.is_running self = false ->
    Runner.create_tmpdir env = Ok tt ->
    serialize_config_to_yaml config
      (PosixPath.AsPath (Runner.config_path_of env)) true = Ok file ->
    Runner.write_yaml env file = Ok tt ->
    Runner.wait_for_started env = false ->
    let x := Runner.start env config mode self in
    Runner.outcome x = Raise RuntimeError /\
    Runner.after x = Runner.idle /\
    Runner.signals (Runner.effects x) = [] /\
    In (Runner.TmpdirCleaned (Runner.mk_tmpdir (Runner.fresh_tmpdir env)))
       (Runner.effects x).
Proof.
  intros env config mode self file Hr Hc Hs Hy Hw x. subst x.
  assert (Hfile : Runner.written_config env config = Ok file).
  { unfold Runner.written_config. rewrite Hc. simpl. rewrite Hs. simpl.
    now rewrite Hy. }
  pose proof (start_run env config mode self file Hr Hfile) as Hrun.
  simpl in Hrun. rewrite Hrun, Hw.
  unfold Runner.outcome, Runner.after, Runner.effects. simpl.
  repeat split. auto.
Qed.

Lemma start_failure_cleans_up_witness :
  let x := Runner.start stalled_env example_config "all" Runner.idle in
  Runner.outcome x = Raise RuntimeError /\
  Runner.after x = Runner.idle /\
  Runner.signals (Runner.effects x) = [] /\
  In (Runner.TmpdirCleaned
        (Runner.mk_tmpdir (Runner.fresh_tmpdir stalled_env)))
     (Runner.effects x).
Proof.
  assert (Hs : exists file,
             serialize_config_to_yaml example_config
               (PosixPath.AsPath (Runner.config_path_of stalled_env)) true
             = Ok file) by (eexists; reflexivity).
  destruct Hs as (file & Hs).
  apply (start_failure_cleans_up stalled_env example_config "all"
           Runner.idle file);
    [reflexivity|reflexivity|exact Hs|reflexivity|reflexivity].
Defined.

(** ** local_runner.py: the output of the worker *)

Section LogFacts.
Import Runner RunnerLog.

Lemma rstrip_newlines_split s :
  exists n, s = (rstrip_newlines s ++ newlines n)%string.
Proof.
  induction s as [|c r (n & IH)]; [now exists 0|].
  simpl. destruct (rstrip_newlines r) as [|c' r'] eqn:E.
  - destruct (Ascii.eqb c newline) eqn:Ec.
    + apply Ascii.eqb_eq in Ec. subst c. exists (S n). simpl.
      now rewrite IH at 1.
    + exists n. simpl. now rewrite IH at 1.
  - exists n. simpl. simpl in IH. now rewrite IH at 1.
Qed.

Lemma rstrip_newlines_end s :
  ends_with_newline (rstrip_newlines s) = false.
Proof.
  induction s as [|c r IH]; [reflexivity|].
  simpl. destruct (rstrip_newlines r) as [|c' r'] eqn:E.
  - destruct (Ascii.eqb c newline) eqn:Ec; [reflexivity|exact Ec].
  - exact IH.
Qed.

End LogFacts.

(** X10: [_on_stdout] never changes the runner and never raises; without
    a process, or with nothing read, it emits nothing; otherwise it emits
    one [log_emitted] whose text is what was read without its trailing
    newlines: the text does not end with a newline, and the text followed
    by some newlines is the data read. *)
Theorem on_stdout_logs_without_trailing_newlines :
  forall (data : string) (self : Runner.LocalRunner),
    let x := RunnerLog._on_stdout data self in
    Runner.outcome x = Ok tt /\ Runner.after x = self /\
    ((Runner._process self = None \/ data = "") -> Runner.effects x = []) /\
    (Runner._process self <> None -> data <> "" ->
     exists text n,
       Runner.effects x = [Runner.Emitted (Runner.log_emitted text)] /\
       RunnerLog.ends_with_newline text = false /\
       data = (text ++ RunnerLog.newlines n)%string).
Proof.
  intros data self x. subst x.
  unfold RunnerLog._on_stdout, Runner.bind, Runner.get, Runner.ret,
    Runner.perform, Runner.outcome, Runner.after, Runner.effects. simpl.
  destruct (Runner._process self) as [p|]; simpl.
  - destruct (String.eqb_spec data "") as [->|Hne]; simpl.
    + repeat split. intros _ H. now destruct H.
    + repeat split.
      * intros [H|H]; [discriminate|contradiction].
      * intros _ _. destruct (rstrip_newlines_split data) as (n & Hn).
        exists (RunnerLog.rstrip_newlines data), n.
        split; [reflexivity|]. split; [apply rstrip_newlines_end|exact Hn].
  - repeat split. intros H. now destruct H.
Qed.

Lemma on_stdout_logs_without_trailing_newlines_witness :
  exists text n,
    Runner.effects
      (RunnerLog._on_stdout
         (String "o" (String "k" (String RunnerLog.newline
                                    (String RunnerLog.newline ""))))
         Runner.busy)
    = [Runner.Emitted (Runner.log_emitted text)] /\
    RunnerLog.ends_with_newline text = false /\
    String "o" (String "k" (String RunnerLog.newline
                              (String RunnerLog.newline "")))
    = (text ++ RunnerLog.newlines n)%string.
Proof.
  apply (on_stdout_logs_without_trailing_newlines
           (String "o" (String "k" (String RunnerLog.newline
                                      (String RunnerLog.newline ""))))
           Runner.busy); discriminate.
Defined.

Example on_stdout_only_newlines :
  RunnerLog._on_stdout (String RunnerLog.newline "") Runner.busy
  = (Ok tt, Runner.busy, [Runner.Emitted (Runner.log_emitted "")]).
Proof. reflexivity. Qed.

(** ** config_form.py: annotations *)

(** X11: [_annotation_has_type] answers whether the target class occurs
    in the annotation, at any depth of nested unions: the recursion, which
    looks through one [Optional] at each step, always ends with that
    answer. *)
Theorem annotation_has_type_finds_target :
  forall (a target : Form.annotation),
    Form.annotation_is Form.TNoneType target = false ->
    Form._annotation_has_type a target = Form.mentions target a.
Proof. exact annotation_has_type_mentions. Qed.

Lemma annotation_has_type_finds_target_witness :
  Form._annotation_has_type
    (Form.TUnion [Form.TUnion [Form.TInt; Form.TUnion [Form.TPath; Form.TStr]];
                  Form.TNoneType]) Form.TPath
  = Form.mentions Form.TPath
      (Form.TUnion [Form.TUnion [Form.TInt; Form.TUnion [Form.TPath; Form.TStr]];
                    Form.TNoneType]).
Proof.
  apply (annotation_has_type_finds_target _ Form.TPath). reflexivity.
Defined.

(** ** Python strings: [strip] *)

Section StripFacts.
Import PyStr.

Lemma lstrip_head s :
  lstrip s = "" \/ exists c r, lstrip s = String c r /\ is_space c = false.
Proof.
  induction s as [|c r IH]; [now left|].
  simpl. destruct (is_space c) eqn:E; [exact IH|].
  right. now exists c, r.
Qed.

Lemma rstrip_head c r :
  is_space c = false -> exists r', rstrip (String c r) = String c r'.
Proof.
  intros E. simpl. destruct (rstrip r) as [|c' r'].
  - rewrite E. now exists "".
  - now exists (String c' r').
Qed.

Lemma rstrip_idempotent s : rstrip (rstrip s) = rstrip s.
Proof.
  induction s as [|c r IH]; [reflexivity|].
  simpl. destruct (rstrip r) as [|c' r'] eqn:E.
  - destruct (is_space c) eqn:Ec; [reflexivity|].
    simpl. now rewrite Ec.
  - change (rstrip (String c (String c' r'))
            = String c (String c' r')).
    simpl. simpl in IH. now rewrite IH.
Qed.

(** [strip] is idempotent. *)
Lemma strip_idempotent s : strip (strip s) = strip s.
Proof.
  unfold strip. destruct (lstrip_head s) as [-> | (c & r & -> & Ec)];
    [reflexivity|].
  destruct (rstrip_head c r Ec) as (r' & Hr).
  rewrite Hr. simpl lstrip. rewrite Ec. rewrite <- Hr.
  apply rstrip_idempotent.
Qed.

End StripFacts.

(** ** config_form.py: what an editor returns and takes back *)

(** Splits a goal on every test of an [if]. *)
Ltac split_tests :=
  repeat match goal with
         | |- context [if ?c then _ else _] => destruct c
         end.

Section EditorFacts.
Import Form FormMore.
Variable rt : runtime.

Lemma line_plain_string text :
  PyStr.strip (PyStr.strip (line_text text)) = PyStr.strip (line_text text) /\
  (Z.of_nat (String.length (PyStr.strip (line_text text))) <= LINE_MAX)%Z.
Proof.
  split; [apply strip_idempotent|].
  pose proof (strip_length (line_text text)).
  pose proof (line_text_length text). lia.
Qed.

Lemma optional_text_canonical optional text :
  let v := optional_text optional (PyStr.strip (line_text text)) in
  plain_text optional v \/ plain_path optional v \/
  (v = VNone /\ optional = true).
Proof.
  destruct (line_plain_string text) as [Hs Hlen].
  unfold optional_text. destruct optional; cbn [andb].
  - destruct (String.eqb_spec (PyStr.strip (line_text text)) "") as [E|E].
    + right. now right.
    + left. exists (PyStr.strip (line_text text)).
      split; [reflexivity|]. split; [exact Hs|]. split; [exact Hlen|].
      now intros _.
  - left. exists (PyStr.strip (line_text text)).
    split; [reflexivity|]. split; [exact Hs|]. split; [exact Hlen|].
    discriminate.
Qed.

Lemma gives_back_canonical e v :
  gives_back e = true -> getter rt e = Ok v ->
  canonical rt e v /\ form_value v = v.
Proof.
  destruct e; cbn [gives_back getter canonical]; try discriminate.
  - destruct mode; [discriminate|]. intros _ [= <-].
    split; [|reflexivity]. right. left.
    exists (PyStr.strip (line_text file_text)).
    split; [reflexivity|].
    destruct (line_plain_string file_text) as [Hs Hlen].
    split; [exact Hs|]. split; [exact Hlen|discriminate].
  - intros _ [= <-]. split; [apply optional_text_canonical|].
    unfold optional_text. now destruct (_ && _).
  - intros _ [= <-]. split; [now exists checked|reflexivity].
  - intros _ [= <-]. split; [apply optional_text_canonical|].
    unfold optional_text. now destruct (_ && _).
  - intros _ [= <-]. split; [|reflexivity]. left.
    exists (PyStr.strip (line_text text)).
    split; [reflexivity|].
    destruct (line_plain_string text) as [Hs Hlen].
    split; [exact Hs|]. split; [exact Hlen|discriminate].
Qed.

Lemma find_index_bounds items v :
  forall k i, find_index items v k = Some i ->
              (k <= i < k + Z.of_nat (length items))%Z.
Proof.
  induction items as [|item rest IH]; intros k i; simpl; [discriminate|].
  destruct (item_eq item v).
  - intros [= <-]. lia.
  - intros H. apply IH in H. lia.
Qed.

Lemma setter_in_bounds e v : in_bounds e -> in_bounds (fst (setter rt e v)).
Proof.
  destruct e; simpl; try tauto.
  - destruct v; try tauto. now destruct (json_dumps rt _).
  - intros Hb. destruct (py_int rt v) as [z|ex]; simpl; [|exact Hb].
    unfold spin_set_value.
    destruct ((- 2 ^ 31 <=? z) && (z <=? 2 ^ 31 - 1))%Z; simpl; [|exact Hb].
    unfold SPIN_MIN, SPIN_MAX. lia.
  - now destruct (float_of rt v).
  - intros Hb. destruct (find_index items v 0) as [i|] eqn:E; simpl;
      [|exact Hb].
    right. apply find_index_bounds in E. lia.
  - destruct v; try tauto; now destruct (json_dumps rt _).
Qed.

Lemma resetter_in_bounds e : in_bounds e -> in_bounds (resetter e).
Proof.
  destruct e; simpl; try tauto.
  - intros _. unfold SPIN_MIN, SPIN_MAX. lia.
  - intros Hb. destruct items as [|item rest]; simpl; [exact Hb|].
    right. simpl. lia.
Qed.

Lemma set_default_in_bounds e d e' :
  in_bounds e -> set_default rt e d = Ok e' -> in_bounds e'.
Proof.
  intros Hb. unfold set_default. destruct d as [v|]; [|now intros [= <-]].
  pose proof (setter_in_bounds e v Hb) as H.
  destruct (setter rt e v) as [e1 [u|ex]]; [|discriminate].
  now intros [= <-].
Qed.

Lemma set_default_or_reset_in_bounds e d e' :
  in_bounds e -> set_default_or_reset rt e d = Ok e' -> in_bounds e'.
Proof.
  intros Hb. unfold set_default_or_reset. destruct d as [v|].
  - now apply set_default_in_bounds.
  - intros [= <-]. now apply resetter_in_bounds.
Qed.

Lemma filled_combo_in_bounds items : in_bounds (filled_combo items).
Proof.
  unfold filled_combo. destruct items as [|item rest]; simpl.
  - now left.
  - right. lia.
Qed.

Ltac close_bounds Hspin :=
  first [ apply set_default_in_bounds
        | apply set_default_or_reset_in_bounds ];
  first [ exact Hspin | apply filled_combo_in_bounds | exact I ].

Lemma create_editor_in_bounds n a d e :
  _create_editor rt n a d = Ok e -> in_bounds e.
Proof.
  unfold _create_editor. destruct (_unwrap_optional a) as [base opt].
  assert (Hspin : in_bounds (SpinBox 0))
    by (simpl; unfold SPIN_MIN, SPIN_MAX; lia).
  split_tests; try close_bounds Hspin.
  all: destruct base; split_tests; close_bounds Hspin.
Qed.

Lemma getter_in_range e v : in_bounds e -> getter rt e = Ok v -> in_range e v.
Proof.
  destruct e; simpl; try tauto.
  - intros _ [= <-]. now exists checked.
  - intros Hb [= <-]. now exists value.
  - intros Hb [= <-]. unfold current_data.
    destruct Hb as [[-> ->]|Hb]; [now right|].
    assert ((current_index <? 0)%Z = false) as -> by (apply Z.ltb_ge; lia).
    left. apply nth_In. lia.
Qed.

End EditorFacts.

(** X12: reading a field and setting the value read changes nothing the
    form returns: for a line edit, a path picker, a check box and the
    flow-options editor in file mode, whatever the state, the setter accepts
    the value the getter returned and the getter returns it again. *)
Theorem returned_value_is_taken_back :
  forall (rt : Form.runtime) (e : Form.editor) (v : pyval),
    FormMore.gives_back e = true ->
    Form.getter rt e = Ok v ->
    exists e',
      Form.setter rt e v = (e', Ok tt) /\ Form.getter rt e' = Ok v /\
      Form.static e' = Form.static e.
Proof.
  intros rt e v Hg Hv.
  destruct (gives_back_canonical rt e v Hg Hv) as [Hc Hsame].
  destruct (setter_getter rt e v Hc) as [Hset Hget].
  pose proof (setter_static rt e v) as Hst.
  destruct (Form.setter rt e v) as [e' r]. simpl in *. subst r.
  exists e'. rewrite Hsame in Hget. now repeat split.
Qed.

Lemma returned_value_is_taken_back_witness :
  exists e',
    Form.setter Form.tiny_runtime (Form.TextLine true "  ") VNone
    = (e', Ok tt) /\
    Form.getter Form.tiny_runtime e' = Ok VNone /\
    Form.static e' = Form.static (Form.TextLine true "  ").
Proof.
  apply (returned_value_is_taken_back Form.tiny_runtime
           (Form.TextLine true "  ") VNone); reflexivity.
Defined.

(** X13: an editor never leaves the bounds of its widget: the editor
    [_create_editor] builds is in bounds (the value of a spin box within
    -10^9..10^9, the index of a combo box on one of its items, or -1 when
    it has none), the setter, with whatever value and whether it raises or
    not, and the resetter keep it there, and the getter of an editor in
    bounds returns an int within the range for a spin box and one of the
    options, or [None] when there is none, for a combo box. *)
Theorem editors_stay_in_bounds :
  forall (rt : Form.runtime),
    (forall n a d e, Form._create_editor rt n a d = Ok e ->
                     FormMore.in_bounds e) /\
    (forall e v, FormMore.in_bounds e ->
                 FormMore.in_bounds (fst (Form.setter rt e v))) /\
    (forall e, FormMore.in_bounds e -> FormMore.in_bounds (Form.resetter e)) /\
    (forall e v, FormMore.in_bounds e -> Form.getter rt e = Ok v ->
                 FormMore.in_range e v).
Proof.
  intros rt. split; [|split; [|split]].
  - apply create_editor_in_bounds.
  - apply setter_in_bounds.
  - apply resetter_in_bounds.
  - apply getter_in_range.
Qed.

Lemma editors_stay_in_bounds_witness :
  FormMore.in_bounds (Form.SpinBox 1000000000) /\
  Form.setter Form.tiny_runtime (Form.SpinBox 0) (VInt 2000000000)
  = (Form.SpinBox 1000000000, Ok tt) /\
  FormMore.in_range (Form.SpinBox 1000000000) (VInt 1000000000).
Proof.
  pose proof (editors_stay_in_bounds Form.tiny_runtime)
    as (Hcreate & Hset & _ & Hget).
  assert (H0 : FormMore.in_bounds (Form.SpinBox 0))
    by (apply (Hcreate "n_jobs" Form.TInt None); reflexivity).
  pose proof (Hset (Form.SpinBox 0) (VInt 2000000000) H0) as H1.
  split; [exact H1|]. split; [reflexivity|].
  apply (Hget (Form.SpinBox 1000000000) (VInt 1000000000) H1). reflexivity.
Defined.

(** ** config_form.py: the fields of the form *)

Section FieldFacts.
Import Form FormMore.
Variable rt : runtime.

Lemma same_fields_refl b : same_fields b b.
Proof. induction b; constructor; auto. Qed.

Lemma same_fields_trans b1 b2 b3 :
  same_fields b1 b2 -> same_fields b2 b3 -> same_fields b1 b3.
Proof.
  intros H12. revert b3. induction H12 as [|x y l l' [Hn Hs] _ IH];
    intros b3 H23; inversion H23 as [|? z ? l'' [Hn' Hs'] Hrest]; subst.
  - constructor.
  - constructor; [split; congruence|now apply IH].
Qed.

Lemma same_fields_set n e e' b :
  binding_get n b = Some e -> static e' = static e ->
  same_fields b (binding_set n e' b).
Proof.
  intros Hg Hs. induction b as [|[k old] rest IH]; simpl in *; [discriminate|].
  destruct (String.eqb k n).
  - injection Hg as ->. constructor; [now split|apply same_fields_refl].
  - constructor; [now split|now apply IH].
Qed.

Lemma same_fields_names b b' : same_fields b b' -> map fst b' = map fst b.
Proof.
  induction 1 as [|x y l l' [Hn _] _ IH]; simpl; [reflexivity|].
  now rewrite Hn, IH.
Qed.

(** [set_form_data] keeps the fields, whether it raises or not. *)
Lemma set_data_same_fields values :
  forall b, same_fields b (fst (set_data rt values b)).
Proof.
  induction values as [|[key value] rest IH]; intros b; simpl;
    [apply same_fields_refl|].
  destruct (binding_of_key key b) as [[n e]|] eqn:Hb; [|apply IH].
  apply binding_of_key_some in Hb. destruct Hb as [_ Hg].
  pose proof (setter_static rt e value) as Hs.
  destruct (setter rt e value) as [e' [u|ex]]; simpl in Hs.
  - apply (same_fields_trans b (binding_set n e' b));
      [now apply (same_fields_set n e)|apply IH].
  - simpl. now apply (same_fields_set n e).
Qed.

Lemma set_data_unbound values b :
  unbound values b -> set_data rt values b = (b, Ok tt).
Proof.
  induction values as [|[key value] rest IH]; intros Hu; [reflexivity|].
  simpl. rewrite (Hu key value) by now left.
  apply IH. intros k v Hin. apply (Hu k v). now right.
Qed.

Lemma getter_raises e ex :
  getter rt e = Raise ex ->
  ex = ValueError /\
  (category_of_editor e = CJson \/ category_of_editor e = CFlowOptions).
Proof.
  destruct e; simpl; try discriminate.
  - destruct mode; [|discriminate].
    destruct (String.eqb _ ""); [discriminate|].
    unfold parse_object. destruct (json_loads rt _) as [v|];
      [destruct (is_dict v); [discriminate|]|]; intros [= <-]; auto.
  - destruct (String.eqb _ ""); [discriminate|].
    unfold parse_object. destruct (json_loads rt _) as [v|];
      [destruct (is_dict v); [discriminate|]|]; intros [= <-]; auto.
Qed.

(** What the loop of [get_form_data] returns or raises. *)
Lemma get_data_outcome b :
  forall acc,
    NoDup (map fst b) ->
    (forall n, In n (map fst b) -> dict_get n acc = None) ->
    match get_data rt b acc with
    | Ok data =>
        dict_keys data = dict_keys acc ++ map VStr (map fst b) /\
        (forall n e, In (n, e) b ->
                     exists v, getter rt e = Ok v /\ dict_get n data = Some v) /\
        (forall n, ~ In n (map fst b) -> dict_get n data = dict_get n acc)
    | Raise ex =>
        ex = ValueError /\
        exists n e, In (n, e) b /\ getter rt e = Raise ValueError
    end.
Proof.
  induction b as [|[k e] rest IH]; intros acc Hnd Hfresh; simpl.
  - rewrite app_nil_r. repeat split; auto. intros n e [].
  - inversion Hnd as [|? ? Hk Hrest]; subst.
    destruct (getter rt e) as [v|ex] eqn:Hg; simpl.
    + rewrite (dict_set_fresh k v acc) by (apply Hfresh; now left).
      specialize (IH (acc ++ [(VStr k, v)]) Hrest).
      assert (Hfresh' : forall n, In n (map fst rest) ->
                          dict_get n (acc ++ [(VStr k, v)]) = None).
      { intros n Hn. rewrite dict_get_app, Hfresh by now right.
        simpl. destruct (String.eqb_spec k n) as [->|]; [contradiction|].
        reflexivity. }
      specialize (IH Hfresh').
      destruct (get_data rt rest (acc ++ [(VStr k, v)])) as [data|ex].
      * destruct IH as (Hkeys & Hall & Hother). split; [|split].
        -- rewrite Hkeys. unfold dict_keys. rewrite map_app, <- app_assoc.
           reflexivity.
        -- intros n e0 [[= <- <-]|Hin]; [|now apply Hall].
           exists v. split; [assumption|].
           rewrite Hother by assumption.
           rewrite dict_get_app, Hfresh by now left.
           simpl. now rewrite String.eqb_refl.
        -- intros n Hn. rewrite Hother by (intros H; apply Hn; now right).
           rewrite dict_get_app. destruct (dict_get n acc); [reflexivity|].
           simpl. destruct (String.eqb_spec k n) as [->|]; [|reflexivity].
           exfalso. apply Hn. now left.
      * destruct IH as (-> & n & e0 & Hin & Hr). split; [reflexivity|].
        exists n, e0. split; [now right|assumption].
    + destruct (getter_raises e ex Hg) as [-> _]. split; [reflexivity|].
      exists k, e. split; [now left|assumption].
Qed.

(** A [get_form_data] that raises passes on what the first getter that
    raises raised. *)
Lemma get_data_first_raise b :
  forall acc ex,
    get_data rt b acc = Raise ex ->
    exists pre n e post,
      b = pre ++ (n, e) :: post /\ getter rt e = Raise ex /\
      (forall n' e', In (n', e') pre -> exists v, getter rt e' = Ok v).
Proof.
  induction b as [|[k e] rest IH]; intros acc ex H; simpl in H;
    [discriminate|].
  destruct (getter rt e) as [v|ex'] eqn:Hg; simpl in H.
  - destruct (IH _ _ H) as (pre & n & e0 & post & -> & Hr & Hpre).
    exists ((k, e) :: pre), n, e0, post. split; [reflexivity|].
    split; [exact Hr|].
    intros n' e' [[= <- <-]|Hin]; [now exists v|now apply (Hpre n')].
  - injection H as ->. exists [], k, e, rest. split; [reflexivity|].
    split; [exact Hg|]. intros n' e' [].
Qed.

Lemma create_bindings_fields specs :
  forall b b',
    NoDup (map fst b ++ map name specs) ->
    create_bindings rt specs b = Ok b' ->
    map fst b' = map fst b ++ map name specs /\
    (forall spec, In spec specs ->
       exists e, binding_get (name spec) b' = Some e /\
                 _create_editor rt (name spec) (field_annotation spec)
                   (default spec) = Ok e) /\
    (forall n, In n (map fst b) -> binding_get n b' = binding_get n b).
Proof.
  induction specs as [|spec rest IH]; intros b b' Hnd H; simpl in *.
  - injection H as <-. rewrite app_nil_r. repeat split; auto. intros s [].
  - destruct (_create_editor rt (name spec) (field_annotation spec)
                (default spec)) as [e|ex] eqn:He; [|discriminate].
    simpl in H.
    assert (Hfresh : binding_get (name spec) b = None).
    { apply binding_get_none. intros Hin.
      apply NoDup_remove_2 in Hnd. apply Hnd. apply in_or_app. now left. }
    rewrite (binding_set_fresh (name spec) e b Hfresh) in H.
    assert (Hnd' : NoDup (map fst (b ++ [(name spec, e)]) ++ map name rest))
      by (rewrite map_app, <- app_assoc; exact Hnd).
    destruct (IH _ _ Hnd' H) as (Hnames & Hall & Hold).
    split; [|split].
    + rewrite Hnames, map_app, <- app_assoc. reflexivity.
    + intros s [<-|Hin]; [|now apply Hall].
      exists e. split; [|exact He].
      rewrite Hold by (rewrite map_app; apply in_or_app; right; now left).
      rewrite <- (binding_set_fresh (name spec) e b Hfresh).
      apply binding_get_set_same.
    + intros n Hn.
      rewrite Hold by (rewrite map_app; apply in_or_app; now left).
      rewrite <- (binding_set_fresh (name spec) e b Hfresh).
      apply binding_get_set_other. intros <-.
      apply binding_get_none in Hfresh. contradiction.
Qed.

Lemma iter_model_fields_raw cls raw :
  raw_fields cls = Some raw ->
  iter_model_fields cls = Ok (map field_spec_of raw).
Proof.
  unfold raw_fields, iter_model_fields.
  destruct (model_fields cls); [now intros [= ->]|].
  destruct (dunder_fields cls); [now intros [= ->]|discriminate].
Qed.

End FieldFacts.

(** X14: [set_form_data] never adds, removes, renames or reorders a field
    of the form and never changes the kind of an editor, whether a setter
    raises or not; and a dict none of whose keys names a field is skipped
    entirely: the form is left as it was and nothing is raised. *)
Theorem set_form_data_keeps_the_fields :
  forall (rt : Form.runtime) (values : entries)
         (form : Form.SessionConfigForm),
    let after := fst (Form.set_form_data rt values form) in
    FormMore.same_fields (Form._bindings form) (Form._bindings after) /\
    map fst (Form._bindings after) = map fst (Form._bindings form) /\
    Form._session_config_cls after = Form._session_config_cls form /\
    (FormMore.unbound values (Form._bindings form) ->
     Form.set_form_data rt values form = (form, Ok tt)).
Proof.
  intros rt values form after. subst after.
  unfold Form.set_form_data.
  pose proof (set_data_same_fields rt values (Form._bindings form)) as Hs.
  pose proof (set_data_unbound rt values (Form._bindings form)) as Hu.
  destruct (Form.set_data rt values (Form._bindings form)) as [b r].
  simpl in *. split; [exact Hs|].
  split; [now apply same_fields_names|]. split; [reflexivity|].
  intros H. specialize (Hu H). injection Hu as -> ->. now destruct form.
Qed.

Lemma set_form_data_keeps_the_fields_witness :
  Form.set_form_data Form.tiny_runtime
    [ (VStr "unknown", VInt 3); (VInt 7, VStr "x") ]
    (Form.mk_form Form.example_class Form.example_bindings)
  = (Form.mk_form Form.example_class Form.example_bindings, Ok tt).
Proof.
  apply (set_form_data_keeps_the_fields Form.tiny_runtime
           [ (VStr "unknown", VInt 3); (VInt 7, VStr "x") ]
           (Form.mk_form Form.example_class Form.example_bindings)).
  intros key value [H|[H|[]]]; injection H as <- <-; reflexivity.
Defined.

(** X15: when [get_form_data] returns, it returns one entry per field,
    under the field's name and in the order of the fields, holding what
    the field's getter returns; when it raises, it passes on what the
    getter of some field raised, and the getters of all fields before
    that one returned. *)
Theorem get_form_data_outcome :
  forall (rt : Form.runtime) (form : Form.SessionConfigForm),
    NoDup (map fst (Form._bindings form)) ->
    match Form.get_form_data rt form with
    | Ok data =>
        dict_keys data = map VStr (map fst (Form._bindings form)) /\
        (forall n e, In (n, e) (Form._bindings form) ->
           exists v, Form.getter rt e = Ok v /\ dict_get n data = Some v)
    | Raise ex =>
        exists pre n e post,
          Form._bindings form = pre ++ (n, e) :: post /\
          Form.getter rt e = Raise ex /\
          (forall n' e', In (n', e') pre ->
             exists v, Form.getter rt e' = Ok v)
    end.
Proof.
  intros rt form Hnd. unfold Form.get_form_data.
  pose proof (get_data_outcome rt (Form._bindings form) [] Hnd
                (fun n _ => eq_refl)) as H.
  destruct (Form.get_data rt (Form._bindings form) []) as [data|ex] eqn:Hg.
  - destruct H as (Hk & Hall & _). split; [exact Hk|exact Hall].
  - exact (get_data_first_raise rt _ _ _ Hg).
Qed.

Lemma get_form_data_outcome_witness :
  (exists data,
      Form.get_form_data Form.tiny_runtime
        (Form.mk_form Form.example_class
           [ ("pattern", Form.TextLine false "a");
             ("stage_options", Form.JsonEdit true "") ]) = Ok data /\
      dict_keys data = [VStr "pattern"; VStr "stage_options"] /\
      dict_get "pattern" data = Some (VStr "a")) /\
  (exists pre n e post,
      [ ("pattern", Form.TextLine false "a");
        ("stage_options", Form.JsonEdit true "{") ]
      = pre ++ (n, e) :: post /\
      Form.getter Form.tiny_runtime e = Raise ValueError /\
      (forall n' e', In (n', e') pre ->
         exists v, Form.getter Form.tiny_runtime e' = Ok v)).
Proof.
  split.
  - pose proof (get_form_data_outcome Form.tiny_runtime
                  (Form.mk_form Form.example_class
                     [ ("pattern", Form.TextLine false "a");
                       ("stage_options", Form.JsonEdit true "") ])) as H.
    simpl in H. eexists. split; [reflexivity|].
    destruct H as [Hk Hall].
    { repeat constructor; simpl; intuition discriminate. }
    split; [exact Hk|].
    destruct (Hall "pattern" (Form.TextLine false "a") (or_introl eq_refl))
      as (v & Hv & Hd).
    injection Hv as <-. exact Hd.
  - apply (get_form_data_outcome Form.tiny_runtime
             (Form.mk_form Form.example_class
                [ ("pattern", Form.TextLine false "a");
                  ("stage_options", Form.JsonEdit true "{") ])).
    simpl. repeat constructor; simpl; intuition discriminate.
Defined.

(** X16: the form has exactly one editor per field of the model class, in
    the order of the fields, and the editor of a field is the one
    [_create_editor] builds from the field's name, its annotation and its
    default, a required field counting as having no default whatever the
    class declares for it. *)
Theorem form_has_one_editor_per_field :
  forall (rt : Form.runtime) (cls : Form.model_class)
         (raw : list (string * Form.raw_field))
         (form : Form.SessionConfigForm),
    FormMore.raw_fields cls = Some raw ->
    NoDup (map fst raw) ->
    Form.init rt cls = Ok form ->
    Form._session_config_cls form = cls /\
    map fst (Form._bindings form) = map fst raw /\
    (forall n f, In (n, f) raw ->
       exists e,
         Form.binding_get n (Form._bindings form) = Some e /\
         Form._create_editor rt n (Form.raw_annotation f)
           (if Form.raw_required f then None else Form.raw_default f)
         = Ok e).
Proof.
  intros rt cls raw form Hraw Hnd Hinit.
  destruct (init_form rt cls form Hinit) as [Hcls _].
  split; [exact Hcls|].
  unfold Form.init in Hinit.
  rewrite (iter_model_fields_raw cls raw Hraw) in Hinit. simpl in Hinit.
  destruct (Form.create_bindings rt (map Form.field_spec_of raw) [])
    as [b|] eqn:Hb; [|discriminate].
  injection Hinit as <-. simpl.
  assert (Hnames : map Form.name (map Form.field_spec_of raw) = map fst raw).
  { rewrite map_map. apply map_ext. now intros [n f]. }
  destruct (create_bindings_fields rt (map Form.field_spec_of raw) [] b)
    as (Hn & Hall & _); [simpl; now rewrite Hnames|exact Hb|].
  split; [simpl in Hn; now rewrite Hn, Hnames|].
  intros n f Hin.
  destruct (Hall (Form.field_spec_of (n, f))) as (e & Hg & He);
    [apply in_map; exact Hin|].
  exists e. split; [exact Hg|exact He].
Qed.

Lemma form_has_one_editor_per_field_witness :
  Form._session_config_cls
    (Form.mk_form Form.example_class Form.example_bindings)
  = Form.example_class /\
  map fst Form.example_bindings = ["pattern"; "resume"; "n_jobs"] /\
  (forall n f,
      In (n, f)
         [ ("pattern", Form.mk_raw Form.TStr None true);
           ("resume", Form.mk_raw Form.TBool (Some (VBool false)) false);
           ("n_jobs",
            Form.mk_raw (Form.TUnion [Form.TInt; Form.TNoneType])
              (Some (VInt 1)) false) ] ->
      exists e,
        Form.binding_get n Form.example_bindings = Some e /\
        Form._create_editor Form.tiny_runtime n (Form.raw_annotation f)
          (if Form.raw_required f then None else Form.raw_default f)
        = Ok e).
Proof.
  apply (form_has_one_editor_per_field Form.tiny_runtime Form.example_class
           [ ("pattern", Form.mk_raw Form.TStr None true);
             ("resume", Form.mk_raw Form.TBool (Some (VBool false)) false);
             ("n_jobs",
              Form.mk_raw (Form.TUnion [Form.TInt; Form.TNoneType])
                (Some (VInt 1)) false) ]
           (Form.mk_form Form.example_class Form.example_bindings)).
  - reflexivity.
  - simpl. repeat constructor; simpl; intuition discriminate.
  - reflexivity.
Defined.

(** ** config_form.py: [reset_to_defaults] *)

Section ResetFacts.
Import Form FormMore.
Variable rt : runtime.

Lemma current_data_nil i : current_data [] i = VNone.
Proof.
  unfold current_data. destruct (i <? 0)%Z; [reflexivity|].
  now destruct (Z.to_nat i).
Qed.

Lemma set_default_applied e0 d e :
  resetter e0 = e0 -> set_default rt e0 d = Ok e ->
  apply_default rt d e0 = (e, Ok tt).
Proof.
  intros Hr. unfold set_default, apply_default. destruct d as [v|].
  - destruct (setter rt e0 v) as [e1 [[]|ex]]; [|discriminate].
    now intros [= <-].
  - intros [= <-]. now rewrite Hr.
Qed.

Lemma set_default_or_reset_applied e0 d e :
  set_default_or_reset rt e0 d = Ok e -> apply_default rt d e0 = (e, Ok tt).
Proof.
  unfold set_default_or_reset, set_default, apply_default.
  destruct d as [v|].
  - destruct (setter rt e0 v) as [e1 [[]|ex]]; [|discriminate].
    now intros [= <-].
  - now intros [= <-].
Qed.

Ltac close_applied :=
  match goal with
  | |- set_default _ ?e0 _ = _ -> _ =>
      intros H; exists e0; apply set_default_applied; [reflexivity|exact H]
  | |- set_default_or_reset _ ?e0 _ = _ -> _ =>
      intros H; exists e0; apply set_default_or_reset_applied; exact H
  end.

(** The editor [_create_editor] builds is a fresh editor of its kind with
    the step of [reset_to_defaults] applied to it. *)
Lemma create_editor_applied n a d e :
  _create_editor rt n a d = Ok e ->
  exists e0, apply_default rt d e0 = (e, Ok tt).
Proof.
  unfold _create_editor. destruct (_unwrap_optional a) as [base opt].
  split_tests; try close_applied.
  all: destruct base; split_tests; close_applied.
Qed.

Lemma apply_default_static d e e' r :
  apply_default rt d e = (e', r) -> static e' = static e.
Proof.
  unfold apply_default. destruct d as [v|].
  - intros H. pose proof (setter_static rt e v) as Hs.
    rewrite H in Hs. exact Hs.
  - intros [= <- _]. now destruct e.
Qed.

(** From any state of the same kind the step gives an editor that returns
    what the editor returned when it was built. *)
Lemma apply_default_restores d e0 ei e :
  apply_default rt d e0 = (ei, Ok tt) ->
  static e = static ei ->
  default_selectable ei d ->
  exists e',
    apply_default rt d e = (e', Ok tt) /\
    getter rt e' = getter rt ei /\ static e' = static e.
Proof.
  intros Ha Hs Hsel.
  pose proof (apply_default_static d e0 ei (Ok tt) Ha) as Hs0.
  destruct d as [v|]; simpl in *.
  - destruct e0; simpl in Ha.
    + destruct e; try (destruct ei; discriminate).
      destruct v;
        try (injection Ha as <-; eexists; split; [reflexivity|now split]).
      destruct (json_dumps rt (VDict entries0)) as [txt|ex] eqn:Ed;
        [|discriminate].
      injection Ha as <-. simpl. rewrite Ed.
      eexists; split; [reflexivity|now split].
    + injection Ha as <-. destruct e; try discriminate.
      simpl in Hs. injection Hs as -> ->.
      eexists; split; [reflexivity|now split].
    + injection Ha as <-. destruct e; try discriminate.
      eexists; split; [reflexivity|now split].
    + destruct (rbind (py_int rt v) spin_set_value) as [z|ex] eqn:Ez;
        [|discriminate].
      injection Ha as <-. destruct e; try discriminate. simpl. rewrite Ez.
      eexists; split; [reflexivity|now split].
    + destruct (float_of rt v) as [bits0|ex] eqn:Ef; [|discriminate].
      injection Ha as <-. destruct e; try discriminate. simpl. rewrite Ef.
      eexists; split; [reflexivity|now split].
    + destruct (find_index items v 0) as [i|] eqn:Ei.
      * injection Ha as <-. destruct e; try discriminate.
        simpl in Hs. injection Hs as ->. simpl. rewrite Ei.
        eexists; split; [reflexivity|now split].
      * injection Ha as <-. simpl in Hsel. contradiction.
    + destruct e; try (destruct ei; discriminate).
      destruct v;
        try (destruct (json_dumps rt _) as [txt|ex] eqn:Ed; [|discriminate];
             injection Ha as <-; simpl in Hs; injection Hs as ->;
             simpl; rewrite Ed;
             eexists; split; [reflexivity|now split]).
      injection Ha as <-. simpl in Hs. injection Hs as ->.
      eexists; split; [reflexivity|now split].
    + injection Ha as <-. destruct e; try discriminate.
      simpl in Hs. injection Hs as ->.
      eexists; split; [reflexivity|now split].
    + injection Ha as <-. destruct e; try discriminate.
      eexists; split; [reflexivity|now split].
  - injection Ha as <-.
    destruct e0, e; simpl in Hs; try discriminate;
      try (injection Hs as ?; subst);
      try (eexists; split; [reflexivity|now split]).
    eexists; split; [reflexivity|]. split; [|reflexivity].
    simpl. destruct items as [|item rest]; simpl; [|reflexivity].
    now rewrite !current_data_nil.
Qed.

Lemma same_values_get b b' :
  same_values rt b b' -> forall acc, get_data rt b' acc = get_data rt b acc.
Proof.
  induction 1 as [|[n e] [n' e'] l l' [Hn Hg] _ IH]; intros acc;
    [reflexivity|].
  simpl in *. subst n'. rewrite Hg.
  destruct (getter rt e); simpl; [apply IH|reflexivity].
Qed.

(** The loop of [reset_to_defaults] on a form whose editors were built
    with the defaults. *)
Lemma reset_bindings_restores defaults b0 :
  forall b,
    same_fields b0 b ->
    (forall n ei, In (n, ei) b0 ->
       (exists e0, apply_default rt (defaults n) e0 = (ei, Ok tt)) /\
       default_selectable ei (defaults n)) ->
    exists b',
      reset_bindings rt defaults b = (b', Ok tt) /\
      same_values rt b0 b' /\ same_fields b b'.
Proof.
  induction b0 as [|[n ei] rest0 IH]; intros b Hsame Hall;
    inversion Hsame as [|? [n' e] ? rest [Hn Hs] Hrest]; subst.
  - exists []. repeat split; constructor.
  - simpl in Hn, Hs. subst n'.
    destruct (Hall n ei (or_introl eq_refl)) as [(e0 & Ha) Hsel].
    destruct (apply_default_restores (defaults n) e0 ei e Ha Hs Hsel)
      as (e' & Ha' & Hg & Hs').
    destruct (IH rest Hrest) as (rest' & Hrun & Hvals & Hfields).
    { intros m x Hin. apply Hall. now right. }
    exists ((n, e') :: rest'). simpl. rewrite Ha', Hrun.
    split; [reflexivity|].
    split; constructor; auto.
Qed.

Lemma default_of_in specs spec :
  NoDup (map name specs) -> In spec specs ->
  default_of specs (name spec) = default spec.
Proof.
  induction specs as [|s rest IH]; intros Hnd Hin; [destruct Hin|].
  simpl in *. inversion Hnd as [|? ? Hs Hrest]; subst.
  destruct Hin as [->|Hin]; [now rewrite String.eqb_refl|].
  destruct (String.eqb_spec (name s) (name spec)) as [E|_];
    [|now apply IH].
  exfalso. apply Hs. rewrite E. now apply in_map.
Qed.

End ResetFacts.

(** X17: [reset_to_defaults] brings the form back to the values it showed
    when it was built: from any later state of the form (the same fields,
    whatever their contents), if each combo box can select its default, the
    call succeeds and [get_form_data] returns afterwards what it returned
    for the form as [__init__] left it. *)
Theorem reset_restores_initial_values :
  forall (rt : Form.runtime) (cls : Form.model_class)
         (specs : list Form.ModelFieldSpec)
         (form0 form : Form.SessionConfigForm),
    Form.iter_model_fields cls = Ok specs ->
    NoDup (map Form.name specs) ->
    Form.init rt cls = Ok form0 ->
    FormMore.same_fields (Form._bindings form0) (Form._bindings form) ->
    (forall n e, In (n, e) (Form._bindings form0) ->
                 FormMore.default_selectable e (FormMore.default_of specs n)) ->
    exists form',
      FormMore.reset_to_defaults rt specs form = (form', Ok tt) /\
      Form.get_form_data rt form' = Form.get_form_data rt form0 /\
      FormMore.same_fields (Form._bindings form) (Form._bindings form').
Proof.
  intros rt cls specs form0 form Hspecs Hnd Hinit Hsame Hsel.
  destruct (init_form rt cls form0 Hinit) as [_ Hnames0].
  unfold Form.init in Hinit. rewrite Hspecs in Hinit. simpl in Hinit.
  destruct (Form.create_bindings rt specs []) as [b0|] eqn:Hb; [|discriminate].
  injection Hinit as <-. simpl in *.
  destruct (create_bindings_fields rt specs [] b0) as (Hn & Hall & _);
    [exact Hnd|exact Hb|]. simpl in Hn.
  destruct (reset_bindings_restores rt (FormMore.default_of specs) b0
              (Form._bindings form) Hsame) as (b' & Hrun & Hvals & Hfields).
  { intros n ei Hin. split; [|now apply Hsel].
    assert (Hname : In n (map Form.name specs)).
    { rewrite <- Hn. apply in_map_iff. now exists (n, ei). }
    apply in_map_iff in Hname. destruct Hname as (spec & <- & Hspec).
    destruct (Hall spec Hspec) as (e & Hg & He).
    rewrite (binding_get_in (Form.name spec) ei b0 Hnames0 Hin) in Hg.
    injection Hg as <-.
    rewrite (default_of_in specs spec Hnd Hspec).
    now apply (create_editor_applied rt (Form.name spec)
                 (Form.field_annotation spec)). }
  exists (Form.mk_form (Form._session_config_cls form) b').
  unfold FormMore.reset_to_defaults. rewrite Hrun.
  split; [reflexivity|]. split; [|exact Hfields].
  unfold Form.get_form_data. simpl. now apply same_values_get.
Qed.

Lemma reset_restores_initial_values_witness :
  exists form',
    FormMore.reset_to_defaults Form.tiny_runtime
      [ Form.mk_field "quality"
          (Form.TLiteral [VStr "fast"; VStr "balanced"])
          (Some (VStr "balanced")) false;
        Form.mk_field "pattern" Form.TStr None true ]
      (Form.mk_form choice_class
         [ ("quality", Form.ComboBox [VStr "fast"; VStr "balanced"] 0);
           ("pattern", Form.TextLine false "*.tif") ])
    = (form', Ok tt) /\
    Form.get_form_data Form.tiny_runtime form'
    = Form.get_form_data Form.tiny_runtime
        (Form.mk_form choice_class
           [ ("quality", Form.ComboBox [VStr "fast"; VStr "balanced"] 1);
             ("pattern", Form.TextLine false "") ]) /\
    FormMore.same_fields
      [ ("quality", Form.ComboBox [VStr "fast"; VStr "balanced"] 0);
        ("pattern", Form.TextLine false "*.tif") ]
      (Form._bindings form').
Proof.
  apply (reset_restores_initial_values Form.tiny_runtime choice_class
           [ Form.mk_field "quality"
               (Form.TLiteral [VStr "fast"; VStr "balanced"])
               (Some (VStr "balanced")) false;
             Form.mk_field "pattern" Form.TStr None true ]
           (Form.mk_form choice_class
              [ ("quality", Form.ComboBox [VStr "fast"; VStr "balanced"] 1);
                ("pattern", Form.TextLine false "") ])
           (Form.mk_form choice_class
              [ ("quality", Form.ComboBox [VStr "fast"; VStr "balanced"] 0);
                ("pattern", Form.TextLine false "*.tif") ])).
  - reflexivity.
  - simpl. repeat constructor; simpl; intuition discriminate.
  - reflexivity.
  - simpl. repeat constructor.
  - intros n e [H|[H|[]]]; injection H as <- <-; simpl;
      [discriminate|exact I].
Defined.

Example reset_with_unselectable_default :
  FormMore.reset_to_defaults Form.tiny_runtime
    [ Form.mk_field "quality" (Form.TLiteral [VStr "fast"; VStr "balanced"])
        (Some (VStr "best")) false ]
    (Form.mk_form choice_class
       [ ("quality", Form.ComboBox [VStr "fast"; VStr "balanced"] 1) ])
  = (Form.mk_form choice_class
       [ ("quality", Form.ComboBox [VStr "fast"; VStr "balanced"] 1) ],
     Ok tt).
Proof. reflexivity. Qed.

(** ** local_runner.py: the error output of the worker *)

Section StderrFacts.
Import PyStr.

Lemma rstrip_split s :
  exists w, s = (rstrip s ++ w)%string /\
            forallb is_space (list_ascii_of_string w) = true.
Proof.
  induction s as [|c r (w & IH & Hw)]; [exists ""; split; reflexivity|].
  simpl. destruct (rstrip r) as [|c' r'] eqn:E.
  - destruct (is_space c) eqn:Ec.
    + exists (String c w). simpl in IH. subst r. simpl.
      rewrite Ec, Hw. split; reflexivity.
    + exists w. simpl in *. subst r. split; [reflexivity|exact Hw].
  - exists w. simpl in *. split; [now rewrite <- IH|exact Hw].
Qed.

End StderrFacts.

(** X18: [_on_stderr] never changes the runner and never raises; without
    a process, or with nothing read, it emits nothing; otherwise it emits
    one [log_emitted] whose text is ["[stderr] "] followed by what was read
    with the white space at its end removed and nothing else changed. *)
Theorem on_stderr_logs_with_prefix :
  forall (data : string) (self : Runner.LocalRunner),
    let x := RunnerLog._on_stderr data self in
    Runner.outcome x = Ok tt /\ Runner.after x = self /\
    ((Runner._process self = None \/ data = "") -> Runner.effects x = []) /\
    (Runner._process self <> None -> data <> "" ->
     exists text w,
       Runner.effects x
       = [Runner.Emitted (Runner.log_emitted ("[stderr] " ++ text))] /\
       PyStr.rstrip text = text /\
       data = (text ++ w)%string /\
       forallb PyStr.is_space (list_ascii_of_string w) = true).
Proof.
  intros data self x. subst x.
  unfold RunnerLog._on_stderr, Runner.bind, Runner.get, Runner.ret,
    Runner.perform, Runner.outcome, Runner.after, Runner.effects. simpl.
  destruct (Runner._process self) as [p|]; simpl.
  - destruct (String.eqb_spec data "") as [->|Hne]; simpl.
    + repeat split. intros _ H. now destruct H.
    + repeat split.
      * intros [H|H]; [discriminate|contradiction].
      * intros _ _. destruct (rstrip_split data) as (w & Hd & Hw).
        exists (PyStr.rstrip data), w.
        split; [reflexivity|].
        split; [apply rstrip_idempotent|]. split; assumption.
  - repeat split. intros H. now destruct H.
Qed.

Lemma on_stderr_logs_with_prefix_witness :
  exists text w,
    Runner.effects (RunnerLog._on_stderr "Traceback  " Runner.busy)
    = [Runner.Emitted (Runner.log_emitted ("[stderr] " ++ text))] /\
    PyStr.rstrip text = text /\
    "Traceback  " = (text ++ w)%string /\
    forallb PyStr.is_space (list_ascii_of_string w) = true.
Proof.
  apply (on_stderr_logs_with_prefix "Traceback  " Runner.busy); discriminate.
Defined.
